(** * Mock-exam aggregation script: a shallow embedding and its properties

    The development follows [shukei-bunseki20250930_100635.py]: the character
    tables and the fragment of regular expressions the script relies on, the
    cutoff resolver, the grade normaliser, the sheet matcher, the exam-score
    extractor, the mastery and late-completion counters, the report shaper
    and [main].

    Conventions.
    - A Python [str] is a list of Unicode code points.
    - A spreadsheet cell is represented by the three readings the script
      takes of it: [pd.to_numeric(.., errors="coerce")],
      [pd.to_datetime(.., errors="coerce")] and [str(..)].
    - Numbers are exact rationals; rounding of binary floating point is not
      modelled.
    - A data frame is a list of rows.  [groupby] and outer [merge] order
      rows by key in pandas; here a table is its rows, and where one is
      shown in full the rows stand in the order the definitions give them.
    - Exceptions of pandas are not modelled: every function is total.
    - A sheet of the output of [main] is its title and its table; the
      styling of a sheet (widths, bold header, frozen panes) is modelled on
      its own. *)

From stdpp Require Import base decidable countable gmap sorting.
From Stdlib Require Import String Ascii Bool ZArith NArith QArith Qround Lia List.
Import ListNotations.
Local Open Scope Z_scope.

(** ** Strings *)

Abbreviation char := N (only parsing).
Abbreviation str := (list N) (only parsing).

(** A position in a text: what stands before it, last character first,
    and what stands after it. *)
Abbreviation pos := (list N * list N)%type (only parsing).

(** A [datetime] is a point of the time line, counted in microseconds from
    1970-01-01T00:00:00. *)
Abbreviation datetime := Z (only parsing).

(** Source literals are written as UTF-8 text and decoded to code points. *)
Fixpoint utf8_decode (bs : list N) : str :=
  match bs with
  | [] => []
  | b0 :: r0 =>
      if (b0 <? 128)%N then b0 :: utf8_decode r0
      else match r0 with
           | [] => [b0]
           | b1 :: r1 =>
               if (b0 <? 224)%N
               then ((b0 - 192) * 64 + (b1 - 128))%N :: utf8_decode r1
               else match r1 with
                    | [] => [b0]
                    | b2 :: r2 =>
                        if (b0 <? 240)%N
                        then ((b0 - 224) * 4096 + (b1 - 128) * 64 + (b2 - 128))%N
                               :: utf8_decode r2
                        else match r2 with
                             | [] => [b0]
                             | b3 :: r3 =>
                                 ((b0 - 240) * 262144 + (b1 - 128) * 4096
                                  + (b2 - 128) * 64 + (b3 - 128))%N
                                   :: utf8_decode r3
                             end
                    end
           end
  end.

Definition u (s : string) : str :=
  utf8_decode (map N_of_ascii (list_ascii_of_string s)).

Definition str_eqb (a b : str) : bool := bool_decide (a = b).

Fixpoint starts_with (p s : str) : bool :=
  match p, s with
  | [], _ => true
  | c :: p', d :: s' => (c =? d)%N && starts_with p' s'
  | _ :: _, [] => false
  end.

(** [sub in s] on strings. *)
Fixpoint contains (sub s : str) : bool :=
  starts_with sub s ||
  match s with
  | [] => false
  | _ :: s' => contains sub s'
  end.

(** [x in xs] on a list of strings. *)
Definition mem (x : str) (xs : list str) : bool := existsb (str_eqb x) xs.

(** [s.replace(c, "")] for a one-character [c]. *)
Definition remove_char (c : char) (s : str) : str :=
  List.filter (fun d => negb (d =? c)%N) s.

(** [next((c for c in xs if p(c)), None)] *)
Definition next {A} (p : A -> bool) (xs : list A) : option A := List.find p xs.

(** ** Cells, sheets and workbooks *)

(** A cell, by the readings the script takes of it. *)
Record cell := {
  num : option Q;          (* pd.to_numeric(.., errors="coerce"); None is NaN *)
  date : option datetime;  (* pd.to_datetime(.., errors="coerce"); None is NaT *)
  text : str               (* str(..) *)
}.

Abbreviation Series := (list cell) (only parsing).

(** A sheet as [pd.read_excel] returns it: the columns in order, each with
    the text [str(c)] of its label and its values.  All the columns of a
    sheet have the same length. *)
Abbreviation DataFrame := (list (list N * list cell)) (only parsing).

(** A workbook: its sheets in order, [xls.sheet_names] with their contents. *)
Abbreviation Workbook := (list (list N * list (list N * list cell))) (only parsing).

(** ** Character tables

    The interpreter's Unicode tables are an interface of the script: the
    white space of [str.strip] and [\s], the decimal digits of [\d] with the
    value [int] gives them, the word characters of [\b], and the comparison
    of a pattern literal with a subject character under [re.I]. *)

Class Unicode := {
  isspace : char -> bool;
  isdecimal : char -> bool;
  digit_value : char -> Z;
  isword : char -> bool;
  ci_eq : char -> char -> bool;
  newline_isspace : isspace 10%N = true
}.

Definition in_range (lo hi c : N) : bool := ((lo <=? c) && (c <=? hi))%N.

Definition lower_basic (c : char) : char :=
  if in_range 65 90 c then (c + 32)%N
  else if in_range 0xFF21 0xFF3A c then (c + 32)%N
  else if in_range 0x2160 0x216F c then (c + 16)%N
  else c.

(** The tables on the blocks the workbooks use: ASCII, the Unicode spaces,
    Roman numerals, kana, CJK ideographs and the full-width forms. *)
Definition basic_tables : Unicode := {|
  isspace c :=
    in_range 9 13 c || in_range 28 32 c || (c =? 0x85)%N || (c =? 0xA0)%N
    || (c =? 0x1680)%N || in_range 0x2000 0x200A c || in_range 0x2028 0x2029 c
    || (c =? 0x202F)%N || (c =? 0x205F)%N || (c =? 0x3000)%N;
  isdecimal c := in_range 48 57 c || in_range 0xFF10 0xFF19 c;
  digit_value c :=
    if in_range 48 57 c then Z.of_N c - 48 else Z.of_N c - 0xFF10;
  isword c :=
    in_range 48 57 c || in_range 65 90 c || in_range 97 122 c || (c =? 95)%N
    || in_range 0x2160 0x2188 c || in_range 0x3041 0x3096 c
    || in_range 0x30A1 0x30FA c || in_range 0x30FC 0x30FF c
    || in_range 0x4E00 0x9FFF c || in_range 0xFF10 0xFF19 c
    || in_range 0xFF21 0xFF3A c || in_range 0xFF41 0xFF5A c;
  ci_eq a b := (lower_basic a =? lower_basic b)%N;
  newline_isspace := eq_refl
|}.

Section Text.
Context {U : Unicode}.

(** [s.strip()] *)
Fixpoint lstrip (s : str) : str :=
  match s with
  | c :: s' => if isspace c then lstrip s' else s
  | [] => []
  end.

Definition strip (s : str) : str := rev (lstrip (rev (lstrip s))).

(** [int(s)] on a string of decimal digits. *)
Definition int_of_digits (s : str) : Z :=
  fold_left (fun acc c => 10 * acc + digit_value c) s 0.

(** [s.translate(str.maketrans(src, dst))], for [src] without repetition. *)
Definition translate (src dst : str) (s : str) : str :=
  map (fun c =>
         match List.find (fun kv => (fst kv =? c)%N) (combine src dst) with
         | Some kv => snd kv
         | None => c
         end) s.

(** ** Regular expressions

    The fragment the script uses: character sets, greedy repetition of a
    character set, concatenation, alternation, and the assertions [^], [$]
    and [\b]. *)

Inductive cset :=
| CSpace                (* \s *)
| CDigit                (* \d *)
| CAny                  (* .  : anything but a newline *)
| CLit (c : char)       (* a literal character *)
| CLitI (c : char).     (* a literal character under re.I *)

Inductive regex :=
| Eps
| Atom (a : cset)
| Star (a : cset)
| Cat (r1 r2 : regex)
| Alt (r1 r2 : regex)
| Bol                   (* ^ *)
| Eol                   (* $ *)
| WordB.                (* \b *)

Definition cset_mem (a : cset) (c : char) : bool :=
  match a with
  | CSpace => isspace c
  | CDigit => isdecimal c
  | CAny => negb (c =? 10)%N
  | CLit d => (d =? c)%N
  | CLitI d => ci_eq d c
  end.

(** [a{n}] *)
Fixpoint Rep (n : nat) (a : cset) : regex :=
  match n with
  | O => Eps
  | S n' => Cat (Atom a) (Rep n' a)
  end.

(** A literal string, as [re.escape] produces it. *)
Fixpoint Lits (lit : char -> cset) (s : str) : regex :=
  match s with
  | [] => Eps
  | c :: s' => Cat (Atom (lit c)) (Lits lit s')
  end.

(** Does the text start with a word character? *)
Definition word_at (s : str) : bool :=
  match s with
  | c :: _ => isword c
  | [] => false
  end.

(** All the ways [a*] can match at a position, longest first. *)
Fixpoint star_run (a : cset) (before after : str) : list pos :=
  match after with
  | c :: after' =>
      if cset_mem a c
      then star_run a (c :: before) after' ++ [(before, after)]
      else [(before, after)]
  | [] => [(before, after)]
  end.

(** The positions at which a match of [r] starting at [p] can end, in the
    order a backtracking matcher tries them. *)
Fixpoint run (r : regex) (p : pos) : list pos :=
  match r with
  | Eps => [p]
  | Atom a =>
      match snd p with
      | c :: after' => if cset_mem a c then [(c :: fst p, after')] else []
      | [] => []
      end
  | Star a => star_run a (fst p) (snd p)
  | Cat r1 r2 => flat_map (run r2) (run r1 p)
  | Alt r1 r2 => run r1 p ++ run r2 p
  | Bol => match fst p with [] => [p] | _ => [] end
  | Eol =>
      match snd p with
      | [] => [p]
      | [c] => if (c =? 10)%N then [p] else []
      | _ => []
      end
  | WordB => if xorb (word_at (fst p)) (word_at (snd p)) then [p] else []
  end.

(** [re.match(r, s)]: is there a match at the start of [s]? *)
Definition re_match (r : regex) (s : str) : bool :=
  match run r ([], s) with
  | [] => false
  | _ :: _ => true
  end.

(** [re.search(r, s)]: the text of the leftmost match, [m.group(0)]; the
    patterns of the script are one group, so it is [m.group(1)] too. *)
Fixpoint search_from (r : regex) (before after : str) : option str :=
  match run r (before, after) with
  | p' :: _ => Some (firstn (length after - length (snd p')) after)
  | [] =>
      match after with
      | [] => None
      | c :: after' => search_from r (c :: before) after'
      end
  end.

Definition re_search (r : regex) (s : str) : option str := search_from r [] s.

(** ** Dates *)

(** The number of days from 1970-01-01 to the day [d] of month [m] of year
    [y] of the Gregorian calendar. *)
Definition days_from_civil (y m d : Z) : Z :=
  let y' := if m <=? 2 then y - 1 else y in
  let era := y' / 400 in
  let yoe := y' - era * 400 in
  let mp := if 2 <? m then m - 3 else m + 9 in
  let doy := (153 * mp + 2) / 5 + d - 1 in
  let doe := yoe * 365 + yoe / 4 - yoe / 100 + doy in
  era * 146097 + doe - 719468.

(** [datetime(y, m, d)] *)
Definition mk_datetime (y m d : Z) : datetime :=
  days_from_civil y m d * 86400 * 1000000.

(** ** Catalogs and calendar *)

Definition ENG_TARGETS : list str :=
  [u "英単語1800"; u "英熟語750"; u "英文法750";
   u "英例文300"; u "上級英単語1000"; u "上級英熟語500"].

Definition MATH_TARGETS : list str :=
  [u "数学Ⅰ"; u "数学A"; u "数学Ⅱ"; u "数学B"; u "数学ⅠA上級"; u "数学ⅡB上級"].

Definition EXAM_CUTOFF_BY_YEAR : gmap Z datetime :=
  {[ 2023 := mk_datetime 2023 1 17;
     2024 := mk_datetime 2024 1 17;
     2025 := mk_datetime 2025 1 18 ]}.

(** ** Utilities *)

Definition normalize_grade_pattern : regex :=
  Alt (Cat (Atom (CLit 0x9AD8%N)) (Cat (Star CSpace) (Atom (CLit 51%N))))   (* 高\s*3 *)
      (Alt (Cat (Atom (CLit 51%N)) (Atom (CLit 0x5E74%N)))                  (* 3年 *)
           (Cat WordB (Cat (Atom (CLit 51%N)) WordB))).                   (* \b3\b *)

(** [x] is the text [str(x)] of the grade cell. *)
Definition normalize_grade_val (x : str) : str :=
  let s := strip (translate (u "０１２３４５６７８９高　 ") (u "0123456789高  ") x) in
  match re_search normalize_grade_pattern s with
  | Some _ => u "高3"
  | None => u "高1+2"
  end.

Definition pick_exam_sheets (xls_names : list str) : list str :=
  List.filter (contains (u "合同共テ結果")) xls_names.

Definition detect_year_from_stem (stem : str) : option Z :=
  match re_search (Rep 6 CDigit) stem with
  | Some m6 => Some (int_of_digits (firstn 4 m6))
  | None =>
      match re_search (Rep 4 CDigit) stem with
      | Some m4 => Some (int_of_digits m4)
      | None => None
      end
  end.

Definition cutoff_for_stem (stem : str) (override_map : option (gmap str datetime))
  : option datetime :=
  let override_map := match override_map with Some m => m | None => ∅ end in
  match re_search (Rep 6 CDigit) stem with
  | Some key6 =>
      match override_map !! key6 with
      | Some d => Some d
      | None =>
          let year := int_of_digits (firstn 4 key6) in
          EXAM_CUTOFF_BY_YEAR !! (year + 1)
      end
  | None =>
      match detect_year_from_stem stem with
      | Some year => if year =? 0 then None else EXAM_CUTOFF_BY_YEAR !! (year + 1)
      | None => None
      end
  end.

(** ** Sheet matcher *)

(** [re.sub(r"\s+", "", str(x))] *)
Definition norm (x : str) : str := List.filter (fun c => negb (isspace c)) x.

(** [^\s*\d{4}\s*.*<re.escape(norm(t))>\s*$] under [re.I] *)
Definition target_pattern (t : str) : regex :=
  Cat Bol
   (Cat (Star CSpace)
    (Cat (Rep 4 CDigit)
     (Cat (Star CSpace)
      (Cat (Star CAny)
       (Cat (Lits CLitI (norm t))
        (Cat (Star CSpace) Eol)))))).

Definition _sheets_for_targets (sheet_names target_list : list str)
  : list (str * str) :=
  flat_map
    (fun s =>
       match List.find (fun t => re_match (target_pattern t) (norm s)) target_list with
       | Some t => [(t, s)]
       | None => []
       end)
    sheet_names.

(** ** Workbooks *)

Definition sheet_names (wb : Workbook) : list str := map fst wb.

(** [pd.read_excel(fp, sheet_name=s)] *)
Definition read_excel (wb : Workbook) (s : str) : DataFrame :=
  match List.find (fun sh => str_eqb (fst sh) s) wb with
  | Some sh => snd sh
  | None => []
  end.

Definition columns (df : DataFrame) : list str := map fst df.

(** [df[c]] *)
Definition col (df : DataFrame) (c : str) : Series :=
  match List.find (fun cv => str_eqb (fst cv) c) df with
  | Some cv => snd cv
  | None => []
  end.

Definition clean_cols (df : DataFrame) : DataFrame :=
  map (fun cv =>
         (remove_char 0x3000%N (remove_char 0xA0%N (strip (fst cv))), snd cv))
      df.

(** [if c] for an optional column name. *)
Definition truthy (c : option str) : bool :=
  match c with
  | Some (_ :: _) => true
  | _ => false
  end.

Definition find_id_col (df : DataFrame) : option str :=
  next (fun c => contains (u "生徒番号") c || mem c [u "ID"; u "生徒ID"])
       (columns df).

(** [.astype(int)]: truncation towards zero. *)
Definition astype_int (q : Q) : Z := Z.quot (Qnum q) (Zpos (Qden q)).

(** [.fillna(0)] *)
Definition fillna0 (x : option Q) : Q :=
  match x with
  | Some q => q
  | None => 0%Q
  end.

(** ** Grouping and joining *)

Section Frames.
Context {K : Type} `{EqDecision K}.

(** The distinct keys of the rows. *)
Definition keys {V} (rows : list (K * V)) : list K :=
  nodup (fun a b => decide (a = b)) (map fst rows).

(** The values of the rows of one key. *)
Definition group {V} (k : K) (rows : list (K * V)) : list V :=
  map snd (List.filter (fun r => bool_decide (fst r = k)) rows).

(** [rows.groupby(key).agg(..)]: one row per distinct key. *)
Definition groupby {V W} (agg : list V -> W) (rows : list (K * V)) : list (K * W) :=
  map (fun k => (k, agg (group k rows))) (keys rows).

(** [left.merge(right, on=key, how="left")]: every left row once per
    matching right row, or once with a missing value. *)
Definition merge_left {A V} (key : A -> K) (left : list A) (right : list (K * V))
  : list (A * option V) :=
  flat_map
    (fun a =>
       match group (key a) right with
       | [] => [(a, None)]
       | vs => map (fun v => (a, Some v)) vs
       end)
    left.

End Frames.

(** [max] of a group of integers. *)
Definition max_of (vs : list Z) : Z :=
  match vs with
  | [] => 0
  | v :: vs' => fold_left Z.max vs' v
  end.

Definition Qmax (a b : Q) : Q := if Qle_bool a b then b else a.

(** An aggregate that skips missing values and is missing when every value
    is ([max], [min] of a group). *)
Definition skipna {A} (f : A -> A -> A) (vs : list (option A)) : option A :=
  fold_left
    (fun acc v =>
       match acc, v with
       | Some a, Some b => Some (f a b)
       | None, _ => v
       | _, None => acc
       end)
    vs None.

(** [len(set(xs))] *)
Definition nunique (xs : list Z) : Z := Z.of_nat (length (nodup Z.eq_dec xs)).

(** ** Exam scores *)

Record ExamRow := {
  student_id : Z;   (* the integer that [.astype(int).astype(str)] writes in decimal *)
  grade_norm : str;
  score_eng : option Q;
  score_math : option Q;
  score_jpn : option Q
}.

(** The body of the loop of [read_exam] on one sheet; [None] is [continue]. *)
Definition exam_sub (df : DataFrame) : option (list ExamRow) :=
  let df := clean_cols df in
  if negb (mem (u "英語") (columns df)) then None
  else
    let id_col := find_id_col df in
    let grade_col := next (contains (u "学年")) (columns df) in
    let math1_col := next (contains (u "数学Ⅰ・数学A")) (columns df) in
    let math2_col := next (contains (u "数学Ⅱ・数学B・数学C")) (columns df) in
    let jpn_col := next (contains (u "国語(現古漢)")) (columns df) in
    match id_col, grade_col with
    | Some idc, Some gc =>
        if negb (truthy id_col) || negb (truthy grade_col) then None
        else
          let ids := map num (col df idc) in
          let grades := map (fun c => normalize_grade_val (text c)) (col df gc) in
          let engs := map num (col df (u "英語")) in
          let maths :=
            match math1_col, math2_col with
            | Some m1, Some m2 =>
                if truthy math1_col && truthy math2_col
                then map (fun ab => Some (fillna0 (num (fst ab)) + fillna0 (num (snd ab)))%Q)
                         (combine (col df m1) (col df m2))
                else map (fun _ => None) ids
            | _, _ => map (fun _ => None) ids
            end in
          let jpns :=
            match jpn_col with
            | Some j => if truthy jpn_col then map num (col df j) else map (fun _ => None) ids
            | None => map (fun _ => None) ids
            end in
          Some
            (flat_map
               (fun r =>
                  match r with
                  | (Some i, (g, (e, (m, j)))) =>
                      [{| student_id := astype_int i; grade_norm := g;
                          score_eng := e; score_math := m; score_jpn := j |}]
                  | (None, _) => []     (* dropna(subset=["student_id"]) *)
                  end)
               (combine ids (combine grades (combine engs (combine maths jpns)))))
    | _, _ => None
    end.

Definition read_exam (wb : Workbook) : list ExamRow :=
  let sheets := pick_exam_sheets (sheet_names wb) in
  let dfs :=
    flat_map
      (fun s => match exam_sub (read_excel wb s) with Some sub => [sub] | None => [] end)
      sheets in
  match dfs with
  | [] => []
  | _ =>
      map (fun kr =>
             {| student_id := fst (fst kr); grade_norm := snd (fst kr);
                score_eng := skipna Qmax (map score_eng (snd kr));
                score_math := skipna Qmax (map score_math (snd kr));
                score_jpn := skipna Qmax (map score_jpn (snd kr)) |})
          (groupby (fun rows => rows)
                   (map (fun r => ((student_id r, grade_norm r), r)) (concat dfs)))
  end.

(** ** Mastery counter *)

Definition _read_kdate_series (df : DataFrame) : option (list (option datetime)) :=
  if mem (u "完全修得日") (columns df)
  then Some (map date (col df (u "完全修得日")))
  else if (10 <? length df)%nat
          && str_eqb (strip (nth 10 (columns df) [])) (u "完全修得日")
       then Some (map date (nth 10 (map snd df) []))
       else None.

Definition notna {A} (x : option A) : bool :=
  match x with
  | Some _ => true
  | None => false
  end.

(** [dates <= cutoff]: a comparison with NaT is false. *)
Definition date_le (d : option datetime) (cutoff : datetime) : bool :=
  match d with
  | Some t => t <=? cutoff
  | None => false
  end.

(** [dates > cutoff] *)
Definition date_gt (d : option datetime) (cutoff : datetime) : bool :=
  match d with
  | Some t => cutoff <? t
  | None => false
  end.

Definition completed_flag (cutoff : option datetime) (d : option datetime) : bool :=
  notna d && match cutoff with
             | Some c => date_le d c
             | None => notna d
             end.

(** The student and completion-date columns of a unit sheet, one pair per
    row, rows without a student number dropped; [None] is [continue]. *)
Definition unit_rows (df : DataFrame) : option (list (Z * option datetime)) :=
  let df := clean_cols df in
  let id_col := find_id_col df in
  match id_col with
  | Some idc =>
      if negb (truthy id_col) then None
      else
        match _read_kdate_series df with
        | None => None
        | Some dates =>
            Some
              (flat_map
                 (fun r =>
                    match r with
                    | (Some i, d) => [(astype_int i, d)]
                    | (None, _) => []
                    end)
                 (combine (map num (col df idc)) dates))
        end
  | None => None
  end.

(** The frame [sub] of [count_mastery] for one sheet. *)
Definition mastery_sub (cutoff : option datetime) (df : DataFrame)
  : option (list (Z * Z)) :=
  match unit_rows df with
  | Some rows =>
      Some
        (groupby max_of
           (map (fun r => (fst r, Z.b2z (completed_flag cutoff (snd r)))) rows))
  | None => None
  end.

(** The list [frames] built for one target. *)
Definition frames_of {R} (sub : DataFrame -> option (list R)) (wb : Workbook)
    (hit_pairs : list (str * str)) (tgt : str) : list (list R) :=
  flat_map
    (fun ts =>
       if negb (str_eqb (fst ts) tgt) then []
       else match sub (read_excel wb (snd ts)) with
            | Some f => [f]
            | None => []
            end)
    hit_pairs.

(** A frame keyed by [student_id] with named value columns; a missing value
    is [None]. *)
Record Frame := {
  cols : list str;
  frows : list (Z * list (option Z))
}.

(** [tgt_df.rename(columns={..: tgt})]: a per-target frame. *)
Definition target_frame (tgt : str) (rows : list (Z * Z)) : Frame :=
  {| cols := [tgt]; frows := map (fun r => (fst r, [Some (snd r)])) rows |}.

Definition nans (n : nat) : list (option Z) := repeat None n.

(** Value columns common to both sides get the suffixes [_x] and [_y]. *)
Definition suffixed (other : list str) (sfx : str) (cs : list str) : list str :=
  map (fun c => if mem c other then c ++ sfx else c) cs.

(** [left.merge(right, on="student_id", how="outer")] *)
Definition merge_outer (left right : Frame) : Frame :=
  {| cols := suffixed (cols right) (u "_x") (cols left)
             ++ suffixed (cols left) (u "_y") (cols right);
     frows :=
       map (fun lr =>
              (fst (fst lr),
               snd (fst lr) ++ match snd lr with
                               | Some vs => vs
                               | None => nans (length (cols right))
                               end))
           (merge_left fst (frows left) (frows right))
       ++ map (fun r => (fst r, nans (length (cols left)) ++ snd r))
              (List.filter
                 (fun r => negb (existsb (fun l => fst l =? fst r) (frows left)))
                 (frows right)) |}.

Fixpoint index_of (c : str) (cs : list str) : option nat :=
  match cs with
  | [] => None
  | d :: cs' => if str_eqb d c then Some O
                else match index_of c cs' with
                     | Some i => Some (S i)
                     | None => None
                     end
  end.

(** The value of column [tgt] in a row after
    [if tgt not in base.columns: base[tgt] = 0] and [.fillna(0).astype(int)]. *)
Definition col_value (base : Frame) (row : Z * list (option Z)) (tgt : str) : Z :=
  match index_of tgt (cols base) with
  | Some i => match nth i (snd row) None with
              | Some v => v
              | None => 0
              end
  | None => 0
  end.

Definition sum_Z (vs : list Z) : Z := fold_right Z.add 0 vs.

(** The tail shared by the two counters: merge the per-target frames and
    sum the target columns of every row. *)
Definition merge_and_sum (target_list : list str) (per_target : list Frame)
  : list (Z * Z) :=
  match per_target with
  | [] => []
  | first :: rest =>
      let base := fold_left merge_outer rest first in
      map (fun row => (fst row, sum_Z (map (col_value base row) target_list)))
          (frows base)
  end.

Definition count_mastery (wb : Workbook) (target_list : list str)
    (cutoff : option datetime) : list (Z * Z) :=
  let hit_pairs := _sheets_for_targets (sheet_names wb) target_list in
  let per_target :=
    map (fun tgt =>
           let frames := frames_of (mastery_sub cutoff) wb hit_pairs tgt in
           let tgt_df :=
             match frames with
             | [] => []
             | _ => groupby max_of (concat frames)
             end in
           target_frame tgt tgt_df)
        target_list in
  merge_and_sum target_list per_target.

(** ** Late completions *)

Definition late_sub (df : DataFrame) : option (list (Z * option datetime)) :=
  match unit_rows df with
  | Some rows => Some (groupby (skipna Z.min) rows)
  | None => None
  end.

Definition count_late_mastery (wb : Workbook) (target_list : list str)
    (cutoff : option datetime) : list (Z * Z) :=
  match cutoff with
  | None => []
  | Some c =>
      let hit_pairs := _sheets_for_targets (sheet_names wb) target_list in
      let per_target :=
        map (fun tgt =>
               let frames := frames_of late_sub wb hit_pairs tgt in
               let tgt_df := concat frames in
               target_frame tgt
                 (map (fun r => (fst r, Z.b2z (date_gt (snd r) c))) tgt_df))
            target_list in
      merge_and_sum target_list per_target
  end.

(** ** The panel *)

(** An input file: [Path(fp).name], [Path(fp).stem] and the workbook at [fp]. *)
Record File := {
  file_name : str;
  file_stem : str;
  workbook : Workbook
}.

Record PanelRow := {
  exam : ExamRow;
  eng_mas : Z;
  math_mas : Z;
  tot_mas : Z;
  yyyymm_or_year : str;
  eng_late : Z;
  math_late : Z
}.

Definition fillna0_int (x : option Z) : Z :=
  match x with
  | Some v => v
  | None => 0
  end.

(** The table [merged] of one file in the loop of [main]. *)
Definition merged_of (f : File) (cutoff : option datetime) : list PanelRow :=
  let wb := workbook f in
  let base := read_exam wb in
  let eng_m := count_mastery wb ENG_TARGETS cutoff in
  let math_m := count_mastery wb MATH_TARGETS cutoff in
  let merged :=
    merge_left (fun r => student_id (fst r))
               (merge_left student_id base eng_m) math_m in
  let eng_late := count_late_mastery wb ENG_TARGETS cutoff in
  let math_late := count_late_mastery wb MATH_TARGETS cutoff in
  let merged :=
    merge_left (fun r => student_id (fst (fst (fst r))))
               (merge_left (fun r => student_id (fst (fst r))) merged eng_late)
               math_late in
  map (fun r =>
         match r with
         | ((((b, em), mm), el), ml) =>
             {| exam := b;
                eng_mas := fillna0_int em;
                math_mas := fillna0_int mm;
                tot_mas := fillna0_int em + fillna0_int mm;
                yyyymm_or_year := file_stem f;
                eng_late := fillna0_int el;
                math_late := fillna0_int ml |}
         end)
      merged.

Record MetaRow := {
  meta_run_ts : str;                 (* 実行時刻 *)
  meta_file : str;                   (* ファイル *)
  meta_key : str;                    (* キー(年/年月) *)
  meta_cutoff : option datetime;     (* cutoff(適用日); None is the empty text *)
  meta_students : Z                  (* 生徒数(一意ID) *)
}.

(** ** Report tables *)

(** [range(lo, hi)] *)
Definition range (lo hi : Z) : list Z :=
  map (fun i => lo + Z.of_nat i) (seq 0 (Z.to_nat (hi - lo))).

(** [pd.MultiIndex.from_product([["高1+2", "高3"], range(0, max_val + 1)])] *)
Definition template (max_val : Z) : list (str * Z) :=
  list_prod [u "高1+2"; u "高3"] (range 0 (max_val + 1)).

Definition Qsum (vs : list Q) : Q := fold_right Qplus 0%Q vs.

Definition mean (vs : list Q) : Q := (Qsum vs / inject_Z (Z.of_nat (length vs)))%Q.

(** [.round(1)]: to one decimal, halves to the even neighbour. *)
Definition round1 (q : Q) : Q :=
  let x := (q * 10)%Q in
  let f := Qfloor x in
  let r := (x - inject_Z f)%Q in
  let n := if Qle_bool r (1 # 2)
           then if Qle_bool (1 # 2) r then (if Z.even f then f else f + 1) else f
           else f + 1 in
  (inject_Z n / 10)%Q.

Record LongRow := {
  long_cohort : str;         (* 学年区分 *)
  long_key : Z;              (* the bucket *)
  long_count : Z;            (* 人数 *)
  long_mean : option Q       (* the mean score; None is a missing value *)
}.

Definition summarize_long (df : list PanelRow) (key : PanelRow -> Z)
    (score_col : PanelRow -> option Q) (max_val : Z) : list LongRow :=
  let g :=
    groupby
      (fun rows : list (Z * Q) => (nunique (map fst rows), mean (map snd rows)))
      (flat_map
         (fun r =>
            match score_col r with
            | Some sc => [((grade_norm (exam r), key r), (student_id (exam r), sc))]
            | None => []         (* dropna(subset=[score_col]) *)
            end)
         df) in
  map (fun tg =>
         {| long_cohort := fst (fst tg);
            long_key := snd (fst tg);
            long_count := match snd tg with Some a => fst a | None => 0 end;
            long_mean := match snd tg with
                         | Some a => Some (round1 (snd a))
                         | None => None
                         end |})
      (merge_left (fun t => t) (template max_val) g).

Record WideTable := {
  wide_cols : list str;                       (* the cohorts that have a column *)
  wide_rows : list (Z * list (option Q))      (* bucket, one value per column *)
}.

(** [pivot_table(index=key, columns=学年区分, values=.., aggfunc="first")]
    with its default [dropna=True]: buckets and cohorts without any mean
    are left out, and the buckets of the index stand in increasing order.
    The columns are then taken in the order of [["高1+2", "高3"]]. *)
Definition summarize_wide (long_df : list LongRow) : WideTable :=
  let entries :=
    flat_map
      (fun r => match long_mean r with
                | Some m => [((long_key r, long_cohort r), m)]
                | None => []
                end)
      long_df in
  let first_of (k : Z) (c : str) : option Q :=
    match group (k, c) entries with
    | m :: _ => Some m
    | [] => None
    end in
  let cs :=
    List.filter (fun c => existsb (fun e => str_eqb (snd (fst e)) c) entries)
                [u "高1+2"; u "高3"] in
  {| wide_cols := cs;
     wide_rows := map (fun k => (k, map (first_of k) cs))
                      (merge_sort Z.le
                         (nodup Z.eq_dec (map (fun e => fst (fst e)) entries))) |}.

Record DistRow := {
  dist_cohort : str;
  dist_key : Z;
  dist_count : Z
}.

Definition summarize_distribution (df : list PanelRow) (key : PanelRow -> Z)
    (max_val : Z) : list DistRow :=
  let g :=
    groupby (fun ids : list Z => nunique ids)
            (map (fun r => ((grade_norm (exam r), key r), student_id (exam r))) df) in
  map (fun tg =>
         {| dist_cohort := fst (fst tg);
            dist_key := snd (fst tg);
            dist_count := fillna0_int (snd tg) |})
      (merge_left (fun t => t) (template max_val) g).

(** ** Main *)

Inductive Sheet :=
| LongSheet (rows : list LongRow)
| WideSheet (t : WideTable)
| DistSheet (rows : list DistRow)
| MetaSheet (rows : list MetaRow).

(** The run on the files of [--file], the overrides of [--cutoff] and the
    time stamp of the run: the sheets of the output workbook in order, each
    with its title, or [None] when nothing is written. *)
Definition main (files : list File) (cutoff_override : gmap str datetime)
    (run_ts : str) : option (list (str * Sheet)) :=
  let per_file :=
    map (fun f =>
           let cutoff := cutoff_for_stem (file_stem f) (Some cutoff_override) in
           let merged := merged_of f cutoff in
           (merged,
            {| meta_run_ts := run_ts;
               meta_file := file_name f;
               meta_key := file_stem f;
               meta_cutoff := cutoff;
               meta_students := nunique (map (fun r => student_id (exam r)) merged) |}))
        files in
  let records := map fst per_file in
  let meta_rows := map snd per_file in
  match records with
  | [] => None
  | _ =>
      let panel := concat records in
      let t_eng := summarize_long panel eng_mas (fun r => score_eng (exam r)) 6 in
      let t_math := summarize_long panel math_mas (fun r => score_math (exam r)) 6 in
      let t_jpn := summarize_long panel tot_mas (fun r => score_jpn (exam r)) 12 in
      let w_eng := summarize_wide t_eng in
      let w_math := summarize_wide t_math in
      let w_jpn := summarize_wide t_jpn in
      let ref_eng := summarize_distribution panel eng_late 6 in
      let ref_math := summarize_distribution panel math_late 6 in
      Some
        [ (u "英語マスター×平均英語（長）", LongSheet t_eng);
          (u "数学マスター×平均数学（長）", LongSheet t_math);
          (u "英数合計×平均国語（長）", LongSheet t_jpn);
          (u "棒グラフ用_英語（横）", WideSheet w_eng);
          (u "棒グラフ用_数学（横）", WideSheet w_math);
          (u "棒グラフ用_国語（横）", WideSheet w_jpn);
          (u "参考_英語 締切超過数の分布", DistSheet ref_eng);
          (u "参考_数学 締切超過数の分布", DistSheet ref_math);
          (u "集計メタデータ", MetaSheet meta_rows) ]
  end.

End Text.

(** * Meaning of patterns and statements of the behaviour *)

Section Meaning.
Context {U : Unicode}.

(** [matches r p p']: [r] matches the text between positions [p] and [p']. *)
Fixpoint matches (r : regex) (p p' : pos) : Prop :=
  match r with
  | Eps => p' = p
  | Atom a =>
      exists c, snd p = c :: snd p' /\ fst p' = c :: fst p /\ cset_mem a c = true
  | Star a =>
      exists w, snd p = w ++ snd p' /\ fst p' = rev w ++ fst p
                /\ forallb (cset_mem a) w = true
  | Cat r1 r2 => exists q, matches r1 p q /\ matches r2 q p'
  | Alt r1 r2 => matches r1 p p' \/ matches r2 p p'
  | Bol => fst p = [] /\ p' = p
  | Eol => (snd p = [] \/ snd p = [10%N]) /\ p' = p
  | WordB => xorb (word_at (fst p)) (word_at (snd p)) = true /\ p' = p
  end.

(** ** Runs of digits in a file-name stem *)

(** [g] is a run of [n] decimal digits of [s], standing after [pre]. *)
Definition digit_run (n : nat) (s pre g : str) : Prop :=
  exists post, s = pre ++ g ++ post /\ length g = n /\ forallb isdecimal g = true.

(** The leftmost run of [n] digits of [s]: the one a search finds. *)
Definition first_digit_run (n : nat) (s g : str) : Prop :=
  exists pre, digit_run n s pre g /\
    forall pre' g', digit_run n s pre' g' -> (length pre <= length pre')%nat.

Definition no_digit_run (n : nat) (s : str) : Prop :=
  forall pre g, ~ digit_run n s pre g.

(** ** Grade-3 markers *)

(** A word boundary, between the text [before] (last character first) and
    the text [after]: a word character on exactly one side. *)
Definition word_boundary (before after : str) : Prop :=
  xorb (word_at before) (word_at after) = true.

(** The text holds a grade-3 marker: 高 and 3 with at most white space
    between them, or 3年, or a 3 that stands as a word of its own. *)
Definition grade3_marker (s : str) : Prop :=
  (exists pre ws post,
      s = pre ++ [0x9AD8%N] ++ ws ++ [51%N] ++ post /\ forallb isspace ws = true)
  \/ (exists pre post, s = pre ++ [51%N; 0x5E74%N] ++ post)
  \/ (exists pre post,
         s = pre ++ [51%N] ++ post
         /\ word_boundary (rev pre) (51%N :: post)
         /\ word_boundary (51%N :: rev pre) post).

(** ** Sheet names *)

(** The text [tail] is the name [t] up to the case of its letters. *)
Definition same_ignoring_case (t tail : str) : Prop :=
  Forall2 (fun c d => ci_eq c d = true) t tail.

(** The sheet name [s], white space ignored, is a year of four digits, then
    any text, then at its end the unit name [t], white space and case
    ignored. *)
Definition sheet_name_matches (t s : str) : Prop :=
  exists year mid tail,
    norm s = year ++ mid ++ tail
    /\ length year = 4%nat /\ forallb isdecimal year = true
    /\ same_ignoring_case (norm t) tail.

(** The same with the year left optional. *)
Definition sheet_name_matches_optional_year (t s : str) : Prop :=
  exists year mid tail,
    norm s = year ++ mid ++ tail
    /\ (year = [] \/ (length year = 4%nat /\ forallb isdecimal year = true))
    /\ same_ignoring_case (norm t) tail.

(** [t] is the first target of the list whose pattern the sheet name matches. *)
Definition first_matching_target (target_list : list str) (s t : str) : Prop :=
  exists l1 l2,
    target_list = l1 ++ t :: l2
    /\ sheet_name_matches t s
    /\ forall t', In t' l1 -> ~ sheet_name_matches t' s.

End Meaning.


(** ** Rows of an exam-results sheet *)

Section ExamRows.
Context {U : Unicode}.

(** The cell of column [c] in row [n] of a sheet. *)
Definition cell_at (df : DataFrame) (c : str) (n : nat) : option cell :=
  nth_error (col df c) n.

(** The math score of row [n]: with both sub-columns in the sheet, the sum
    of the two marks, a mark that is no number counting 0; without one of
    them, a missing value. *)
Definition math_score_of_row (df : DataFrame) (n : nat) (r : ExamRow) : Prop :=
  match next (contains (u "数学Ⅰ・数学A")) (columns df),
        next (contains (u "数学Ⅱ・数学B・数学C")) (columns df) with
  | Some m1, Some m2 =>
      exists c1 c2,
        cell_at df m1 n = Some c1 /\ cell_at df m2 n = Some c2
        /\ score_math r = Some (fillna0 (num c1) + fillna0 (num c2))%Q
  | _, _ => score_math r = None
  end.

(** The Japanese score of row [n]: the mark read as a number, missing when
    it is no number or the sheet has no such column. *)
Definition jpn_score_of_row (df : DataFrame) (n : nat) (r : ExamRow) : Prop :=
  match next (contains (u "国語(現古漢)")) (columns df) with
  | Some j => exists cj, cell_at df j n = Some cj /\ score_jpn r = num cj
  | None => score_jpn r = None
  end.

(** [r] is what row [n] of the sheet gives. *)
Definition extracted_from_row (df : DataFrame) (n : nat) (r : ExamRow) : Prop :=
  (exists idc ci q,
      find_id_col df = Some idc /\ cell_at df idc n = Some ci
      /\ num ci = Some q /\ student_id r = astype_int q)
  /\ (exists gc cg,
         next (contains (u "学年")) (columns df) = Some gc
         /\ cell_at df gc n = Some cg
         /\ grade_norm r = normalize_grade_val (text cg))
  /\ (exists ce, cell_at df (u "英語") n = Some ce /\ score_eng r = num ce)
  /\ math_score_of_row df n r
  /\ jpn_score_of_row df n r.

End ExamRows.

(** ** Mastery of a unit *)

Section MasteryMeaning.
Context {U : Unicode}.

(** The rows, student and completion date, of all the sheets that the sheet
    matcher pairs with the unit [tgt]. *)
Definition unit_sheet_rows (wb : Workbook) (target_list : list str) (tgt : str)
  : list (Z * option datetime) :=
  concat (frames_of unit_rows wb
            (_sheets_for_targets (sheet_names wb) target_list) tgt).

(** A row is completed: its date is present and, when there is a cutoff,
    not after it. *)
Definition row_completed (cutoff : option datetime) (d : option datetime) : bool :=
  match d with
  | Some t => match cutoff with
              | None => true
              | Some c => t <=? c
              end
  | None => false
  end.

(** The flag of a student for a unit: 1 when some row of the student in some
    sheet of the unit is completed (the logical OR over duplicate rows and
    sheets), 0 otherwise, also when the unit has no row of the student. *)
Definition unit_flag (wb : Workbook) (target_list : list str)
    (cutoff : option datetime) (tgt : str) (sid : Z) : Z :=
  Z.b2z (existsb (fun r => (fst r =? sid) && row_completed cutoff (snd r))
                 (unit_sheet_rows wb target_list tgt)).

(** The mastery count of a student: the sum of the flags over the catalog. *)
Definition mastery_count_of (wb : Workbook) (target_list : list str)
    (cutoff : option datetime) (sid : Z) : Z :=
  sum_Z (map (fun tgt => unit_flag wb target_list cutoff tgt sid) target_list).

(** The table [tgt_df] of [count_mastery] for one target. *)
Definition mastery_table (wb : Workbook) (target_list : list str)
    (cutoff : option datetime) (tgt : str) : list (Z * Z) :=
  let frames :=
    frames_of (mastery_sub cutoff) wb
      (_sheets_for_targets (sheet_names wb) target_list) tgt in
  match frames with
  | [] => []
  | _ => groupby max_of (concat frames)
  end.

End MasteryMeaning.

(** ** Late completion of a unit *)

Section LateMeaning.
Context {U : Unicode}.

(** The earliest completion date of a student over all the rows of all the
    sheets of a unit; missing when the student has no date there. *)
Definition earliest_completion (wb : Workbook) (target_list : list str)
    (tgt : str) (sid : Z) : option datetime :=
  skipna Z.min (group sid (unit_sheet_rows wb target_list tgt)).

(** Late for a unit: the earliest completion date is after the cutoff. *)
Definition late_flag (wb : Workbook) (target_list : list str)
    (cutoff : datetime) (tgt : str) (sid : Z) : Z :=
  Z.b2z (date_gt (earliest_completion wb target_list tgt sid) cutoff).

(** The late count of a student: the sum of the late flags over the catalog. *)
Definition late_count_of (wb : Workbook) (target_list : list str)
    (cutoff : datetime) (sid : Z) : Z :=
  sum_Z (map (fun tgt => late_flag wb target_list cutoff tgt sid) target_list).

End LateMeaning.

(** A flag: 0 or 1. *)
Definition is_flag (v : Z) : Prop := v = 0 \/ v = 1.

(** ** Merged frames *)

(** The value that a table with one row per student holds for a student. *)
Definition lookup_row (k : Z) (tbl : list (Z * Z)) : option Z :=
  match group k tbl with
  | v :: _ => Some v
  | [] => None
  end.

(** The frame [base] is the outer join of the named tables [fs]: their names
    are its columns, it has one row for each student of any of the tables,
    and a row holds, for each table, the value of the student there or a
    missing value. *)
Definition joined (fs : list (str * list (Z * Z))) (base : Frame) : Prop :=
  cols base = map fst fs
  /\ NoDup (map fst (frows base))
  /\ (forall k, In k (map fst (frows base)) <->
                exists f, In f fs /\ In k (map fst (snd f)))
  /\ (forall row, In row (frows base) ->
                  snd row = map (fun f => lookup_row (fst row) (snd f)) fs).

(** ** The output workbook *)

Inductive SheetKind := LongKind | WideKind | DistKind | MetaKind.

Definition kind_of (s : Sheet) : SheetKind :=
  match s with
  | LongSheet _ => LongKind
  | WideSheet _ => WideKind
  | DistSheet _ => DistKind
  | MetaSheet _ => MetaKind
  end.

Definition SHEET_TITLES : list str :=
  [ u "英語マスター×平均英語（長）"; u "数学マスター×平均数学（長）";
    u "英数合計×平均国語（長）";
    u "棒グラフ用_英語（横）"; u "棒グラフ用_数学（横）"; u "棒グラフ用_国語（横）";
    u "参考_英語 締切超過数の分布"; u "参考_数学 締切超過数の分布";
    u "集計メタデータ" ].

Definition SHEET_KINDS : list SheetKind :=
  [ LongKind; LongKind; LongKind; WideKind; WideKind; WideKind;
    DistKind; DistKind; MetaKind ].

(** The run-metadata table: for each file the time stamp of the run, the
    file name, the key, the resolved cutoff and the number of distinct
    students of its exam-results sheets. *)
Definition metadata_table {U : Unicode} (files : list File)
    (cutoff_override : gmap str datetime) (run_ts : str) : list MetaRow :=
  map (fun f =>
         {| meta_run_ts := run_ts;
            meta_file := file_name f;
            meta_key := file_stem f;
            meta_cutoff := cutoff_for_stem (file_stem f) (Some cutoff_override);
            meta_students := nunique (map student_id (read_exam (workbook f))) |})
      files.

(** ** A small workbook to run the script on *)

Module Sample.

(** Cells: of a reading the script does not take of a column, [None]. *)
Definition blank : cell := {| num := None; date := None; text := u "nan" |}.
Definition number (n : Z) (txt : string) : cell :=
  {| num := Some (inject_Z n); date := None; text := u txt |}.
Definition words (txt : string) : cell :=
  {| num := None; date := None; text := u txt |}.
Definition day (y m d : Z) : cell :=
  {| num := None; date := Some (mk_datetime y m d); text := [] |}.

(** Student 1 (grade 3) has no math marks, student 2 no Japanese mark. *)
Definition results : DataFrame :=
  [ (u "生徒番号", [number 1 "1"; number 2 "2"]);
    (u "学年", [words "３年"; number 1 "1"]);
    (u "英語", [number 50 "50"; number 80 "80"]);
    (u "数学Ⅰ・数学A", [blank; number 30 "30"]);
    (u "数学Ⅱ・数学B・数学C", [words "欠席"; number 40 "40"]);
    (u "国語(現古漢)", [number 60 "60"; blank]) ].

(** Student 1 completed the unit on 2025-01-10; student 3 is in no results
    sheet. *)
Definition unit_first : DataFrame :=
  [ (u "生徒番号", [number 1 "1"; number 3 "3"]);
    (u "完全修得日", [day 2025 1 10; day 2025 1 5]) ].

(** A second sheet of the same unit: student 1 again, on 2025-02-01. *)
Definition unit_second : DataFrame :=
  [ (u "生徒番号", [number 1 "1"]);
    (u "完全修得日", [day 2025 2 1]) ].

Definition wb : Workbook :=
  [ (u "202410合同共テ結果", results);
    (u "2024英単語1800", unit_first);
    (u "2024再 英単語1800", unit_second) ].

Definition file : File :=
  {| file_name := u "202410結果.xlsx"; file_stem := u "202410結果"; workbook := wb |}.

Definition cutoff : datetime := mk_datetime 2025 1 18.

Definition run_ts : str := u "2025-09-30 10:06:35".

(** The rows of the panel that the file gives for student 1 under the
    cutoff: the late count of the second comes from the second unit sheet. *)
Definition exam_row_1 : ExamRow :=
  {| student_id := 1; grade_norm := u "高3"; score_eng := Some 50%Q;
     score_math := Some 0%Q; score_jpn := Some 60%Q |}.

Definition exam_row_2 : ExamRow :=
  {| student_id := 2; grade_norm := u "高1+2"; score_eng := Some 80%Q;
     score_math := Some 70%Q; score_jpn := None |}.

Definition panel_row_1 : PanelRow :=
  {| exam := exam_row_1; eng_mas := 1; math_mas := 0; tot_mas := 1;
     yyyymm_or_year := u "202410結果"; eng_late := 0; math_late := 0 |}.

End Sample.

(** * The rest of the script *)

(** ** Styling of a sheet *)

(** A worksheet as [ws.iter_rows()] walks it: rows of cells, a cell being
    empty ([cell.value is None]) or holding the text [str(cell.value)]; the
    cells of a row stand in the columns 1, 2, ... *)
Abbreviation Worksheet := (list (list (option (list N)))) (only parsing).

(** The cells of a row with the numbers of their columns. *)
Definition numbered (row : list (option str)) : list (Z * option str) :=
  combine (map Z.of_nat (seq 1 (length row))) row.

(** The dictionary [dims] of [autosize_and_style]: for each column with a
    value, the greatest length of a value. *)
Definition autosize_dims (ws : Worksheet) : gmap Z Z :=
  fold_left
    (fun dims row =>
       fold_left
         (fun dims cell =>
            match snd cell with
            | None => dims
            | Some v =>
                <[ fst cell :=
                     Z.max (match dims !! fst cell with Some w => w | None => 0 end)
                           (Z.of_nat (length v)) ]> dims
            end)
         (numbered row) dims)
    ws ∅.

Record Styled := {
  column_widths : gmap Z Z;   (* ws.column_dimensions[..].width, by column number *)
  bold_row : Z;               (* the row whose cells get a bold font *)
  freeze_panes : str
}.

Definition autosize_and_style (ws : Worksheet) (header_row_idx : Z) : Styled :=
  {| column_widths := (fun w => Z.min (w + 2) 28) <$> autosize_dims ws;
     bold_row := header_row_idx;
     freeze_panes := u "A2" |}.

(** The values of column [c], from the first row to the last. *)
Definition column_values (ws : Worksheet) (c : Z) : list str :=
  flat_map
    (fun row =>
       flat_map (fun cell => if fst cell =? c
                             then match snd cell with Some v => [v] | None => [] end
                             else [])
                (numbered row))
    ws.

(** ** The overrides of the command line *)

(** [pair.split(":", 1)] unpacked into two names: the text before the first
    colon and the text after it; [None] when there is no colon (the
    unpacking raises). *)
Fixpoint split_colon (pair : str) : option (str * str) :=
  match pair with
  | [] => None
  | c :: rest =>
      if (c =? 58)%N then Some ([], rest)
      else match split_colon rest with
           | Some kd => Some (c :: fst kd, snd kd)
           | None => None
           end
  end.

Section CutoffArguments.

(** [datetime.fromisoformat]; [None] when it raises. *)
Variable fromisoformat : str -> option datetime.

(** The loop of [main] over [args.cutoff]; [None] when a step raises. *)
Definition cutoff_override_of (args : list str) : option (gmap str datetime) :=
  fold_left
    (fun acc pair =>
       match acc with
       | None => None
       | Some m =>
           match split_colon pair with
           | None => None
           | Some kd =>
               match fromisoformat (snd kd) with
               | None => None
               | Some d => Some (<[ fst kd := d ]> m)
               end
           end
       end)
    args (Some ∅).

(** The key and the date of one argument. *)
Definition cutoff_argument (pair : str) : option (str * datetime) :=
  match split_colon pair with
  | None => None
  | Some kd =>
      match fromisoformat (snd kd) with
      | None => None
      | Some d => Some (fst kd, d)
      end
  end.

(** The keys and dates of the arguments, when each of them has both. *)
Fixpoint parsed_arguments (args : list (list N)) : option (list (list N * Z)) :=
  match args with
  | [] => Some []
  | arg :: rest =>
      match cutoff_argument arg, parsed_arguments rest with
      | Some kd, Some l => Some (kd :: l)
      | _, _ => None
      end
  end.

End CutoffArguments.

(** ** Trimmed texts *)

Section Trimmed.
Context {U : Unicode}.

(** A text without white space at its ends. *)
Definition trimmed (s : str) : Prop := lstrip s = s /\ lstrip (rev s) = rev s.

End Trimmed.

(** ** The rows behind an exam table *)

Section ExamTable.
Context {U : Unicode}.

(** All the rows read from the exam-results sheets of a workbook, sheet
    after sheet. *)
Definition exam_rows_of (wb : Workbook) : list ExamRow :=
  concat
    (flat_map
       (fun s => match exam_sub (read_excel wb s) with
                 | Some sub => [sub]
                 | None => []
                 end)
       (pick_exam_sheets (sheet_names wb))).

(** The rows of one student in one cohort. *)
Definition rows_of_student (rows : list ExamRow) (sid : Z) (grade : str)
  : list ExamRow :=
  List.filter (fun x => bool_decide ((student_id x, grade_norm x) = (sid, grade))) rows.

(** [o] is the best of the scores [vs]: the greatest of those present, one
    of them, or a missing value when none is present. *)
Definition best_score (vs : list (option Q)) (o : option Q) : Prop :=
  match o with
  | Some q => In (Some q) vs /\ forall q', In (Some q') vs -> (q' <= q)%Q
  | None => forall v, In v vs -> v = None
  end.

End ExamTable.

(** ** Frames of flags *)

(** Every value of the frame is a flag or is missing. *)
Definition flag_frame (fr : Frame) : Prop :=
  forall row v, In row (frows fr) -> In v (snd row) ->
                v = None \/ exists z, v = Some z /\ is_flag z.


(** ** A workbook with one sheet of the unit *)

Module SingleSheet.

Definition wb : Workbook :=
  [ (u "202410合同共テ結果", Sample.results);
    (u "2024英単語1800", Sample.unit_first) ].

Definition file : File :=
  {| file_name := u "202410結果.xlsx"; file_stem := u "202410結果"; workbook := wb |}.

End SingleSheet.

(** ** The order of cutoffs *)

(** A cutoff is at most another: the second is absent, or both are dates and
    the first is not after the second. *)
Definition cutoff_le (c1 c2 : option datetime) : Prop :=
  match c2 with
  | None => True
  | Some t2 => match c1 with
               | Some t1 => t1 <= t2
               | None => False
               end
  end.


(** ** The cells of the summary tables *)

(** The panel rows of a cell: those of the cohort with the key in the
    bucket. *)
Definition cell_rows (df : list PanelRow) (key : PanelRow -> Z) (c : str) (b : Z)
  : list PanelRow :=
  List.filter (fun p => bool_decide ((grade_norm (exam p), key p) = (c, b))) df.

(** The rows among [rows] that have a score. *)
Definition scored_rows (score_col : PanelRow -> option Q) (rows : list PanelRow)
  : list PanelRow :=
  List.filter (fun p => notna (score_col p)) rows.

(** ** The widths of the columns *)

(** The length of the longest of the texts, 0 when there is none. *)
Definition longest (vs : list str) : Z :=
  fold_left (fun m v => Z.max m (Z.of_nat (length v))) vs 0.

(** What [dims] holds for a column with the values [vs]: nothing when there
    is no value. *)
Definition dims_value (vs : list str) : option Z :=
  match vs with
  | [] => None
  | _ => Some (longest vs)
  end.

(** ** The cells of a wide table *)

(** The means that the rows of a long table have for a bucket and a cohort,
    in the order of the rows. *)
Definition cell_means (long_df : list LongRow) (k : Z) (c : str) : list Q :=
  flat_map
    (fun r => if bool_decide ((long_key r, long_cohort r) = (k, c))
              then match long_mean r with Some m => [m] | None => [] end
              else [])
    long_df.
(** * Properties *)

Section Matching.
Context {U : Unicode}.

(** ** The matcher against the meaning of a pattern *)

Lemma star_run_spec a after : forall before p',
  In p' (star_run a before after) <->
  exists w, after = w ++ snd p' /\ fst p' = rev w ++ before
            /\ forallb (cset_mem a) w = true.
Proof.
  induction after as [|c after IH]; intros before [b' a']; simpl.
  - split.
    + intros [E|[]]. inversion E; subst. exists []. auto.
    + intros (w & E & Eb & _). destruct w; [|discriminate].
      simpl in *. subst. auto.
  - destruct (cset_mem a c) eqn:Hc.
    + rewrite in_app_iff, IH. simpl. split.
      * intros [(w & E & Eb & Hw)|[E|[]]].
        -- exists (c :: w). simpl. rewrite Hc, Hw, <- app_assoc, E. auto.
        -- inversion E; subst. exists []. auto.
      * intros (w & E & Eb & Hw). destruct w as [|d w]; simpl in *.
        -- right. left. subst. reflexivity.
        -- left. inversion E; subst. apply andb_true_iff in Hw as [_ Hw].
           exists w. rewrite <- app_assoc. auto.
    + simpl. split.
      * intros [E|[]]. inversion E; subst. exists []. auto.
      * intros (w & E & Eb & Hw). destruct w as [|d w]; simpl in *.
        -- left. subst. reflexivity.
        -- inversion E; subst. rewrite Hc in Hw. discriminate.
Qed.

Lemma run_spec r : forall p p', In p' (run r p) <-> matches r p p'.
Proof.
  induction r; intros [b s] [b' s']; simpl.
  - split; [intros [E|[]]; auto | intros E; left; auto].
  - destruct s as [|c s]; simpl.
    + split; [intros [] | intros (c & E & _); discriminate].
    + destruct (cset_mem a c) eqn:Hc; simpl.
      * split.
        -- intros [E|[]]. inversion E; subst. exists c. auto.
        -- intros (d & E & Eb & Hd). inversion E; subst. auto.
      * split; [intros [] |].
        intros (d & E & Eb & Hd). inversion E; subst. congruence.
  - apply star_run_spec.
  - rewrite in_flat_map. split.
    + intros (q & H1 & H2). exists q. rewrite <- IHr1, <- IHr2. auto.
    + intros (q & H1 & H2). exists q. rewrite IHr1, IHr2. auto.
  - rewrite in_app_iff, IHr1, IHr2. reflexivity.
  - destruct b; simpl.
    + split; [intros [E|[]]; auto | intros [_ E]; auto].
    + split; [intros [] | intros [E _]; discriminate].
  - destruct s as [|c [|d s]]; simpl.
    + split; [intros [E|[]]; auto | intros [_ E]; auto].
    + destruct (N.eqb_spec c 10); simpl.
      * subst. split; [intros [E|[]]; auto | intros [_ E]; auto].
      * split; [intros [] | intros [[E|E] _]; [discriminate | congruence]].
    + split; [intros [] | intros [[E|E] _]; discriminate].
  - destruct (xorb (word_at b) (word_at s)); simpl.
    + split; [intros [E|[]]; auto | intros [_ E]; auto].
    + split; [intros [] | intros [E _]; discriminate].
Qed.

(** A match only moves forward: the text it consumes goes, reversed, in
    front of what was before. *)
Lemma matches_consumes r : forall p p',
  matches r p p' ->
  exists w, snd p = w ++ snd p' /\ fst p' = rev w ++ fst p.
Proof.
  induction r; simpl; intros p p' H.
  - subst. exists []. auto.
  - destruct H as (c & E & Eb & _). exists [c]. auto.
  - destruct H as (w & E & Eb & _). exists w. auto.
  - destruct H as (q & H1 & H2).
    destruct (IHr1 _ _ H1) as (w1 & E1 & B1).
    destruct (IHr2 _ _ H2) as (w2 & E2 & B2).
    exists (w1 ++ w2). rewrite E1, E2, B2, B1, rev_app_distr, !app_assoc. auto.
  - destruct H as [H|H]; eauto.
  - destruct H as [_ ->]. exists []. auto.
  - destruct H as [_ ->]. exists []. auto.
  - destruct H as [_ ->]. exists []. auto.
Qed.

Lemma re_match_spec r s :
  re_match r s = true <-> exists p', matches r ([], s) p'.
Proof.
  unfold re_match. destruct (run r ([], s)) as [|q l] eqn:E.
  - split; [discriminate|]. intros [p' H]. apply run_spec in H.
    rewrite E in H. destruct H.
  - split; [|reflexivity]. intros _. exists q. apply run_spec. rewrite E. left; auto.
Qed.

End Matching.

Section Searching.
Context {U : Unicode}.

Lemma matches_Rep n a : forall p p',
  matches (Rep n a) p p' <->
  exists g, snd p = g ++ snd p' /\ fst p' = rev g ++ fst p
            /\ length g = n /\ forallb (cset_mem a) g = true.
Proof.
  induction n as [|n IH]; intros [b s] [b' s']; simpl.
  - split.
    + intros E. inversion E; subst. exists []. auto.
    + intros (g & E & Eb & Hl & _). destruct g; [|discriminate]. simpl in *.
      subst. reflexivity.
  - split.
    + intros ([qb qs] & (c & E & Eb & Hc) & H). simpl in *. subst.
      apply IH in H as (g & E & Eb & Hl & Hg). simpl in *. subst.
      exists (c :: g). simpl. rewrite Hc, Hg, <- app_assoc. auto.
    + intros (g & E & Eb & Hl & Hg). destruct g as [|c g]; [discriminate|].
      simpl in *. apply andb_true_iff in Hg as [Hc Hg]. subst.
      exists (c :: b, g ++ s'). split.
      * exists c. auto.
      * apply IH. exists g. simpl. rewrite <- app_assoc. auto.
Qed.

Lemma matches_Lits lit t : forall p p',
  matches (Lits lit t) p p' <->
  exists g, snd p = g ++ snd p' /\ fst p' = rev g ++ fst p
            /\ Forall2 (fun c d => cset_mem (lit c) d = true) t g.
Proof.
  induction t as [|c t IH]; intros [b s] [b' s']; simpl.
  - split.
    + intros E. inversion E; subst. exists []. auto.
    + intros (g & E & Eb & Hg). inversion Hg; subst. reflexivity.
  - split.
    + intros ([qb qs] & (d & E & Eb & Hd) & H). simpl in *. subst.
      apply IH in H as (g & E & Eb & Hg). simpl in *. subst.
      exists (d :: g). simpl. rewrite <- app_assoc. auto.
    + intros (g & E & Eb & Hg). inversion Hg as [|c' d t' g' Hd Hg']; subst.
      simpl in *. subst.
      exists (d :: b, g' ++ s'). split.
      * exists d. auto.
      * apply IH. exists g'. simpl. rewrite <- app_assoc. auto.
Qed.

Lemma search_from_eq r before after :
  search_from r before after =
  match run r (before, after) with
  | p' :: _ => Some (firstn (length after - length (snd p')) after)
  | [] => match after with
          | [] => None
          | c :: after' => search_from r (c :: before) after'
          end
  end.
Proof. destruct after; reflexivity. Qed.

Lemma search_from_None r after : forall before,
  search_from r before after = None <->
  forall a1 a2, after = a1 ++ a2 -> run r (rev a1 ++ before, a2) = [].
Proof.
  induction after as [|c after IH]; intros before; rewrite search_from_eq.
  - destruct (run r (before, _)) as [|q l] eqn:E.
    + split; [|reflexivity]. intros _ a1 a2 H.
      symmetry in H. apply app_eq_nil in H as [-> ->]. exact E.
    + split; [discriminate|]. intros H. specialize (H [] [] eq_refl).
      simpl in H. congruence.
  - destruct (run r (before, _)) as [|q l] eqn:E.
    + rewrite IH. split.
      * intros H a1 a2 Ha. destruct a1 as [|d a1]; simpl in *.
        -- subst. exact E.
        -- inversion Ha; subst. rewrite <- app_assoc. apply H. reflexivity.
      * intros H a1 a2 Ha. specialize (H (c :: a1) a2). simpl in H.
        rewrite <- app_assoc in H. apply H. rewrite Ha. reflexivity.
    + split; [discriminate|]. intros H. specialize (H [] (c :: after) eq_refl).
      simpl in H. congruence.
Qed.

Lemma search_from_Some r after : forall before g,
  search_from r before after = Some g <->
  exists a1 a2 p' l,
    after = a1 ++ a2 /\ run r (rev a1 ++ before, a2) = p' :: l
    /\ g = firstn (length a2 - length (snd p')) a2
    /\ forall b1 b2, after = b1 ++ b2 -> (length b1 < length a1)%nat ->
                     run r (rev b1 ++ before, b2) = [].
Proof.
  induction after as [|c after IH]; intros before g; rewrite search_from_eq.
  - destruct (run r (before, _)) as [|q l] eqn:E.
    + split; [discriminate|]. intros (a1 & a2 & p' & l & Ha & Hr & _).
      symmetry in Ha. apply app_eq_nil in Ha as [-> ->]. simpl in Hr. congruence.
    + split.
      * intros H. inversion H; subst. exists [], [], q, l. simpl.
        repeat split; auto. intros; lia.
      * intros (a1 & a2 & p' & l' & Ha & Hr & Hg & _).
        symmetry in Ha. apply app_eq_nil in Ha as [-> ->]. simpl in *.
        rewrite E in Hr. inversion Hr; subst. reflexivity.
  - destruct (run r (before, _)) as [|q l] eqn:E.
    + rewrite IH. split.
      * intros (a1 & a2 & p' & l & Ha & Hr & Hg & Hmin).
        exists (c :: a1), a2, p', l. simpl. rewrite <- app_assoc. subst.
        repeat split; auto.
        intros b1 b2 Hb Hlt. destruct b1 as [|d b1]; simpl in *.
        -- subst. exact E.
        -- inversion Hb; subst. rewrite <- app_assoc. apply Hmin; [auto|lia].
      * intros (a1 & a2 & p' & l & Ha & Hr & Hg & Hmin).
        destruct a1 as [|d a1]; simpl in *.
        -- subst. congruence.
        -- inversion Ha; subst. rewrite <- app_assoc in Hr.
           exists a1, a2, p', l. repeat split; auto.
           intros b1 b2 Hb Hlt. specialize (Hmin (d :: b1) b2). simpl in Hmin.
           rewrite <- app_assoc in Hmin. apply Hmin; [rewrite Hb; auto|lia].
    + split.
      * intros H. inversion H; subst. exists [], (c :: after), q, l. simpl.
        repeat split; auto. intros; lia.
      * intros (a1 & a2 & p' & l' & Ha & Hr & Hg & Hmin).
        destruct a1 as [|d a1]; simpl in *.
        -- subst. rewrite E in Hr. inversion Hr; subst. reflexivity.
        -- specialize (Hmin [] (c :: after) eq_refl). simpl in Hmin.
           rewrite E in Hmin. discriminate Hmin. lia.
Qed.

Lemma run_Rep_digits n b s :
  run (Rep n CDigit) (b, s) <> [] <->
  exists g post, s = g ++ post /\ length g = n /\ forallb isdecimal g = true.
Proof.
  split.
  - intros H. destruct (run (Rep n CDigit) (b, s)) as [|q l] eqn:E; [congruence|].
    assert (Hq : In q (run (Rep n CDigit) (b, s))) by (rewrite E; left; auto).
    apply run_spec, matches_Rep in Hq as (g & Es & _ & Hl & Hg).
    exists g, (snd q). auto.
  - intros (g & post & Es & Hl & Hg) E.
    assert (Hq : In (rev g ++ b, post) (run (Rep n CDigit) (b, s))).
    { apply run_spec, matches_Rep. exists g. auto. }
    rewrite E in Hq. destruct Hq.
Qed.

Lemma re_search_digits_None n s :
  re_search (Rep n CDigit) s = None <-> no_digit_run n s.
Proof.
  unfold re_search. rewrite search_from_None. split.
  - intros H pre g (post & Es & Hl & Hg).
    specialize (H pre (g ++ post) Es).
    assert (N : run (Rep n CDigit) (rev pre ++ [], g ++ post) <> []).
    { apply run_Rep_digits. eauto. }
    contradiction.
  - intros H a1 a2 Ha.
    destruct (run (Rep n CDigit) (rev a1 ++ [], a2)) as [|q l] eqn:E; [reflexivity|].
    exfalso.
    assert (N : run (Rep n CDigit) (rev a1 ++ [], a2) <> []) by congruence.
    apply run_Rep_digits in N as (g & post & Es & Hl & Hg).
    apply (H a1 g). exists post. subst. auto.
Qed.

Lemma firstn_of_app (w rest : list N) :
  firstn (length (w ++ rest) - length rest) (w ++ rest) = w.
Proof.
  rewrite length_app.
  replace (length w + length rest - length rest)%nat with (length w + 0)%nat by lia.
  rewrite firstn_app_2. simpl. apply app_nil_r.
Qed.

Lemma app_same_length (g w x y : list N) :
  g ++ x = w ++ y -> length g = length w -> g = w.
Proof.
  revert w. induction g as [|c g IH]; intros [|d w] E L; simpl in *;
    try discriminate; auto.
  inversion E; subst. f_equal. apply IH; auto.
Qed.

Lemma re_search_digits_Some n s g :
  re_search (Rep n CDigit) s = Some g <-> first_digit_run n s g.
Proof.
  unfold re_search. rewrite search_from_Some. split.
  - intros (a1 & a2 & p' & l & Ha & Hr & Hg & Hmin).
    assert (Hq : In p' (run (Rep n CDigit) (rev a1 ++ [], a2)))
      by (rewrite Hr; left; auto).
    apply run_spec, matches_Rep in Hq as (w & Es & _ & Hl & Hw). simpl in Es.
    assert (Eg : g = w).
    { rewrite Hg. pattern a2 at 1 2. rewrite Es. apply firstn_of_app. }
    clear Hg. rewrite <- Eg in *. clear Eg w.
    exists a1. split.
    + exists (snd p'). rewrite Ha. rewrite <- Es. auto.
    + intros pre' g' (post' & Es' & Hl' & Hg').
      destruct (Nat.le_gt_cases (length a1) (length pre')) as [|Hlt]; [assumption|].
      exfalso.
      assert (N : run (Rep n CDigit) (rev pre' ++ [], g' ++ post') <> []).
      { apply run_Rep_digits. eauto. }
      apply N, Hmin; [congruence | assumption].
  - intros (pre & (post & Es & Hl & Hg) & Hmin).
    assert (Hq : In (rev g ++ rev pre ++ [], post)
                    (run (Rep n CDigit) (rev pre ++ [], g ++ post))).
    { apply run_spec, matches_Rep. exists g. auto. }
    destruct (run (Rep n CDigit) (rev pre ++ [], g ++ post)) as [|q l] eqn:E;
      [destruct Hq|].
    exists pre, (g ++ post), q, l. repeat split; auto.
    + assert (Hq' : In q (run (Rep n CDigit) (rev pre ++ [], g ++ post)))
        by (rewrite E; left; auto).
      apply run_spec, matches_Rep in Hq' as (w & Es' & _ & Hl' & _). simpl in Es'.
      assert (g = w) by (apply (app_same_length _ _ _ _ Es'); congruence).
      subst w. apply app_inv_head in Es'. rewrite <- Es'.
      symmetry. apply firstn_of_app.
    + intros b1 b2 Hb Hlt.
      destruct (run (Rep n CDigit) (rev b1 ++ [], b2)) as [|q' l'] eqn:E'; [reflexivity|].
      exfalso.
      assert (N : run (Rep n CDigit) (rev b1 ++ [], b2) <> []) by congruence.
      apply run_Rep_digits in N as (g' & post' & Es' & Hl' & Hg').
      assert (length pre <= length b1)%nat; [|lia].
      apply (Hmin b1 g'). exists post'. rewrite Hb, Es'. auto.
Qed.

End Searching.

(** ** Cutoff resolver *)

Section CutoffResolver.
Context {U : Unicode}.

Lemma calendar_year_one : EXAM_CUTOFF_BY_YEAR !! (0 + 1) = None.
Proof. reflexivity. Qed.

Lemma cutoff_six_digits stem ov key :
  first_digit_run 6 stem key ->
  cutoff_for_stem stem ov =
  match (match ov with Some m => m | None => ∅ end) !! key with
  | Some d => Some d
  | None => EXAM_CUTOFF_BY_YEAR !! (int_of_digits (firstn 4 key) + 1)
  end.
Proof.
  intros H. apply re_search_digits_Some in H.
  unfold cutoff_for_stem. rewrite H. reflexivity.
Qed.

Lemma cutoff_four_digits stem ov :
  no_digit_run 6 stem ->
  cutoff_for_stem stem ov =
  match re_search (Rep 4 CDigit) stem with
  | Some y4 => EXAM_CUTOFF_BY_YEAR !! (int_of_digits y4 + 1)
  | None => None
  end.
Proof.
  intros H. apply re_search_digits_None in H.
  unfold cutoff_for_stem, detect_year_from_stem. rewrite H.
  destruct (re_search (Rep 4 CDigit) stem) as [y4|]; [|reflexivity].
  destruct (Z.eqb_spec (int_of_digits y4) 0) as [E|]; [|reflexivity].
  rewrite E. symmetry. exact calendar_year_one.
Qed.

(** C3, as the code has it.  Cutoff resolution on a file-name stem.  The
    six-digit run of a stem is its leftmost one, the one the search finds; a
    later run is never looked up.  (1) When that run is a
    key of the override map the override date is returned, whatever the
    calendar holds.  (2) Otherwise the first four digits of the run give the
    year Y and the calendar entry of Y+1 is returned.  (3) Without a
    six-digit run, the leftmost four-digit run gives Y in the same way.
    (4) Without any run of four digits there is no cutoff; and since the
    result is a lookup in the calendar, a year Y+1 the calendar lacks gives
    no cutoff either.  (5) A stem without a six-digit run resolves the same
    under every override map.  (6) The stems "202410結果" and "2024結果"
    resolve to the calendar's entry of 2025 without an override, and the
    override of "202410" by 2025-03-01 is returned for "202410結果". *)
Theorem cutoff_for_stem_resolution :
  (forall stem ov key d,
      first_digit_run 6 stem key -> ov !! key = Some d ->
      cutoff_for_stem stem (Some ov) = Some d)
  /\ (forall stem ov key,
         first_digit_run 6 stem key ->
         (match ov with Some m => m | None => ∅ end) !! key = None ->
         cutoff_for_stem stem ov
         = EXAM_CUTOFF_BY_YEAR !! (int_of_digits (firstn 4 key) + 1))
  /\ (forall stem ov y4,
         no_digit_run 6 stem -> first_digit_run 4 stem y4 ->
         cutoff_for_stem stem ov = EXAM_CUTOFF_BY_YEAR !! (int_of_digits y4 + 1))
  /\ (forall stem ov,
         no_digit_run 4 stem -> cutoff_for_stem stem ov = None)
  /\ (forall stem ov ov',
         no_digit_run 6 stem -> cutoff_for_stem stem ov = cutoff_for_stem stem ov')
  /\ (@cutoff_for_stem basic_tables (u "202410結果") None
        = EXAM_CUTOFF_BY_YEAR !! 2025
      /\ @cutoff_for_stem basic_tables (u "2024結果") None
        = EXAM_CUTOFF_BY_YEAR !! 2025
      /\ EXAM_CUTOFF_BY_YEAR !! 2025 = Some (mk_datetime 2025 1 18)
      /\ @cutoff_for_stem basic_tables (u "202410結果")
           (Some {[ u "202410" := mk_datetime 2025 3 1 ]})
        = Some (mk_datetime 2025 3 1)).
Proof.
  repeat apply conj.
  - intros stem ov key d H E. rewrite (cutoff_six_digits _ _ _ H), E. reflexivity.
  - intros stem ov key H E. rewrite (cutoff_six_digits _ _ _ H), E. reflexivity.
  - intros stem ov y4 H6 H4. rewrite (cutoff_four_digits _ _ H6).
    apply re_search_digits_Some in H4. rewrite H4. reflexivity.
  - intros stem ov H4.
    assert (H6 : no_digit_run 6 stem).
    { intros pre g (post & Es & Hl & Hg).
      apply (H4 pre (firstn 4 g)). exists (skipn 4 g ++ post).
      replace (firstn 4 g ++ skipn 4 g ++ post) with (g ++ post)
        by (rewrite app_assoc, firstn_skipn; reflexivity).
      split; [exact Es|]. split.
      - rewrite length_firstn. lia.
      - rewrite forallb_forall in *. intros c Hc. apply Hg.
        rewrite <- (firstn_skipn 4 g). apply in_or_app. left. exact Hc. }
    rewrite (cutoff_four_digits _ _ H6).
    apply re_search_digits_None in H4. rewrite H4. reflexivity.
  - intros stem ov ov' H6. rewrite !(cutoff_four_digits _ _ H6). reflexivity.
  - vm_compute. reflexivity.
  - vm_compute. reflexivity.
  - vm_compute. reflexivity.
  - vm_compute. reflexivity.
Qed.

End CutoffResolver.

(** ** Grade normalisation *)

Section GradeNormalisation.
Context {U : Unicode}.

Lemma re_search_found r s :
  (exists g, re_search r s = Some g) <->
  exists pre rest p', s = pre ++ rest /\ matches r (rev pre, rest) p'.
Proof.
  unfold re_search. split.
  - intros [g H]. apply search_from_Some in H as (a1 & a2 & p' & l & Ha & Hr & _).
    exists a1, a2, p'. split; [exact Ha|]. apply run_spec.
    rewrite app_nil_r in Hr. rewrite Hr. left; reflexivity.
  - intros (pre & rest & p' & Es & Hm).
    destruct (search_from r [] s) as [g|] eqn:E; [eauto|].
    exfalso. rewrite search_from_None in E. specialize (E pre rest Es).
    apply run_spec in Hm. rewrite app_nil_r in E. rewrite E in Hm. destruct Hm.
Qed.

Lemma matches_grade3 pre rest p' :
  matches normalize_grade_pattern (rev pre, rest) p' ->
  grade3_marker (pre ++ rest).
Proof.
  unfold normalize_grade_pattern. cbn [matches cset_mem fst snd].
  intros [H|[H|H]].
  - destruct H as (q1 & (c1 & E1 & _ & Hc1) & q2 & (w & E2 & _ & Hw)
                     & (c3 & E3 & _ & Hc3)).
    apply N.eqb_eq in Hc1, Hc3. subst c1 c3. left.
    exists pre, w, (snd p'). cbn [fst snd] in *. rewrite E1, E2, E3. auto.
  - destruct H as (q1 & (c1 & E1 & _ & Hc1) & (c2 & E2 & _ & Hc2)).
    apply N.eqb_eq in Hc1, Hc2. subst c1 c2. right. left.
    exists pre, (snd p'). cbn [fst snd] in *. rewrite E1, E2. reflexivity.
  - destruct H as (q0 & (B1 & ->) & q1 & (c1 & E1 & F1 & Hc1) & (B2 & ->)).
    apply N.eqb_eq in Hc1. subst c1. right. right.
    exists pre, (snd q1). cbn [fst snd] in *. rewrite E1 in *. rewrite F1 in B2. auto.
Qed.

Lemma grade3_matches s :
  grade3_marker s ->
  exists pre rest p', s = pre ++ rest /\ matches normalize_grade_pattern (rev pre, rest) p'.
Proof.
  unfold normalize_grade_pattern.
  intros [(pre & ws & post & Es & Hw)|[(pre & post & Es)|(pre & post & Es & B1 & B2)]].
  - exists pre, ([0x9AD8%N] ++ ws ++ [51%N] ++ post),
      (51%N :: rev ws ++ 0x9AD8%N :: rev pre, post).
    split; [exact Es|]. simpl. left.
    exists (0x9AD8%N :: rev pre, ws ++ 51%N :: post). split.
    + exists 0x9AD8%N. auto.
    + exists (rev ws ++ 0x9AD8%N :: rev pre, 51%N :: post). split.
      * exists ws. auto.
      * exists 51%N. auto.
  - exists pre, ([51%N; 0x5E74%N] ++ post), (0x5E74%N :: 51%N :: rev pre, post).
    split; [exact Es|]. simpl. right. left.
    exists (51%N :: rev pre, 0x5E74%N :: post). split.
    + exists 51%N. auto.
    + exists 0x5E74%N. auto.
  - exists pre, ([51%N] ++ post), (51%N :: rev pre, post).
    split; [exact Es|]. simpl. right. right.
    exists (rev pre, 51%N :: post). split; [split; [exact B1|reflexivity]|].
    exists (51%N :: rev pre, post). split.
    + exists 51%N. auto.
    + split; [exact B2|reflexivity].
Qed.

Lemma high3_not_high12 : u "高3" <> u "高1+2".
Proof. discriminate. Qed.

(** C9. Grade normalisation is a total function into the two cohorts: every
    input gives "高3" (J3) or "高1+2" (J1+2); after the translation of the
    full-width digits and spaces to their half-width forms and the removal
    of surrounding white space, the result is "高3" exactly when the text
    holds a grade-3 marker and "高1+2" otherwise.  With the character tables
    of the workbooks, "３年" (full-width 3) gives "高3", and "1", the empty
    text and the text "nan" of a blank cell give "高1+2". *)
Theorem normalize_grade_val_cohort :
  (forall x, normalize_grade_val x = u "高3" \/ normalize_grade_val x = u "高1+2")
  /\ (forall x,
         normalize_grade_val x = u "高3" <->
         grade3_marker
           (strip (translate (u "０１２３４５６７８９高　 ") (u "0123456789高  ") x)))
  /\ (forall x,
         normalize_grade_val x = u "高1+2" <->
         ~ grade3_marker
             (strip (translate (u "０１２３４５６７８９高　 ") (u "0123456789高  ") x)))
  /\ (@normalize_grade_val basic_tables (u "３年") = u "高3"
      /\ @normalize_grade_val basic_tables (u "1") = u "高1+2"
      /\ @normalize_grade_val basic_tables [] = u "高1+2"
      /\ @normalize_grade_val basic_tables (u "nan") = u "高1+2").
Proof.
  assert (K : forall x,
             (exists g, re_search normalize_grade_pattern
                          (strip (translate (u "０１２３４５６７８９高　 ")
                                            (u "0123456789高  ") x)) = Some g)
             <-> grade3_marker
                   (strip (translate (u "０１２３４５６７８９高　 ")
                                     (u "0123456789高  ") x))).
  { intros x. rewrite re_search_found. split.
    - intros (pre & rest & p' & Es & Hm). rewrite Es.
      eapply matches_grade3; eauto.
    - apply grade3_matches. }
  repeat apply conj.
  - intros x. unfold normalize_grade_val.
    destruct (re_search _ _); auto.
  - intros x. rewrite <- K. unfold normalize_grade_val.
    destruct (re_search _ _) as [g|].
    + split; eauto.
    + split; [intros E; exfalso; apply high3_not_high12; auto|].
      intros [g E]. discriminate.
  - intros x. rewrite <- K. unfold normalize_grade_val.
    destruct (re_search _ _) as [g|].
    + split; [intros E; exfalso; apply high3_not_high12; auto|].
      intros N. exfalso. apply N. eauto.
    + split; [|reflexivity]. intros _ [g E]. discriminate.
  - vm_compute. reflexivity.
  - vm_compute. reflexivity.
  - vm_compute. reflexivity.
  - vm_compute. reflexivity.
Qed.

End GradeNormalisation.

(** ** Sheet matcher *)

Section SheetMatcher.
Context {U : Unicode}.

Lemma norm_no_space s c : In c (norm s) -> isspace c = false.
Proof.
  unfold norm. rewrite filter_In. intros [_ H]. apply negb_true_iff in H. exact H.
Qed.

Lemma spaces_nil (w : list N) :
  forallb isspace w = true -> (forall c, In c w -> isspace c = false) -> w = [].
Proof.
  destruct w as [|c w]; [reflexivity|]. simpl. intros H N.
  apply andb_true_iff in H as [H _]. rewrite (N c) in H by auto. discriminate.
Qed.

Lemma target_pattern_spec t s :
  re_match (target_pattern t) (norm s) = true <-> sheet_name_matches t s.
Proof.
  rewrite re_match_spec. unfold target_pattern, sheet_name_matches. split.
  - cbn [matches fst snd].
    intros (p' & q0 & (_ & ->) & q1 & (w1 & E1 & _ & H1) & q2 & Hrep
              & q3 & (w2 & E2 & _ & H2) & q4 & (w3 & E3 & _ & H3)
              & q5 & Hlits & q6 & (w4 & E4 & _ & H4) & (He & ->)).
    apply matches_Rep in Hrep as (g & Eg & _ & Lg & Hg).
    apply matches_Lits in Hlits as (tail & Et & _ & Ht).
    cbn [fst snd cset_mem] in *.
    assert (Es : norm s = w1 ++ g ++ w2 ++ w3 ++ tail ++ w4 ++ snd q6).
    { rewrite E1, Eg, E2, E3, Et, E4. reflexivity. }
    assert (N : forall c, In c (norm s) -> isspace c = false)
      by apply norm_no_space.
    assert (W1 : w1 = []).
    { apply spaces_nil; [exact H1|]. intros c Hc. apply N. rewrite Es.
      apply in_or_app. auto. }
    assert (W2 : w2 = []).
    { apply spaces_nil; [exact H2|]. intros c Hc. apply N. rewrite Es.
      rewrite !in_app_iff. auto. }
    assert (W4 : w4 = []).
    { apply spaces_nil; [exact H4|]. intros c Hc. apply N. rewrite Es.
      rewrite !in_app_iff. auto 7. }
    assert (W6 : snd q6 = []).
    { destruct He as [He|He]; [exact He|]. exfalso.
      assert (isspace 10%N = false); [|rewrite newline_isspace in *; discriminate].
      apply N. rewrite Es, He. rewrite !in_app_iff. simpl. auto 8. }
    subst w1 w2 w4. exists g, w3, tail. rewrite Es, W6. simpl.
    rewrite !app_nil_r. auto.
  - intros (year & mid & tail & Es & Ly & Hy & Ht).
    assert (Hmid : forallb (cset_mem CAny) mid = true).
    { apply forallb_forall. intros c Hc. simpl. apply negb_true_iff.
      destruct (N.eqb_spec c 10) as [->|]; [|reflexivity].
      assert (isspace 10%N = false); [|rewrite newline_isspace in *; discriminate].
      apply (norm_no_space s). rewrite Es, !in_app_iff. auto. }
    exists (rev tail ++ rev mid ++ rev year, []).
    cbn [matches fst snd].
    exists ([], norm s). split; [auto|].
    exists ([], norm s). split; [exists []; auto|].
    exists (rev year, mid ++ tail). split.
    { apply matches_Rep. exists year. simpl. rewrite app_nil_r. auto. }
    exists (rev year, mid ++ tail). split; [exists []; auto|].
    exists (rev mid ++ rev year, tail). split; [exists mid; auto|].
    exists (rev tail ++ rev mid ++ rev year, []). split.
    { apply matches_Lits. exists tail. simpl. rewrite app_nil_r. auto. }
    exists (rev tail ++ rev mid ++ rev year, []). split; [exists []; auto|].
    auto.
Qed.

Lemma sheets_for_targets_in names tl t s :
  In (t, s) (_sheets_for_targets names tl) <->
  In s names
  /\ List.find (fun t => re_match (target_pattern t) (norm s)) tl = Some t.
Proof.
  unfold _sheets_for_targets. rewrite in_flat_map. split.
  - intros (s' & Hs & H).
    destruct (List.find _ tl) as [t'|] eqn:E; [|destruct H].
    destruct H as [H|[]]. inversion H; subst. auto.
  - intros [Hs E]. exists s. rewrite E. split; [exact Hs|left; reflexivity].
Qed.

Lemma find_first {A} (f : A -> bool) l x :
  List.find f l = Some x <->
  exists l1 l2, l = l1 ++ x :: l2 /\ f x = true /\ forall y, In y l1 -> f y = false.
Proof.
  induction l as [|a l IH]; simpl.
  - split; [discriminate|]. intros (l1 & l2 & E & _). destruct l1; discriminate.
  - destruct (f a) eqn:Fa.
    + split.
      * intros E. inversion E; subst. exists [], l. simpl. auto.
        repeat split; auto. intros y [].
      * intros (l1 & l2 & E & Fx & Hl). destruct l1 as [|b l1]; simpl in E.
        -- inversion E; subst. reflexivity.
        -- inversion E; subst. rewrite (Hl b) in Fa by (left; auto). discriminate.
    + rewrite IH. split.
      * intros (l1 & l2 & E & Fx & Hl). exists (a :: l1), l2. subst. simpl.
        repeat split; auto. intros y [<-|Hy]; auto.
      * intros (l1 & l2 & E & Fx & Hl). destruct l1 as [|b l1]; simpl in E.
        -- inversion E; subst. congruence.
        -- inversion E; subst. exists l1, l2. repeat split; auto.
           intros y Hy. apply Hl. right. exact Hy.
Qed.

Lemma sheets_for_targets_names names tl :
  map snd (_sheets_for_targets names tl)
  = List.filter
      (fun s => existsb (fun t => re_match (target_pattern t) (norm s)) tl) names.
Proof.
  unfold _sheets_for_targets. induction names as [|s names IH]; [reflexivity|].
  simpl. rewrite map_app, IH.
  destruct (List.find _ tl) as [t|] eqn:E.
  - apply find_some in E as [Ht Hm].
    assert (X : existsb (fun t => re_match (target_pattern t) (norm s)) tl = true).
    { apply existsb_exists. eauto. }
    rewrite X. reflexivity.
  - assert (X : existsb (fun t => re_match (target_pattern t) (norm s)) tl = false).
    { apply not_true_iff_false. intros H. apply existsb_exists in H as (t & Ht & Hm).
      apply (find_none _ _ E) in Ht. congruence. }
    rewrite X. reflexivity.
Qed.

End SheetMatcher.

Section SheetMatcherClaims.
Context {U : Unicode}.

Lemma target_pattern_false t s :
  re_match (target_pattern t) (norm s) = false <-> ~ sheet_name_matches t s.
Proof.
  rewrite <- target_pattern_spec. symmetry. apply not_true_iff_false.
Qed.

(** C6, as the code has it.  The sheet matcher returns exactly the sheet
    names that match the pattern with a leading four-digit year that is
    required, not optional: white space ignored, the name is four decimal
    digits, then any text, then the unit name at the end, case ignored.
    (1) A pair (unit, sheet) is returned exactly when the sheet is one of
    the given names and the unit is the first of the target list that the
    sheet name matches.  (2) A sheet is returned exactly when it matches
    some unit of the list.  (3) The sheets come back in the order given, each
    as often as it is given.  (4) With the character tables of the
    workbooks, "2024 英単語1800" is returned for "英単語1800". *)
Theorem sheets_for_targets_year_required :
  (forall names tl t s,
      In (t, s) (_sheets_for_targets names tl) <->
      In s names /\ first_matching_target tl s t)
  /\ (forall names tl s,
         In s (map snd (_sheets_for_targets names tl)) <->
         In s names /\ exists t, In t tl /\ sheet_name_matches t s)
  /\ (forall names tl,
         map snd (_sheets_for_targets names tl)
         = List.filter
             (fun s => existsb (fun t => re_match (target_pattern t) (norm s)) tl)
             names)
  /\ (forall t s, re_match (target_pattern t) (norm s) = true <-> sheet_name_matches t s)
  /\ @_sheets_for_targets basic_tables [u "2024 英単語1800"] [u "英単語1800"]
     = [(u "英単語1800", u "2024 英単語1800")].
Proof.
  assert (P1 : forall names tl t s,
             In (t, s) (_sheets_for_targets names tl) <->
             In s names /\ first_matching_target tl s t).
  { intros names tl t s. rewrite sheets_for_targets_in, find_first.
    unfold first_matching_target. split.
    - intros (Hs & l1 & l2 & E & Ht & Hl). split; [exact Hs|].
      exists l1, l2. rewrite <- target_pattern_spec. repeat split; auto.
      intros t' Ht'. apply target_pattern_false. auto.
    - intros (Hs & l1 & l2 & E & Ht & Hl). split; [exact Hs|].
      exists l1, l2. rewrite target_pattern_spec. repeat split; auto.
      intros t' Ht'. apply target_pattern_false. auto. }
  repeat apply conj.
  - exact P1.
  - intros names tl s. rewrite sheets_for_targets_names, filter_In, existsb_exists.
    split.
    + intros (Hs & t & Ht & Hm). split; [exact Hs|]. exists t.
      rewrite <- target_pattern_spec. auto.
    + intros (Hs & t & Ht & Hm). split; [exact Hs|]. exists t.
      rewrite target_pattern_spec. auto.
  - apply sheets_for_targets_names.
  - apply target_pattern_spec.
  - vm_compute. reflexivity.
Qed.

End SheetMatcherClaims.

(** C6 as stated fails: the sheet name "英単語1800" ends with the unit name
    "英単語1800" and so matches the pattern with an optional year, yet the
    sheet matcher does not return it. *)
Lemma sheets_for_targets_optional_year_counterexample :
  @sheet_name_matches_optional_year basic_tables (u "英単語1800") (u "英単語1800")
  /\ @_sheets_for_targets basic_tables [u "英単語1800"] [u "英単語1800"] = [].
Proof.
  split.
  - exists [], [], (u "英単語1800"). split; [vm_compute; reflexivity|].
    split; [left; reflexivity|].
    unfold same_ignoring_case.
    let x := eval vm_compute in (@norm basic_tables (u "英単語1800")) in
    change (@norm basic_tables (u "英単語1800")) with x.
    let y := eval vm_compute in (u "英単語1800") in
    change (u "英単語1800") with y.
    repeat (constructor; [reflexivity|]). constructor.
  - vm_compute. reflexivity.
Qed.

(** ** Grouping and joining *)

Section FrameFacts.
Context {K : Type} `{EqDecision K}.

Lemma keys_NoDup {V} (rows : list (K * V)) : NoDup (keys rows).
Proof. apply NoDup_nodup. Qed.

Lemma in_keys {V} (rows : list (K * V)) k :
  In k (keys rows) <-> In k (map fst rows).
Proof. apply nodup_In. Qed.

Lemma in_group {V} (rows : list (K * V)) k v :
  In v (group k rows) <-> In (k, v) rows.
Proof.
  unfold group. rewrite in_map_iff. split.
  - intros ([k' v'] & E & H). apply filter_In in H as [H Hk].
    apply bool_decide_eq_true in Hk. simpl in *. subst. exact H.
  - intros H. exists (k, v). split; [reflexivity|].
    apply filter_In. split; [exact H|]. apply bool_decide_eq_true. reflexivity.
Qed.

Lemma group_nil {V} (rows : list (K * V)) k :
  group k rows = [] <-> ~ In k (map fst rows).
Proof.
  split.
  - intros E Hk. apply in_map_iff in Hk as ([k' v] & Ek & Hin). simpl in Ek. subst.
    apply in_group in Hin. rewrite E in Hin. destruct Hin.
  - intros N. destruct (group k rows) as [|v l] eqn:E; [reflexivity|].
    exfalso. apply N. apply in_map_iff. exists (k, v). split; [reflexivity|].
    apply in_group. rewrite E. left; reflexivity.
Qed.

Lemma group_cons {V} (rows : list (K * V)) k k' v :
  group k ((k', v) :: rows)
  = if bool_decide (k' = k) then v :: group k rows else group k rows.
Proof. unfold group. simpl. destruct (bool_decide (k' = k)); reflexivity. Qed.

Lemma group_app {V} (r1 r2 : list (K * V)) k :
  group k (r1 ++ r2) = group k r1 ++ group k r2.
Proof. unfold group. rewrite filter_app, map_app. reflexivity. Qed.

Lemma group_unique {V} (rows : list (K * V)) k v :
  NoDup (map fst rows) -> In (k, v) rows -> group k rows = [v].
Proof.
  induction rows as [|[k' v'] rows IH]; simpl; [intros _ []|].
  intros ND Hin. inversion ND as [|x l Hx ND']; subst.
  rewrite group_cons. destruct Hin as [E|Hin].
  - inversion E; subst. rewrite bool_decide_eq_true_2 by reflexivity.
    f_equal. apply group_nil. exact Hx.
  - rewrite bool_decide_eq_false_2.
    + apply IH; assumption.
    + intros ->. apply Hx. apply in_map_iff. exists (k, v). auto.
Qed.

Lemma groupby_keys {V W} (agg : list V -> W) (rows : list (K * V)) :
  map fst (groupby agg rows) = keys rows.
Proof. unfold groupby. rewrite map_map. simpl. apply map_id. Qed.

Lemma groupby_NoDup {V W} (agg : list V -> W) (rows : list (K * V)) :
  NoDup (map fst (groupby agg rows)).
Proof. rewrite groupby_keys. apply keys_NoDup. Qed.

Lemma in_groupby {V W} (agg : list V -> W) (rows : list (K * V)) k w :
  In (k, w) (groupby agg rows) <-> In k (map fst rows) /\ w = agg (group k rows).
Proof.
  unfold groupby. rewrite in_map_iff. split.
  - intros (k' & E & Hk). inversion E; subst. apply in_keys in Hk. auto.
  - intros [Hk ->]. exists k. split; [reflexivity|]. apply in_keys. exact Hk.
Qed.

(** A left join keeps every left row and adds none. *)
Lemma merge_left_rows {A V} (key : A -> K) (left : list A) (right : list (K * V)) a :
  In a (map fst (merge_left key left right)) <-> In a left.
Proof.
  unfold merge_left. rewrite in_map_iff. split.
  - intros ([a' v] & E & H). simpl in E. subst a'.
    apply in_flat_map in H as (b & Hb & H).
    destruct (group (key b) right) as [|x l].
    + destruct H as [H|[]]. inversion H; subst. exact Hb.
    + apply in_map_iff in H as (y & H & _). inversion H; subst. exact Hb.
  - intros Ha. destruct (group (key a) right) as [|x l] eqn:E.
    + exists (a, None). split; [reflexivity|]. apply in_flat_map. exists a.
      rewrite E. split; [exact Ha|left; reflexivity].
    + exists (a, Some x). split; [reflexivity|]. apply in_flat_map. exists a.
      rewrite E. split; [exact Ha|]. left; reflexivity.
Qed.

(** The value a left join attaches is a value of the right table under the
    key of the row. *)
Lemma merge_left_value {A V} (key : A -> K) (left : list A) (right : list (K * V)) a v :
  In (a, Some v) (merge_left key left right) -> In (key a, v) right.
Proof.
  unfold merge_left. intros H. apply in_flat_map in H as (b & Hb & H).
  destruct (group (key b) right) as [|x l] eqn:E.
  - destruct H as [H|[]]. discriminate.
  - apply in_map_iff in H as (y & H & Hy). inversion H; subst.
    apply in_group. rewrite E. exact Hy.
Qed.

(** Against a right table with one row per key, a left join is a look-up:
    one row out for each row in. *)
Lemma merge_left_lookup {A V} (key : A -> K) (left : list A) (right : list (K * V)) :
  NoDup (map fst right) ->
  merge_left key left right
  = map (fun a => (a, match group (key a) right with
                      | v :: _ => Some v
                      | [] => None
                      end)) left.
Proof.
  intros ND. unfold merge_left. induction left as [|a left IH]; [reflexivity|].
  simpl in IH |- *. rewrite IH.
  destruct (group (key a) right) as [|v l] eqn:E; [reflexivity|].
  assert (Hv : In (key a, v) right) by (apply in_group; rewrite E; left; auto).
  rewrite (group_unique _ _ _ ND Hv) in E. inversion E; subst. reflexivity.
Qed.

End FrameFacts.

(** ** The students of the panel *)

Section PanelStudents.
Context {U : Unicode}.

Lemma merge_left_image {A V B} (key : A -> Z) (g : A -> B)
    (left : list A) (right : list (Z * V)) b :
  In b (map (fun x => g (fst x)) (merge_left key left right)) <-> In b (map g left).
Proof.
  rewrite !in_map_iff. split.
  - intros (x & E & Hx). exists (fst x). split; [exact E|].
    apply (merge_left_rows key left right). apply in_map. exact Hx.
  - intros (a & E & Ha). apply (merge_left_rows key left right) in Ha.
    apply in_map_iff in Ha as (x & Ex & Hx). exists x. subst. auto.
Qed.

Lemma merged_exam_rows (f : File) cutoff b :
  In b (map exam (merged_of f cutoff)) <-> In b (read_exam (workbook f)).
Proof.
  unfold merged_of. rewrite map_map.
  rewrite (map_ext _ (fun x => fst (fst (fst (fst x)))))
    by (intros [[[[? ?] ?] ?] ?]; reflexivity).
  rewrite (merge_left_image _ (fun y => fst (fst (fst y)))).
  rewrite (merge_left_image _ (fun y => fst (fst y))).
  rewrite (merge_left_image _ (fun y => fst y)).
  rewrite (merge_left_image _ (fun y => y)).
  rewrite map_id. reflexivity.
Qed.

(** C10. The students of the merged table of a file are exactly the students
    that the exam-results sheets of the file give, whatever the cutoff: the
    rows of the exam table are all kept and no other row is added.  So a
    student that only the curriculum-unit sheets list is in no row of the
    merged table, and so in none of the panel. *)
Theorem merged_students_are_exam_students :
  (forall (f : File) cutoff sid,
      In sid (map (fun r => student_id (exam r)) (merged_of f cutoff)) <->
      In sid (map student_id (read_exam (workbook f))))
  /\ (forall (f : File) cutoff b,
         In b (map exam (merged_of f cutoff)) <-> In b (read_exam (workbook f)))
  /\ (forall (f : File) cutoff sid,
         ~ In sid (map student_id (read_exam (workbook f))) ->
         forall r, In r (merged_of f cutoff) -> student_id (exam r) <> sid).
Proof.
  assert (P : forall (f : File) cutoff sid,
             In sid (map (fun r => student_id (exam r)) (merged_of f cutoff)) <->
             In sid (map student_id (read_exam (workbook f)))).
  { intros f cutoff sid. rewrite <- (map_map exam student_id), !in_map_iff. split.
    - intros (b & E & Hb). exists b. split; [exact E|].
      apply (merged_exam_rows f cutoff). exact Hb.
    - intros (b & E & Hb). exists b. split; [exact E|].
      apply (merged_exam_rows f cutoff). exact Hb. }
  repeat apply conj.
  - exact P.
  - apply merged_exam_rows.
  - intros f cutoff sid N r Hr E. apply N. apply (P f cutoff).
    apply in_map_iff. exists r. auto.
Qed.

End PanelStudents.

(** ** The dense grid of the report tables *)

Section DenseGrid.
Context {U : Unicode}.

Lemma length_range lo hi : length (range lo hi) = Z.to_nat (hi - lo).
Proof. unfold range. rewrite length_map, length_seq. reflexivity. Qed.

Lemma in_range_list lo hi b : In b (range lo hi) <-> lo <= b < hi.
Proof.
  unfold range. rewrite in_map_iff. split.
  - intros (i & E & Hi). apply in_seq in Hi. lia.
  - intros H. exists (Z.to_nat (b - lo)). split; [lia|]. apply in_seq. lia.
Qed.

Lemma length_template max_val :
  0 <= max_val -> Z.of_nat (length (template max_val)) = 2 * (max_val + 1).
Proof.
  intros H. unfold template. rewrite length_prod, length_range. simpl. lia.
Qed.

Lemma in_template max_val c b :
  In (c, b) (template max_val) <->
  (c = u "高1+2" \/ c = u "高3") /\ 0 <= b <= max_val.
Proof.
  unfold template. rewrite in_prod_iff, in_range_list. simpl.
  split; intros [H1 H2]; (split; [|lia]); intuition.
Qed.

Lemma summarize_long_rows df key score_col max_val :
  summarize_long df key score_col max_val
  = map (fun t =>
           let a := group t
                      (groupby
                         (fun rows : list (Z * Q) =>
                            (nunique (map fst rows), mean (map snd rows)))
                         (flat_map
                            (fun r =>
                               match score_col r with
                               | Some sc =>
                                   [((grade_norm (exam r), key r),
                                     (student_id (exam r), sc))]
                               | None => []
                               end) df)) in
           {| long_cohort := fst t;
              long_key := snd t;
              long_count := match a with x :: _ => fst x | [] => 0 end;
              long_mean := match a with
                           | x :: _ => Some (round1 (snd x))
                           | [] => None
                           end |})
        (template max_val).
Proof.
  unfold summarize_long. rewrite merge_left_lookup by apply groupby_NoDup.
  rewrite map_map. apply map_ext. intros t. simpl.
  destruct (group t _); reflexivity.
Qed.

Lemma summarize_distribution_rows df key max_val :
  summarize_distribution df key max_val
  = map (fun t =>
           {| dist_cohort := fst t;
              dist_key := snd t;
              dist_count :=
                match group t
                        (groupby (fun ids : list Z => nunique ids)
                           (map (fun r => ((grade_norm (exam r), key r),
                                           student_id (exam r))) df)) with
                | x :: _ => x
                | [] => 0
                end |})
        (template max_val).
Proof.
  unfold summarize_distribution. rewrite merge_left_lookup by apply groupby_NoDup.
  rewrite map_map. apply map_ext. intros t. simpl.
  destruct (group t _); reflexivity.
Qed.

End DenseGrid.

Section DenseGridClaim.
Context {U : Unicode}.

Lemma NoDup_append {A} (l1 l2 : list A) :
  NoDup l1 -> NoDup l2 -> (forall x, In x l1 -> ~ In x l2) -> NoDup (l1 ++ l2).
Proof.
  induction l1 as [|a l1 IH]; simpl; intros N1 N2 D; [exact N2|].
  inversion N1; subst. constructor.
  - rewrite in_app_iff. intros [H|H]; [contradiction|]. apply (D a); auto.
  - apply IH; auto.
Qed.

Lemma NoDup_range lo hi : NoDup (range lo hi).
Proof.
  unfold range. apply NoDup_map_NoDup_ForallPairs; [|apply seq_NoDup].
  intros x y _ _ E. lia.
Qed.

Lemma NoDup_template max_val : NoDup (template max_val).
Proof.
  unfold template. simpl. rewrite app_nil_r.
  assert (P : forall c : list N, NoDup (map (fun y => (c, y)) (range 0 (max_val + 1)))).
  { intros c. apply NoDup_map_NoDup_ForallPairs; [|apply NoDup_range].
    intros x y _ _ E. inversion E; reflexivity. }
  apply NoDup_append; [apply P | apply P |].
  intros [c b] H1 H2. apply in_map_iff in H1 as (x & E1 & _).
  apply in_map_iff in H2 as (y & E2 & _). inversion E1; inversion E2; subst.
  discriminate.
Qed.

Lemma scored_cell_keys (df : list PanelRow) (key : PanelRow -> Z)
    (score_col : PanelRow -> option Q) t :
  In t (map fst
          (flat_map
             (fun r =>
                match score_col r with
                | Some sc => [((grade_norm (exam r), key r), (student_id (exam r), sc))]
                | None => []
                end) df))
  <-> exists p, In p df /\ (grade_norm (exam p), key p) = t /\ score_col p <> None.
Proof.
  rewrite in_map_iff. split.
  - intros (x & E & H). apply in_flat_map in H as (p & Hp & H).
    destruct (score_col p) as [sc|] eqn:S; [|destruct H].
    destruct H as [H|[]]. subst x. simpl in E. exists p. rewrite S.
    repeat split; auto; discriminate.
  - intros (p & Hp & E & S). destruct (score_col p) as [sc|] eqn:S'; [|congruence].
    exists (t, (student_id (exam p), sc)). split; [reflexivity|].
    apply in_flat_map. exists p. rewrite S', E. split; [exact Hp|left; reflexivity].
Qed.

Lemma nunique_pos (xs : list Z) : xs <> [] -> 0 < nunique xs.
Proof.
  intros H. unfold nunique. destruct xs as [|x xs]; [congruence|].
  assert (I : In x (nodup Z.eq_dec (x :: xs))) by (apply nodup_In; left; auto).
  destruct (nodup Z.eq_dec (x :: xs)); [destruct I|]. simpl. lia.
Qed.

(** C4. Every long table and every distribution table has exactly
    2 × (max_val + 1) rows, one for each pair of a cohort ("高1+2", "高3")
    and a bucket 0..max_val, each pair once and in the order of the grid.
    In a long table a cell has a missing mean exactly when no panel row of
    the cell has a score, and then (and only then) its headcount is 0; so a
    cell that no student occupies has headcount 0 and a missing mean.  In a
    distribution table, which has no mean, a cell has headcount 0 exactly
    when no panel row is in it. *)
Theorem dense_grid (df : list PanelRow) (key : PanelRow -> Z)
    (score_col : PanelRow -> option Q) (max_val : Z) :
  0 <= max_val ->
  (Z.of_nat (length (summarize_long df key score_col max_val)) = 2 * (max_val + 1)
   /\ map (fun r => (long_cohort r, long_key r))
          (summarize_long df key score_col max_val) = template max_val
   /\ forall r, In r (summarize_long df key score_col max_val) ->
        ((forall p, In p df -> grade_norm (exam p) = long_cohort r ->
                    key p = long_key r -> score_col p = None)
         <-> long_mean r = None)
        /\ (long_mean r = None <-> long_count r = 0))
  /\ (Z.of_nat (length (summarize_distribution df key max_val)) = 2 * (max_val + 1)
      /\ map (fun r => (dist_cohort r, dist_key r))
             (summarize_distribution df key max_val) = template max_val
      /\ forall r, In r (summarize_distribution df key max_val) ->
           ((forall p, In p df -> grade_norm (exam p) = dist_cohort r ->
                       key p <> dist_key r)
            <-> dist_count r = 0))
  /\ NoDup (template max_val)
  /\ (forall c b, In (c, b) (template max_val) <->
                  (c = u "高1+2" \/ c = u "高3") /\ 0 <= b <= max_val).
Proof.
  intros Hmax. repeat apply conj.
  - rewrite summarize_long_rows, length_map. apply length_template. exact Hmax.
  - rewrite summarize_long_rows, map_map. simpl.
    rewrite (map_ext _ (fun t => t)) by (intros [? ?]; reflexivity). apply map_id.
  - intros r Hr. rewrite summarize_long_rows in Hr.
    apply in_map_iff in Hr as ([c b] & <- & _). cbn [long_cohort long_key long_mean long_count fst snd].
    set (rows := flat_map _ df).
    destruct (group (c, b) (groupby _ rows)) as [|x l] eqn:E.
    + split; [|split; reflexivity]. split; [reflexivity|]. intros _ p Hp Hc Hk.
      apply group_nil in E. rewrite groupby_keys, in_keys in E.
      destruct (score_col p) eqn:S; [|reflexivity]. exfalso. apply E.
      apply scored_cell_keys. exists p. rewrite Hc, Hk, S.
      repeat split; auto; discriminate.
    + assert (Hx : In ((c, b), x) (groupby
                      (fun rows0 : list (Z * Q) =>
                         (nunique (map fst rows0), mean (map snd rows0))) rows)).
      { apply in_group. rewrite E. left; reflexivity. }
      apply in_groupby in Hx as [Hk Hx].
      split.
      * split; [|discriminate]. intros H. exfalso.
        apply scored_cell_keys in Hk as (p & Hp & Ep & S). inversion Ep; subst.
        apply S. apply H; auto.
      * split; [discriminate|]. intros H0. exfalso. subst x. simpl in H0.
        assert (G : group (c, b) rows <> []).
        { intros G. apply group_nil in G. contradiction. }
        assert (0 < nunique (map fst (group (c, b) rows))); [|lia].
        apply nunique_pos. intros M. apply map_eq_nil in M. contradiction.
  - rewrite summarize_distribution_rows, length_map. apply length_template. exact Hmax.
  - rewrite summarize_distribution_rows, map_map. simpl.
    rewrite (map_ext _ (fun t => t)) by (intros [? ?]; reflexivity). apply map_id.
  - intros r Hr. rewrite summarize_distribution_rows in Hr.
    apply in_map_iff in Hr as ([c b] & <- & _). cbn [dist_cohort dist_key dist_count fst snd].
    set (rows := map _ df).
    destruct (group (c, b) (groupby _ rows)) as [|x l] eqn:E.
    + split; [reflexivity|]. intros _ p Hp Hc Hk.
      apply group_nil in E. rewrite groupby_keys, in_keys in E. apply E.
      subst rows. rewrite map_map. simpl. apply in_map_iff. exists p.
      rewrite Hc, Hk. auto.
    + assert (Hx : In ((c, b), x) (groupby (fun ids : list Z => nunique ids) rows)).
      { apply in_group. rewrite E. left; reflexivity. }
      apply in_groupby in Hx as [Hk Hx].
      split.
      * intros H. exfalso. subst rows. rewrite map_map in Hk. simpl in Hk.
        apply in_map_iff in Hk as (p & Ep & Hp). inversion Ep; subst.
        apply (H p); auto.
      * intros H0. exfalso. subst x.
        assert (G : group (c, b) rows <> []).
        { intros G. apply group_nil in G. contradiction. }
        assert (0 < nunique (group (c, b) rows)); [|lia].
        apply nunique_pos. exact G.
  - apply NoDup_template.
  - intros c b. apply in_template.
Qed.

End DenseGridClaim.

(** The dense grid on the panel of the sample file: the English long table
    with buckets 0..6. *)
Lemma dense_grid_witness :
  Z.of_nat (length (summarize_long
                      (@merged_of basic_tables Sample.file (Some Sample.cutoff))
                      eng_mas (fun r => score_eng (exam r)) 6)) = 2 * (6 + 1).
Proof.
  apply (dense_grid (@merged_of basic_tables Sample.file (Some Sample.cutoff))
           eng_mas (fun r => score_eng (exam r)) 6).
  lia.
Defined.

(** ** The output workbook *)

Section OutputWorkbook.
Context {U : Unicode}.

Lemma nunique_same (xs ys : list Z) :
  (forall x, In x xs <-> In x ys) -> nunique xs = nunique ys.
Proof.
  intros H. unfold nunique. f_equal. apply Nat.le_antisymm.
  - apply NoDup_incl_length; [apply NoDup_nodup|].
    intros x Hx. apply nodup_In. apply H. apply nodup_In in Hx. exact Hx.
  - apply NoDup_incl_length; [apply NoDup_nodup|].
    intros x Hx. apply nodup_In. apply H. apply nodup_In in Hx. exact Hx.
Qed.

Lemma merged_student_ids (f : File) cutoff sid :
  In sid (map (fun r => student_id (exam r)) (merged_of f cutoff)) <->
  In sid (map student_id (read_exam (workbook f))).
Proof.
  rewrite <- (map_map exam student_id), !in_map_iff. split.
  - intros (b & E & Hb). exists b. split; [exact E|].
    apply (merged_exam_rows f cutoff). exact Hb.
  - intros (b & E & Hb). exists b. split; [exact E|].
    apply (merged_exam_rows f cutoff). exact Hb.
Qed.

(** C8, as the code has it.  A run on at least one file writes a workbook of
    exactly 9 sheets in a fixed order: 3 long tables, 3 wide tables, 2
    late-completion distribution tables and the run-metadata table, under
    the titles of the script; the metadata table has one row per file with
    the time stamp of the run, the file name, the key, the resolved cutoff
    (or none) and the number of distinct students.  A run on no file writes
    nothing. *)
Theorem main_workbook_sheets (files : list File)
    (cutoff_override : gmap str datetime) (run_ts : str) :
  files <> [] ->
  exists sheets,
    main files cutoff_override run_ts = Some sheets
    /\ length sheets = 9%nat
    /\ map fst sheets = SHEET_TITLES
    /\ map (fun s => kind_of (snd s)) sheets = SHEET_KINDS
    /\ nth_error sheets 8
       = Some (u "集計メタデータ",
               MetaSheet (metadata_table files cutoff_override run_ts))
    /\ main [] cutoff_override run_ts = None.
Proof.
  intros Hne. unfold main at 1. set (per_file := map _ files).
  assert (R : exists r rs, map fst per_file = r :: rs).
  { destruct files as [|f files]; [congruence|]. subst per_file. simpl. eauto. }
  destruct R as (r & rs & R). rewrite R.
  eexists. split; [reflexivity|].
  split; [reflexivity|]. split; [reflexivity|]. split; [reflexivity|].
  split; [|reflexivity].
  cbn [nth_error]. do 3 f_equal. unfold metadata_table. subst per_file.
  rewrite map_map. apply map_ext. intros g. cbn [snd]. f_equal.
  apply nunique_same. intros sid. apply merged_student_ids.
Qed.

End OutputWorkbook.

(** The run on the sample file writes its nine sheets. *)
Lemma main_workbook_sheets_witness :
  exists sheets,
    @main basic_tables [Sample.file] ∅ Sample.run_ts = Some sheets
    /\ length sheets = 9%nat
    /\ map fst sheets = SHEET_TITLES
    /\ map (fun s => kind_of (snd s)) sheets = SHEET_KINDS
    /\ nth_error sheets 8
       = Some (u "集計メタデータ",
               MetaSheet (@metadata_table basic_tables [Sample.file] ∅ Sample.run_ts))
    /\ @main basic_tables [] ∅ Sample.run_ts = None.
Proof.
  apply (@main_workbook_sheets basic_tables [Sample.file] ∅ Sample.run_ts).
  discriminate.
Defined.

(** C8 as stated fails: the run on the sample file writes a workbook whose
    number of sheets is not 8. *)
Lemma main_eight_sheets_counterexample :
  exists sheets,
    @main basic_tables [Sample.file] ∅ Sample.run_ts = Some sheets
    /\ length sheets <> 8%nat.
Proof.
  eexists. split; [reflexivity|]. simpl. discriminate.
Qed.

(** ** Exam scores *)

Section ExamScores.
Context {U : Unicode}.

Lemma nth_error_combine {A B} (l1 : list A) (l2 : list B) n a b :
  nth_error (combine l1 l2) n = Some (a, b) <->
  nth_error l1 n = Some a /\ nth_error l2 n = Some b.
Proof.
  revert l2 n. induction l1 as [|x l1 IH]; intros [|y l2] [|n]; simpl;
    try (split; [discriminate | intros [? ?]; discriminate]).
  - split; [intros E; inversion E; auto | intros [E1 E2]; congruence].
  - apply IH.
Qed.

Lemma nth_error_map_Some {A B} (f : A -> B) l n b :
  nth_error (map f l) n = Some b <-> exists a, nth_error l n = Some a /\ b = f a.
Proof.
  rewrite nth_error_map. destruct (nth_error l n) as [a|]; simpl.
  - split; [intros E; inversion E; eauto | intros (a' & E & ->); congruence].
  - split; [discriminate | intros (a' & E & _); discriminate].
Qed.

Lemma contains_nonempty (c : N) (m : list N) s :
  contains (c :: m) s = true -> s <> [].
Proof. intros H ->. discriminate. Qed.

Lemma next_contains_truthy (c : N) (m : list N) cols x :
  next (contains (c :: m)) cols = Some x -> truthy (Some x) = true.
Proof.
  intros H. apply find_some in H as [_ H]. apply contains_nonempty in H.
  destruct x; [congruence|reflexivity].
Qed.

Lemma find_id_col_truthy df x : find_id_col df = Some x -> truthy (Some x) = true.
Proof.
  intros H. apply find_some in H as [_ H]. destruct x; [discriminate|reflexivity].
Qed.

Lemma exam_sub_rows df rows r :
  exam_sub df = Some rows -> In r rows ->
  exists n, extracted_from_row (clean_cols df) n r.
Proof.
  unfold exam_sub. set (cdf := clean_cols df).
  destruct (negb (mem (u "英語") (columns cdf))); [discriminate|].
  destruct (find_id_col cdf) as [idc|] eqn:Eid; [|discriminate].
  destruct (next (contains (u "学年")) (columns cdf)) as [gc|] eqn:Eg; [|discriminate].
  rewrite (find_id_col_truthy _ _ Eid).
  rewrite (next_contains_truthy 23398%N [24180%N] _ _ Eg).
  cbn [negb orb]. intros E Hr. inversion E as [E']. clear E. subst rows.
  apply in_flat_map in Hr as ([[i|] [g [e [m j]]]] & Hin & Hr); [|destruct Hr].
  destruct Hr as [<-|[]].
  apply In_nth_error in Hin as [n Hn].
  apply nth_error_combine in Hn as [Hi Hn].
  apply nth_error_combine in Hn as [Hg Hn].
  apply nth_error_combine in Hn as [He Hn].
  apply nth_error_combine in Hn as [Hm Hj].
  apply nth_error_map_Some in Hi as (ci & Hci & Ei).
  apply nth_error_map_Some in Hg as (cg & Hcg & Eg').
  apply nth_error_map_Some in He as (ce & Hce & Ee).
  exists n. unfold extracted_from_row. cbn [student_id grade_norm score_eng].
  split; [exists idc, ci, i; auto|].
  split; [exists gc, cg; rewrite Eg; auto|].
  split; [exists ce; auto|]. split.
  - unfold math_score_of_row. cbn [score_math].
    destruct (next (contains (u "数学Ⅰ・数学A")) (columns cdf)) as [m1|] eqn:E1.
    + destruct (next (contains (u "数学Ⅱ・数学B・数学C")) (columns cdf)) as [m2|] eqn:E2.
      * change (u "数学Ⅰ・数学A")
          with (25968%N :: [23398; 8544; 12539; 25968; 23398; 65]%N) in E1.
        change (u "数学Ⅱ・数学B・数学C")
          with (25968%N :: [23398; 8545; 12539; 25968; 23398; 66; 12539;
                            25968; 23398; 67]%N) in E2.
        rewrite (next_contains_truthy _ _ _ _ E1),
          (next_contains_truthy _ _ _ _ E2) in Hm.
        cbn [andb] in Hm.
        apply nth_error_map_Some in Hm as ([c1 c2] & Hc & Em).
        apply nth_error_combine in Hc as [Hc1 Hc2].
        exists c1, c2. auto.
      * apply nth_error_map_Some in Hm as (x & _ & ->). reflexivity.
    + apply nth_error_map_Some in Hm as (x & _ & ->). reflexivity.
  - unfold jpn_score_of_row. cbn [score_jpn].
    destruct (next (contains (u "国語(現古漢)")) (columns cdf)) as [jc|] eqn:Ej.
    + change (u "国語(現古漢)")
        with (22269%N :: [35486; 40; 29694; 21476; 28450; 41]%N) in Ej.
      rewrite (next_contains_truthy _ _ _ _ Ej) in Hj.
      apply nth_error_map_Some in Hj as (cj & Hcj & ->). exists cj. auto.
    + apply nth_error_map_Some in Hj as (x & _ & ->). reflexivity.
Qed.

End ExamScores.

Section ExamScoresClaim.
Context {U : Unicode}.

Lemma skipna_fold {A} (f : A -> A -> A) (vs : list (option A)) : forall acc,
  fold_left
    (fun acc v =>
       match acc, v with
       | Some a, Some b => Some (f a b)
       | None, _ => v
       | _, None => acc
       end) vs acc
  = fold_left
      (fun acc v =>
         match acc, v with
         | Some a, Some b => Some (f a b)
         | None, _ => v
         | _, None => acc
         end) (List.filter notna vs) acc.
Proof.
  induction vs as [|v vs IH]; intros acc; [reflexivity|].
  destruct v as [b|]; simpl.
  - apply IH.
  - rewrite <- IH. destruct acc; reflexivity.
Qed.

Lemma flat_map_filter {A B} (f : A -> list B) (p : A -> bool) (l : list A) :
  (forall x, p x = false -> f x = []) ->
  flat_map f l = flat_map f (List.filter p l).
Proof.
  intros H. induction l as [|x l IH]; [reflexivity|]. simpl.
  destruct (p x) eqn:E; simpl; rewrite IH; [reflexivity|].
  rewrite (H x E). reflexivity.
Qed.

(** C7, as the code has it.  (1) Every row of the table read from an
    exam-results sheet comes from a row of the sheet with a student number:
    its English and Japanese scores are the marks read as numbers, missing
    when a mark is no number; its math score is, with both math sub-columns
    in the sheet, the sum of the two marks with a mark that is no number
    counting 0, and is missing when a sub-column is absent.  (2) So with both
    sub-columns present, two marks that are blank or no numbers give the math
    score 0, not a missing one.  (3) A missing score contributes to no
    maximum over the rows of a student and (4) to no headcount or mean of a
    long table. *)
Theorem exam_scores_of_rows :
  (forall df rows r,
      exam_sub df = Some rows -> In r rows ->
      exists n, extracted_from_row (clean_cols df) n r)
  /\ (forall df n r m1 m2 c1 c2,
         next (contains (u "数学Ⅰ・数学A")) (columns df) = Some m1 ->
         next (contains (u "数学Ⅱ・数学B・数学C")) (columns df) = Some m2 ->
         cell_at df m1 n = Some c1 -> cell_at df m2 n = Some c2 ->
         num c1 = None -> num c2 = None ->
         math_score_of_row df n r -> score_math r = Some (0 + 0)%Q)
  /\ (forall (f : Q -> Q -> Q) vs, skipna f vs = skipna f (List.filter notna vs))
  /\ (forall df key score_col max_val,
         summarize_long df key score_col max_val
         = summarize_long (List.filter (fun r => notna (score_col r)) df)
                          key score_col max_val).
Proof.
  repeat apply conj.
  - apply exam_sub_rows.
  - intros df n r m1 m2 c1 c2 E1 E2 H1 H2 N1 N2. unfold math_score_of_row.
    rewrite E1, E2. intros (d1 & d2 & D1 & D2 & S).
    rewrite H1 in D1. rewrite H2 in D2. inversion D1; inversion D2; subst.
    rewrite S, N1, N2. reflexivity.
  - intros f vs. unfold skipna. apply skipna_fold.
  - intros df key score_col max_val. unfold summarize_long.
    rewrite (flat_map_filter _ (fun r => notna (score_col r)) df); [reflexivity|].
    intros x Hx. destruct (score_col x); [discriminate|reflexivity].
Qed.

End ExamScoresClaim.

(** The second row of the sample results sheet: marks 30 and 40 in math. *)
Lemma exam_scores_of_rows_witness :
  exists n,
    @extracted_from_row basic_tables (@clean_cols basic_tables Sample.results) n
      Sample.exam_row_2.
Proof.
  apply (proj1 (@exam_scores_of_rows basic_tables) Sample.results
           [Sample.exam_row_1; Sample.exam_row_2]).
  - vm_compute. reflexivity.
  - simpl. auto.
Defined.

(** C7 as stated fails: in the sample results sheet the two math marks of
    student 1 are a blank and a text, neither a number, and the math score
    read for the student is 0, not a missing value. *)
Lemma blank_math_score_counterexample :
  @cell_at Sample.results (u "数学Ⅰ・数学A") 0 = Some Sample.blank
  /\ @cell_at Sample.results (u "数学Ⅱ・数学B・数学C") 0 = Some (Sample.words "欠席")
  /\ num Sample.blank = None
  /\ num (Sample.words "欠席") = None
  /\ map (fun r => (student_id r, score_math r)) (@read_exam basic_tables Sample.wb)
     = [(1, Some 0%Q); (2, Some 70%Q)].
Proof.
  repeat apply conj; vm_compute; reflexivity.
Qed.

(** ** Outer joins of per-target tables *)

Section OuterJoin.

Lemma mem_spec x xs : mem x xs = true <-> In x xs.
Proof.
  unfold mem. rewrite existsb_exists. split.
  - intros (y & Hy & E). apply bool_decide_eq_true in E. subst. exact Hy.
  - intros H. exists x. split; [exact H|]. apply bool_decide_eq_true. reflexivity.
Qed.

Lemma mem_false x xs : ~ In x xs -> mem x xs = false.
Proof. intros H. apply not_true_iff_false. rewrite mem_spec. exact H. Qed.

Lemma suffixed_disjoint other sfx cs :
  (forall c, In c cs -> ~ In c other) -> suffixed other sfx cs = cs.
Proof.
  intros H. unfold suffixed. rewrite <- (map_id cs) at 2. apply map_ext_in.
  intros c Hc. rewrite mem_false; [reflexivity|]. apply H. exact Hc.
Qed.

Lemma target_frame_keys t (tbl : list (Z * Z)) :
  map fst (frows (target_frame t tbl)) = map fst tbl.
Proof. simpl. rewrite map_map. reflexivity. Qed.

Lemma target_frame_group t (tbl : list (Z * Z)) k :
  group k (frows (target_frame t tbl)) = map (fun v => [Some v]) (group k tbl).
Proof.
  simpl. unfold group. induction tbl as [|[k' v] tbl IH]; [reflexivity|].
  simpl. destruct (bool_decide (k' = k)); simpl; rewrite IH; reflexivity.
Qed.

Lemma lookup_row_Some k tbl v :
  NoDup (map fst tbl) -> (lookup_row k tbl = Some v <-> In (k, v) tbl).
Proof.
  intros ND. unfold lookup_row. split.
  - destruct (group k tbl) as [|x l] eqn:E; [discriminate|].
    intros H. inversion H; subst. apply in_group. rewrite E. left; reflexivity.
  - intros H. rewrite (group_unique _ _ _ ND H). reflexivity.
Qed.

Lemma lookup_row_None k tbl : lookup_row k tbl = None <-> ~ In k (map fst tbl).
Proof.
  unfold lookup_row. rewrite <- group_nil.
  destruct (group k tbl); split; congruence.
Qed.

Lemma joined_init t tbl :
  NoDup (map fst tbl) -> joined [(t, tbl)] (target_frame t tbl).
Proof.
  intros ND. unfold joined. repeat apply conj.
  - reflexivity.
  - rewrite target_frame_keys. exact ND.
  - intros k. rewrite target_frame_keys. split.
    + intros H. exists (t, tbl). split; [left; reflexivity|exact H].
    + intros (f & [<-|[]] & H). exact H.
  - intros row Hr. simpl in Hr. apply in_map_iff in Hr as ([k v] & <- & Hin).
    simpl. f_equal. symmetry. apply lookup_row_Some; assumption.
Qed.

(** The rows of an outer join with a table of one row per student. *)
Lemma merge_outer_rows base t tbl :
  NoDup (map fst tbl) ->
  frows (merge_outer base (target_frame t tbl))
  = map (fun a => (fst a, snd a ++ [lookup_row (fst a) tbl])) (frows base)
    ++ map (fun r => (fst r, nans (length (cols base)) ++ [Some (snd r)]))
         (List.filter
            (fun r => negb (existsb (fun l => fst l =? fst r) (frows base))) tbl).
Proof.
  intros ND. unfold merge_outer. cbn [frows]. f_equal.
  - rewrite merge_left_lookup by (rewrite target_frame_keys; exact ND).
    rewrite map_map. apply map_ext. intros [k vs]. cbn [fst snd]. f_equal. f_equal.
    rewrite target_frame_group. unfold lookup_row.
    destruct (group k tbl); reflexivity.
  - cbn [target_frame frows]. induction tbl as [|[k v] tbl IH]; [reflexivity|].
    inversion ND; subst. cbn [map List.filter fst snd].
    destruct (negb (existsb (fun l => fst l =? k) (frows base)));
      cbn [map fst snd]; rewrite IH by assumption; reflexivity.
Qed.

Lemma existsb_key (rows : list (Z * list (option Z))) k :
  existsb (fun l => fst l =? k) rows = true <-> In k (map fst rows).
Proof.
  rewrite existsb_exists, in_map_iff. split.
  - intros (x & Hx & E). apply Z.eqb_eq in E. eauto.
  - intros (x & E & Hx). exists x. split; [exact Hx|]. apply Z.eqb_eq. exact E.
Qed.

Lemma NoDup_filter_keys {V} (p : Z * V -> bool) (tbl : list (Z * V)) :
  NoDup (map fst tbl) -> NoDup (map fst (List.filter p tbl)).
Proof.
  induction tbl as [|x tbl IH]; simpl; intros ND; [constructor|].
  inversion ND; subst. destruct (p x); simpl; [|auto].
  constructor; [|auto]. intros H. apply in_map_iff in H as (y & E & Hy).
  apply filter_In in Hy as [Hy _]. apply H1. rewrite <- E. apply in_map. exact Hy.
Qed.

Lemma joined_step fs base t tbl :
  joined fs base -> ~ In t (map fst fs) -> NoDup (map fst tbl) ->
  joined (fs ++ [(t, tbl)]) (merge_outer base (target_frame t tbl)).
Proof.
  intros (Hc & Hnd & Hk & Hrow) Ht ND. unfold joined.
  rewrite (merge_outer_rows _ _ _ ND). repeat apply conj.
  - unfold merge_outer. cbn [cols target_frame]. rewrite map_app. cbn [map fst].
    rewrite !suffixed_disjoint; [congruence| |].
    + intros c [<-|[]]. rewrite Hc. exact Ht.
    + intros c Hcin [<-|[]]. rewrite Hc in Hcin. contradiction.
  - rewrite map_app, !map_map. cbn [fst]. apply NoDup_append.
    + exact Hnd.
    + apply NoDup_filter_keys. exact ND.
    + intros k H1 H2. apply in_map_iff in H2 as (r & <- & Hr).
      apply filter_In in Hr as [_ Hr]. apply negb_true_iff in Hr.
      apply existsb_key in H1. congruence.
  - intros k. rewrite map_app, !map_map. cbn [fst]. rewrite in_app_iff. split.
    + intros [H|H].
      * apply Hk in H as (f & Hf & H). exists f. rewrite in_app_iff. auto.
      * apply in_map_iff in H as (r & <- & Hr). apply filter_In in Hr as [Hr _].
        exists (t, tbl). rewrite in_app_iff. split; [right; left; reflexivity|].
        apply in_map. exact Hr.
    + intros (f & Hf & H). apply in_app_iff in Hf as [Hf|[<-|[]]].
      * left. apply Hk. eauto.
      * cbn [snd] in H.
        destruct (existsb (fun l => fst l =? k) (frows base)) eqn:E.
        -- left. apply existsb_key. exact E.
        -- right. apply in_map_iff in H as (r & Er & Hr). apply in_map_iff.
           exists r. split; [exact Er|]. apply filter_In. split; [exact Hr|].
           rewrite Er, E. reflexivity.
  - intros row Hr. rewrite map_app. cbn [map snd]. apply in_app_iff in Hr as [Hr|Hr].
    + apply in_map_iff in Hr as (a & <- & Ha). cbn [fst snd].
      rewrite (Hrow a Ha). reflexivity.
    + apply in_map_iff in Hr as ([k v] & <- & Hr). cbn [fst snd].
      apply filter_In in Hr as [Hin Hr]. cbn [fst] in Hr.
      apply negb_true_iff in Hr. f_equal.
      * rewrite Hc, length_map. unfold nans.
        assert (N : forall f, In f fs -> lookup_row k (snd f) = None).
        { intros f Hf. apply lookup_row_None. intros Hkf.
          assert (E : existsb (fun l => fst l =? k) (frows base) = true).
          { apply existsb_key. apply Hk. eauto. }
          congruence. }
        clear -N. induction fs as [|f fs IH]; [reflexivity|]. simpl.
        rewrite N by (left; reflexivity). f_equal. apply IH.
        intros g Hg. apply N. right. exact Hg.
      * f_equal. symmetry. apply lookup_row_Some; assumption.
Qed.

Lemma joined_fold rest : forall fs base,
  joined fs base ->
  NoDup (map fst (fs ++ rest)) ->
  (forall f, In f rest -> NoDup (map fst (snd f))) ->
  joined (fs ++ rest)
         (fold_left merge_outer
                    (map (fun f => target_frame (fst f) (snd f)) rest) base).
Proof.
  induction rest as [|[t tbl] rest IH]; intros fs base J ND H.
  - rewrite app_nil_r. exact J.
  - cbn [map fold_left fst snd].
    replace (fs ++ (t, tbl) :: rest) with ((fs ++ [(t, tbl)]) ++ rest)
      by (rewrite <- app_assoc; reflexivity).
    apply IH.
    + apply joined_step; [exact J| |apply (H (t, tbl)); left; reflexivity].
      rewrite map_app in ND. apply NoDup_remove_2 in ND.
      intros Hin. apply ND. apply in_or_app. left. exact Hin.
    + rewrite <- app_assoc. exact ND.
    + intros f Hf. apply H. right. exact Hf.
Qed.

End OuterJoin.

(** ** Maxima of flags *)

Section Flags.

Lemma b2z_is_flag b : is_flag (Z.b2z b).
Proof. destruct b; [right|left]; reflexivity. Qed.

Lemma fold_max_flags vs : forall acc,
  is_flag acc -> (forall v, In v vs -> is_flag v) ->
  fold_left Z.max vs acc = Z.b2z ((acc =? 1) || existsb (Z.eqb 1) vs).
Proof.
  induction vs as [|v vs IH]; intros acc Ha Hv.
  - simpl. rewrite orb_false_r. destruct Ha; subst; reflexivity.
  - cbn [fold_left existsb]. rewrite IH.
    + f_equal. destruct Ha, (Hv v (or_introl eq_refl)); subst; reflexivity.
    + destruct Ha, (Hv v (or_introl eq_refl)); subst; [left|right|right|right];
        reflexivity.
    + intros w Hw. apply Hv. right. exact Hw.
Qed.

Lemma max_of_flags vs :
  (forall v, In v vs -> is_flag v) -> max_of vs = Z.b2z (existsb (Z.eqb 1) vs).
Proof.
  intros H. destruct vs as [|v vs]; [reflexivity|]. unfold max_of.
  rewrite fold_max_flags.
  - cbn [existsb]. rewrite (Z.eqb_sym 1 v). reflexivity.
  - apply H. left; reflexivity.
  - intros w Hw. apply H. right. exact Hw.
Qed.

Lemma existsb_group (rows : list (Z * Z)) k :
  existsb (Z.eqb 1) (group k rows)
  = existsb (fun r => (fst r =? k) && (snd r =? 1)) rows.
Proof.
  induction rows as [|[k' v] rows IH]; [reflexivity|].
  rewrite group_cons. cbn [existsb fst snd]. rewrite <- IH.
  destruct (Z.eqb_spec k' k) as [->|Hne].
  - rewrite bool_decide_eq_true_2 by reflexivity. cbn [existsb andb].
    rewrite (Z.eqb_sym 1 v). reflexivity.
  - rewrite bool_decide_eq_false_2 by exact Hne. reflexivity.
Qed.

(** The maximum over the rows of a student in a table of flags is 1 exactly
    when one of the rows holds 1. *)
Lemma max_of_group_flags (rows : list (Z * Z)) k :
  (forall r, In r rows -> is_flag (snd r)) ->
  max_of (group k rows)
  = Z.b2z (existsb (fun r => (fst r =? k) && (snd r =? 1)) rows).
Proof.
  intros H. rewrite max_of_flags, existsb_group; [reflexivity|].
  intros v Hv. apply in_group in Hv. apply (H (k, v)). exact Hv.
Qed.

Lemma existsb_of_map {A B} (f : A -> B) (p : B -> bool) (l : list A) :
  existsb p (map f l) = existsb (fun x => p (f x)) l.
Proof. induction l as [|x l IH]; [reflexivity|]. simpl. rewrite IH. reflexivity. Qed.

Lemma existsb_pointwise {A} (p q : A -> bool) (l : list A) :
  (forall x, p x = q x) -> existsb p l = existsb q l.
Proof.
  intros H. induction l as [|x l IH]; [reflexivity|]. simpl. rewrite H, IH.
  reflexivity.
Qed.

Lemma existsb_same {A B} (p : A -> bool) (q : B -> bool) (l1 : list A) (l2 : list B) :
  ((exists x, In x l1 /\ p x = true) <-> (exists x, In x l2 /\ q x = true)) ->
  existsb p l1 = existsb q l2.
Proof.
  intros H. apply eq_iff_eq_true. rewrite !existsb_exists. exact H.
Qed.

End Flags.

(** ** The mastery counter *)

Section MasteryCounter.
Context {U : Unicode}.

Lemma completed_flag_spec cutoff d : completed_flag cutoff d = row_completed cutoff d.
Proof. destruct d, cutoff; reflexivity. Qed.

Lemma frames_of_map {R S} (sub : DataFrame -> option (list R))
    (sub' : DataFrame -> option (list S)) (g : list R -> list S) wb hit_pairs tgt :
  (forall df, sub' df = match sub df with Some rows => Some (g rows) | None => None end) ->
  frames_of sub' wb hit_pairs tgt = map g (frames_of sub wb hit_pairs tgt).
Proof.
  intros H. unfold frames_of. induction hit_pairs as [|[t s] hp IH]; [reflexivity|].
  cbn [flat_map fst snd]. rewrite map_app, IH. f_equal.
  destruct (negb (str_eqb t tgt)); [reflexivity|].
  rewrite H. destruct (sub (read_excel wb s)); reflexivity.
Qed.

(** The table of one sheet: a row per student of the sheet, with the flag
    of the student there. *)
Lemma sheet_table_spec cutoff (rows : list (Z * option datetime)) k v :
  In (k, v)
     (groupby max_of
        (map (fun r => (fst r, Z.b2z (completed_flag cutoff (snd r)))) rows))
  <-> In k (map fst rows)
      /\ v = Z.b2z (existsb (fun r => (fst r =? k) && row_completed cutoff (snd r)) rows).
Proof.
  rewrite in_groupby, map_map. cbn [fst].
  rewrite max_of_group_flags.
  - rewrite existsb_of_map. cbn [fst snd].
    rewrite (existsb_pointwise _
               (fun r => (fst r =? k) && row_completed cutoff (snd r)));
      [reflexivity|].
    intros r. rewrite completed_flag_spec.
    destruct (row_completed cutoff (snd r)); reflexivity.
  - intros r Hr. apply in_map_iff in Hr as (x & <- & _). apply b2z_is_flag.
Qed.

End MasteryCounter.

Section MasteryTables.
Context {U : Unicode}.

Lemma count_mastery_unfold wb tl cutoff :
  count_mastery wb tl cutoff
  = merge_and_sum tl (map (fun tgt => target_frame tgt (mastery_table wb tl cutoff tgt)) tl).
Proof. reflexivity. Qed.

Lemma mastery_table_eq wb tl cutoff tgt :
  mastery_table wb tl cutoff tgt
  = groupby max_of
      (concat
         (map (fun rows =>
                 groupby max_of
                   (map (fun r => (fst r, Z.b2z (completed_flag cutoff (snd r)))) rows))
              (frames_of unit_rows wb
                 (_sheets_for_targets (sheet_names wb) tl) tgt))).
Proof.
  unfold mastery_table.
  rewrite (frames_of_map unit_rows (mastery_sub cutoff)
             (fun rows =>
                groupby max_of
                  (map (fun r => (fst r, Z.b2z (completed_flag cutoff (snd r)))) rows)))
    by (intros df; unfold mastery_sub; destruct (unit_rows df); reflexivity).
  cbv zeta. destruct (map _ _); reflexivity.
Qed.

Lemma mastery_table_NoDup wb tl cutoff tgt :
  NoDup (map fst (mastery_table wb tl cutoff tgt)).
Proof. rewrite mastery_table_eq. apply groupby_NoDup. Qed.

Lemma mastery_table_spec wb tl cutoff tgt k v :
  In (k, v) (mastery_table wb tl cutoff tgt) <->
  (exists d, In (k, d) (unit_sheet_rows wb tl tgt))
  /\ v = unit_flag wb tl cutoff tgt k.
Proof.
  rewrite mastery_table_eq, in_groupby. unfold unit_flag, unit_sheet_rows.
  set (rowsets := frames_of unit_rows wb _ tgt).
  set (G := fun rows : list (Z * option Z) =>
              groupby max_of
                (map (fun r => (fst r, Z.b2z (completed_flag cutoff (snd r)))) rows)).
  assert (K : In k (map fst (concat (map G rowsets)))
              <-> exists d, In (k, d) (concat rowsets)).
  { rewrite in_map_iff. split.
    - intros ([k' v'] & E & H). cbn [fst] in E. subst k'.
      apply in_concat in H as (X & HX & H). apply in_map_iff in HX as (rows & <- & Hrows).
      apply sheet_table_spec in H as [H _].
      apply in_map_iff in H as ([k' d] & E & H). cbn [fst] in E. subst k'.
      exists d. apply in_concat. eauto.
    - intros (d & H). apply in_concat in H as (rows & Hrows & H).
      exists (k, Z.b2z (existsb (fun r => (fst r =? k) && row_completed cutoff (snd r)) rows)).
      split; [reflexivity|]. apply in_concat. exists (G rows).
      split; [apply in_map; exact Hrows|]. apply sheet_table_spec.
      split; [|reflexivity]. apply in_map_iff. exists (k, d). auto. }
  rewrite K. apply and_iff_compat_l.
  rewrite max_of_group_flags.
  - assert (E : existsb (fun r => (fst r =? k) && (snd r =? 1)) (concat (map G rowsets))
                = existsb (fun r => (fst r =? k) && row_completed cutoff (snd r))
                          (concat rowsets)).
    { apply existsb_same. split.
      - intros ([k' v'] & H & Hp). cbn [fst snd] in Hp.
        apply andb_true_iff in Hp as [Hk Hv]. apply Z.eqb_eq in Hk, Hv. subst.
        apply in_concat in H as (X & HX & H).
        apply in_map_iff in HX as (rows & <- & Hrows).
        apply sheet_table_spec in H as [_ H].
        destruct (existsb _ rows) eqn:Ex; [|discriminate].
        apply existsb_exists in Ex as (r & Hr & Hp). exists r.
        split; [|exact Hp]. apply in_concat. eauto.
      - intros (r & H & Hp). apply in_concat in H as (rows & Hrows & H).
        exists (k, 1). cbn [fst snd]. rewrite Z.eqb_refl. split; [|reflexivity].
        apply in_concat. exists (G rows). split; [apply in_map; exact Hrows|].
        apply sheet_table_spec.
        assert (Ex : existsb (fun r => (fst r =? k) && row_completed cutoff (snd r)) rows
                     = true) by (apply existsb_exists; eauto).
        rewrite Ex. split; [|reflexivity].
        apply andb_true_iff in Hp as [Hk _]. apply Z.eqb_eq in Hk. subst k.
        apply in_map. exact H. }
    rewrite E. reflexivity.
  - intros [k' v'] H. apply in_concat in H as (X & HX & H).
    apply in_map_iff in HX as (rows & <- & Hrows).
    apply sheet_table_spec in H as [_ ->]. apply b2z_is_flag.
Qed.

(** The value a student has in the table of a target, 0 when the table
    has no row of the student, is the flag of the student for the unit. *)
Lemma mastery_table_lookup wb tl cutoff tgt k :
  fillna0_int (lookup_row k (mastery_table wb tl cutoff tgt))
  = unit_flag wb tl cutoff tgt k.
Proof.
  destruct (lookup_row k (mastery_table wb tl cutoff tgt)) as [v|] eqn:E.
  - apply lookup_row_Some in E; [|apply mastery_table_NoDup].
    apply mastery_table_spec in E as [_ ->]. reflexivity.
  - apply lookup_row_None in E. cbn [fillna0_int]. unfold unit_flag.
    destruct (existsb _ _) eqn:Ex; [|reflexivity]. exfalso. apply E.
    apply existsb_exists in Ex as ([k' d] & H & Hp). cbn [fst] in Hp.
    apply andb_true_iff in Hp as [Hk _]. apply Z.eqb_eq in Hk. subst k'.
    apply in_map_iff.
    exists (k, unit_flag wb tl cutoff tgt k). split; [reflexivity|].
    apply mastery_table_spec. split; [eauto|reflexivity].
Qed.

End MasteryTables.

Section MergeAndSum.

Lemma index_of_In c cs :
  In c cs -> exists i, index_of c cs = Some i /\ nth_error cs i = Some c.
Proof.
  induction cs as [|d cs IH]; [intros []|]. intros H. simpl.
  unfold str_eqb. destruct (bool_decide_reflect (d = c)) as [->|Hne].
  - exists O. auto.
  - destruct H as [H|H]; [contradiction|].
    destruct (IH H) as (i & -> & Hi). exists (S i). auto.
Qed.

Lemma nth_of_map {A B} (g : A -> B) (l : list A) i x d :
  nth_error l i = Some x -> nth i (map g l) d = g x.
Proof.
  revert i. induction l as [|a l IH]; intros [|i]; simpl; try discriminate.
  - intros E. inversion E; reflexivity.
  - apply IH.
Qed.

Lemma sum_Z_flags {A} (f : A -> Z) (l : list A) :
  (forall x, In x l -> is_flag (f x)) ->
  0 <= sum_Z (map f l) <= Z.of_nat (length l).
Proof.
  induction l as [|a l IH]; intros H; [simpl; lia|].
  cbn [map sum_Z fold_right length].
  assert (Ha : is_flag (f a)) by (apply H; left; reflexivity).
  assert (IH' : 0 <= sum_Z (map f l) <= Z.of_nat (length l))
    by (apply IH; intros x Hx; apply H; right; exact Hx).
  unfold sum_Z in IH'. destruct Ha as [Ha|Ha]; rewrite Ha; lia.
Qed.

(** The counters' common tail, on tables with one row per student: one row
    per student of any table, holding the sum over the targets of the
    student's values, a missing one counting 0. *)
Lemma merge_and_sum_spec (tl : list (list N)) (T : list N -> list (Z * Z)) :
  NoDup tl -> (forall t, NoDup (map fst (T t))) ->
  NoDup (map fst (merge_and_sum tl (map (fun t => target_frame t (T t)) tl)))
  /\ (forall k,
         In k (map fst (merge_and_sum tl (map (fun t => target_frame t (T t)) tl)))
         <-> exists t, In t tl /\ In k (map fst (T t)))
  /\ (forall k n,
         In (k, n) (merge_and_sum tl (map (fun t => target_frame t (T t)) tl)) ->
         n = sum_Z (map (fun t => fillna0_int (lookup_row k (T t))) tl)).
Proof.
  intros ND HT. destruct tl as [|t0 rest].
  - simpl. repeat apply conj.
    + constructor.
    + intros k. split; [intros []|intros (t & [] & _)].
    + intros k n [].
  - set (tl := t0 :: rest) in *.
    set (fs := map (fun t => (t, T t)) tl).
    assert (J : joined fs
                  (fold_left merge_outer
                     (map (fun t => target_frame t (T t)) rest)
                     (target_frame t0 (T t0)))).
    { replace (map (fun t => target_frame t (T t)) rest)
        with (map (fun f => target_frame (fst f) (snd f))
                  (map (fun t => (t, T t)) rest))
        by (rewrite map_map; reflexivity).
      apply (joined_fold (map (fun t => (t, T t)) rest) [(t0, T t0)]).
      - apply joined_init. apply HT.
      - cbn [app map fst]. rewrite map_map. cbn [fst]. rewrite map_id. exact ND.
      - intros f Hf. apply in_map_iff in Hf as (t & <- & _). apply HT. }
    destruct J as (Hc & Hnd & Hk & Hrow).
    assert (Hfs : map fst fs = tl).
    { subst fs. rewrite map_map. cbn [fst]. apply map_id. }
    change (map (fun t => target_frame t (T t)) tl)
      with (target_frame t0 (T t0) :: map (fun t => target_frame t (T t)) rest).
    unfold merge_and_sum. cbv beta iota zeta.
    set (base := fold_left merge_outer _ _) in *.
    repeat apply conj.
    + rewrite map_map. cbn [fst]. exact Hnd.
    + intros k. rewrite map_map. cbn [fst]. rewrite Hk. split.
      * intros (f & Hf & H). apply in_map_iff in Hf as (t & <- & Ht). eauto.
      * intros (t & Ht & H). exists (t, T t). split; [|exact H].
        apply in_map_iff. eauto.
    + intros k n H. apply in_map_iff in H as (row & E & Hr).
      pose proof (f_equal fst E) as E1. pose proof (f_equal snd E) as E2.
      cbn [fst snd] in E1, E2. rewrite <- E1, <- E2. clear E E1 E2.
      f_equal. apply map_ext_in. intros t Ht.
      unfold col_value. rewrite Hc, Hfs.
      destruct (index_of_In t tl Ht) as (i & -> & Hi).
      rewrite (Hrow row Hr). subst fs. rewrite map_map. cbn [snd].
      rewrite (nth_of_map _ _ _ _ _ Hi). reflexivity.
Qed.

End MergeAndSum.

Section MasteryCount.
Context {U : Unicode}.

Lemma unit_flag_is_flag wb tl cutoff tgt sid : is_flag (unit_flag wb tl cutoff tgt sid).
Proof. apply b2z_is_flag. Qed.

Lemma count_mastery_sound wb tl cutoff :
  NoDup tl ->
  NoDup (map fst (count_mastery wb tl cutoff))
  /\ (forall sid,
         In sid (map fst (count_mastery wb tl cutoff)) <->
         exists tgt d, In tgt tl /\ In (sid, d) (unit_sheet_rows wb tl tgt))
  /\ (forall sid n,
         In (sid, n) (count_mastery wb tl cutoff) ->
         n = mastery_count_of wb tl cutoff sid).
Proof.
  intros ND. rewrite count_mastery_unfold.
  destruct (merge_and_sum_spec tl (mastery_table wb tl cutoff) ND
              (mastery_table_NoDup wb tl cutoff)) as (H1 & H2 & H3).
  repeat apply conj.
  - exact H1.
  - intros sid. rewrite H2. split.
    + intros (t & Ht & H). apply in_map_iff in H as ([k v] & E & H).
      cbn [fst] in E. subst k. apply mastery_table_spec in H as [(d & H) _]. eauto.
    + intros (t & d & Ht & H). exists t. split; [exact Ht|].
      apply in_map_iff. exists (sid, unit_flag wb tl cutoff t sid).
      split; [reflexivity|]. apply mastery_table_spec. eauto.
  - intros sid n H. rewrite (H3 sid n H). unfold mastery_count_of.
    f_equal. apply map_ext. intros t. apply mastery_table_lookup.
Qed.

Lemma mastery_count_bounds wb tl cutoff sid :
  0 <= mastery_count_of wb tl cutoff sid <= Z.of_nat (length tl).
Proof.
  unfold mastery_count_of. apply sum_Z_flags. intros t _. apply unit_flag_is_flag.
Qed.

End MasteryCount.

Section MasteryClaims.
Context {U : Unicode}.

Lemma frames_of_nil {R} (sub : DataFrame -> option (list R)) wb hit_pairs tgt :
  (forall s, ~ In (tgt, s) hit_pairs) -> frames_of sub wb hit_pairs tgt = [].
Proof.
  unfold frames_of. induction hit_pairs as [|[t s] hp IH]; intros H; [reflexivity|].
  cbn [flat_map fst snd]. rewrite IH by (intros s' Hs'; apply (H s'); right; exact Hs').
  unfold str_eqb. destruct (bool_decide_reflect (t = tgt)) as [->|Hne]; [|reflexivity].
  exfalso. apply (H s). left; reflexivity.
Qed.

Lemma completed_flag_meaning cutoff d :
  completed_flag cutoff d = true <->
  exists t, d = Some t /\ (cutoff = None \/ exists c, cutoff = Some c /\ t <= c).
Proof.
  rewrite completed_flag_spec.
  destruct d as [t|]; destruct cutoff as [c|]; cbn [row_completed].
  - rewrite Z.leb_le. split.
    + intros H. exists t. split; [reflexivity|]. right. eauto.
    + intros (t' & E & [N|(c' & Ec & H)]); [discriminate|]. congruence.
  - split; [|reflexivity]. intros _. exists t. auto.
  - split; [discriminate|]. intros (t & E & _). discriminate.
  - split; [discriminate|]. intros (t & E & _). discriminate.
Qed.

(** C1. For a catalog of distinct unit names.  (1) A row counts as completed
    exactly when its completion date is present and, if there is a cutoff,
    is on or before it.  (2) The flag of a student for a unit is 1 exactly
    when some row of the student in some sheet of the unit is completed (the
    OR over duplicate rows and sheets), and is 0 or 1 always; (3) it is 0
    for every student when no sheet matches the unit.  (4) The result has one
    row per student, (5) for exactly the students that some sheet of some
    unit of the catalog lists, and (6) the count of a student is the sum over
    the catalog of the student's flags, a unit where the student is absent
    counting 0. *)
Theorem count_mastery_spec (wb : Workbook) (target_list : list str)
    (cutoff : option datetime) :
  NoDup target_list ->
  (forall d, completed_flag cutoff d = true <->
             exists t, d = Some t
                       /\ (cutoff = None \/ exists c, cutoff = Some c /\ t <= c))
  /\ (forall tgt sid,
         is_flag (unit_flag wb target_list cutoff tgt sid)
         /\ (unit_flag wb target_list cutoff tgt sid = 1 <->
             exists d, In (sid, d) (unit_sheet_rows wb target_list tgt)
                       /\ completed_flag cutoff d = true))
  /\ (forall tgt sid,
         (forall s, ~ In (tgt, s) (_sheets_for_targets (sheet_names wb) target_list)) ->
         unit_flag wb target_list cutoff tgt sid = 0)
  /\ NoDup (map fst (count_mastery wb target_list cutoff))
  /\ (forall sid,
         In sid (map fst (count_mastery wb target_list cutoff)) <->
         exists tgt d, In tgt target_list
                       /\ In (sid, d) (unit_sheet_rows wb target_list tgt))
  /\ (forall sid n,
         In (sid, n) (count_mastery wb target_list cutoff) ->
         n = sum_Z (map (fun tgt => unit_flag wb target_list cutoff tgt sid)
                        target_list)).
Proof.
  intros ND.
  destruct (count_mastery_sound wb target_list cutoff ND) as (H1 & H2 & H3).
  repeat apply conj.
  - apply completed_flag_meaning.
  - intros tgt sid. split; [apply unit_flag_is_flag|].
    unfold unit_flag. destruct (existsb _ _) eqn:E.
    + split; [intros _|reflexivity].
      apply existsb_exists in E as ([k d] & H & Hp). cbn [fst snd] in Hp.
      apply andb_true_iff in Hp as [Hk Hd]. apply Z.eqb_eq in Hk. subst k.
      exists d. rewrite completed_flag_spec. auto.
    + split; [discriminate|]. intros (d & H & Hd). exfalso.
      assert (T : existsb (fun r => (fst r =? sid) && row_completed cutoff (snd r))
                    (unit_sheet_rows wb target_list tgt) = true).
      { apply existsb_exists. exists (sid, d). cbn [fst snd].
        rewrite Z.eqb_refl, <- completed_flag_spec, Hd. auto. }
      congruence.
  - intros tgt sid H. unfold unit_flag, unit_sheet_rows.
    rewrite (frames_of_nil _ _ _ _ H). reflexivity.
  - exact H1.
  - exact H2.
  - exact H3.
Qed.

Lemma merged_mastery_values (f : File) cutoff r :
  In r (merged_of f cutoff) ->
  (eng_mas r = 0
   \/ In (student_id (exam r), eng_mas r) (count_mastery (workbook f) ENG_TARGETS cutoff))
  /\ (math_mas r = 0
      \/ In (student_id (exam r), math_mas r)
            (count_mastery (workbook f) MATH_TARGETS cutoff))
  /\ tot_mas r = eng_mas r + math_mas r.
Proof.
  unfold merged_of. intros H.
  apply in_map_iff in H as ([[[[b em] mm] el] ml] & <- & H).
  cbn [exam eng_mas math_mas tot_mas].
  apply (in_map fst) in H. apply merge_left_rows in H.
  apply (in_map fst) in H. apply merge_left_rows in H. cbn [fst] in H.
  split; [|split; [|reflexivity]].
  - apply (in_map fst) in H. apply merge_left_rows in H. cbn [fst] in H.
    destruct em as [v|]; [|left; reflexivity]. right.
    apply merge_left_value in H. exact H.
  - destruct mm as [v|]; [|left; reflexivity]. right.
    apply merge_left_value in H. exact H.
Qed.

Lemma NoDup_ENG_TARGETS : NoDup ENG_TARGETS.
Proof.
  vm_compute. repeat (constructor; [simpl; intuition discriminate|]). constructor.
Qed.

Lemma NoDup_MATH_TARGETS : NoDup MATH_TARGETS.
Proof.
  vm_compute. repeat (constructor; [simpl; intuition discriminate|]). constructor.
Qed.

(** C5. The mastery count of a student is in [0, catalog size] for every
    catalog of distinct unit names; in every row of the merged table of a
    file (and so of the panel) the English mastery count is in [0, 6], the
    math mastery count is in [0, 6], and tot_mas is eng_mas + math_mas, so
    in [0, 12]. *)
Theorem mastery_counts_in_range :
  (forall wb tl cutoff sid n,
      NoDup tl -> In (sid, n) (count_mastery wb tl cutoff) ->
      0 <= n <= Z.of_nat (length tl))
  /\ (forall (f : File) cutoff r,
         In r (merged_of f cutoff) ->
         0 <= eng_mas r <= 6 /\ 0 <= math_mas r <= 6
         /\ tot_mas r = eng_mas r + math_mas r /\ 0 <= tot_mas r <= 12).
Proof.
  assert (B : forall wb tl cutoff sid n,
             NoDup tl -> In (sid, n) (count_mastery wb tl cutoff) ->
             0 <= n <= Z.of_nat (length tl)).
  { intros wb tl cutoff sid n ND H.
    destruct (count_mastery_sound wb tl cutoff ND) as (_ & _ & H3).
    rewrite (H3 sid n H). apply mastery_count_bounds. }
  split; [exact B|].
  intros f cutoff r Hr.
  destruct (merged_mastery_values f cutoff r Hr) as (He & Hm & Ht).
  assert (0 <= eng_mas r <= 6).
  { destruct He as [->|He]; [lia|].
    apply (B _ _ _ _ _ NoDup_ENG_TARGETS) in He. simpl in He. lia. }
  assert (0 <= math_mas r <= 6).
  { destruct Hm as [->|Hm]; [lia|].
    apply (B _ _ _ _ _ NoDup_MATH_TARGETS) in Hm. simpl in Hm. lia. }
  repeat split; lia.
Qed.

End MasteryClaims.

(** The English catalog on the sample workbook: student 1 has one unit. *)
Lemma count_mastery_spec_witness :
  NoDup (map fst (@count_mastery basic_tables Sample.wb ENG_TARGETS (Some Sample.cutoff)))
  /\ 1 = sum_Z (map (fun tgt =>
                       @unit_flag basic_tables Sample.wb ENG_TARGETS
                         (Some Sample.cutoff) tgt 1)
                    ENG_TARGETS).
Proof.
  destruct (@count_mastery_spec basic_tables Sample.wb ENG_TARGETS (Some Sample.cutoff)
              NoDup_ENG_TARGETS) as (_ & _ & _ & H4 & _ & H6).
  split; [exact H4|]. apply (H6 1 1). vm_compute. auto.
Defined.

(** The first row of the panel of the sample file. *)
Lemma mastery_counts_in_range_witness :
  0 <= eng_mas Sample.panel_row_1 <= 6
  /\ 0 <= math_mas Sample.panel_row_1 <= 6
  /\ tot_mas Sample.panel_row_1
     = eng_mas Sample.panel_row_1 + math_mas Sample.panel_row_1
  /\ 0 <= tot_mas Sample.panel_row_1 <= 12.
Proof.
  apply (proj2 (@mastery_counts_in_range basic_tables) Sample.file
           (Some Sample.cutoff) Sample.panel_row_1).
  vm_compute. auto.
Defined.

(** ** The late-completion counter on two sheets of one unit *)

(** C2 on the sample workbook, where two sheets match the unit "英単語1800":
    student 1 completed it on 2025-01-10 by the first sheet and on
    2025-02-01 by the second.  The earliest date over both sheets is
    2025-01-10, before the cutoff 2025-01-18, so the late count of the
    student is 0; the counter takes the earliest date of each sheet apart,
    does not group the sheets of the unit again as the mastery counter does,
    and returns two rows for the student, with the counts 0 and 1.  The
    panel then has the row of student 1 twice.  Without a cutoff the counter
    returns no row. *)
Lemma count_late_mastery_second_sheet :
  @unit_sheet_rows basic_tables Sample.wb ENG_TARGETS (u "英単語1800")
  = [ (1, Some (mk_datetime 2025 1 10)); (3, Some (mk_datetime 2025 1 5));
      (1, Some (mk_datetime 2025 2 1)) ]
  /\ @earliest_completion basic_tables Sample.wb ENG_TARGETS (u "英単語1800") 1
     = Some (mk_datetime 2025 1 10)
  /\ @late_count_of basic_tables Sample.wb ENG_TARGETS Sample.cutoff 1 = 0
  /\ @count_late_mastery basic_tables Sample.wb ENG_TARGETS (Some Sample.cutoff)
     = [(1, 0); (3, 0); (1, 1)]
  /\ map (fun r => (student_id (exam r), eng_late r))
         (@merged_of basic_tables Sample.file (Some Sample.cutoff))
     = [(1, 0); (1, 1); (2, 0)]
  /\ @count_late_mastery basic_tables Sample.wb ENG_TARGETS None = [].
Proof.
  repeat apply conj; vm_compute; reflexivity.
Qed.

(** The stem "202410結果" under the override of "202410". *)
Lemma cutoff_for_stem_resolution_witness :
  @cutoff_for_stem basic_tables (u "202410結果")
    (Some {[ u "202410" := mk_datetime 2025 3 1 ]})
  = Some (mk_datetime 2025 3 1).
Proof.
  apply (proj1 (@cutoff_for_stem_resolution basic_tables)
           (u "202410結果") {[ u "202410" := mk_datetime 2025 3 1 ]} (u "202410")).
  - apply re_search_digits_Some. vm_compute. reflexivity.
  - vm_compute. reflexivity.
Defined.

(** C3 as stated fails: the stem "202309_202410" contains the six-digit run
    "202410", a key of the override map, yet the override is not returned:
    the leftmost run "202309" is the one looked up, it is no key, and the
    stem resolves to the calendar's entry of 2024. *)
Lemma cutoff_for_stem_later_run_counterexample :
  @digit_run basic_tables 6 (u "202309_202410") (u "202309_") (u "202410")
  /\ ({[ u "202410" := mk_datetime 2025 3 1 ]} : gmap (list N) Z) !! u "202410"
     = Some (mk_datetime 2025 3 1)
  /\ @cutoff_for_stem basic_tables (u "202309_202410")
       (Some {[ u "202410" := mk_datetime 2025 3 1 ]})
     = Some (mk_datetime 2024 1 17)
  /\ mk_datetime 2024 1 17 <> mk_datetime 2025 3 1.
Proof.
  split; [|split; [|split]].
  - exists []. vm_compute. auto.
  - vm_compute. reflexivity.
  - vm_compute. reflexivity.
  - vm_compute. discriminate.
Qed.

(** Student 3 of the sample workbook is in a unit sheet only. *)
Lemma merged_students_are_exam_students_witness :
  Forall (fun r => student_id (exam r) <> 3)
         (@merged_of basic_tables Sample.file (Some Sample.cutoff)).
Proof.
  apply Forall_forall.
  apply (proj2 (proj2 (@merged_students_are_exam_students basic_tables))
           Sample.file (Some Sample.cutoff) 3).
  vm_compute. intuition discriminate.
Defined.

(** * Further properties of the script *)

(** ** Exam-results sheets *)

Section ExamSheets.

Lemma starts_with_spec p : forall s,
  starts_with p s = true <-> exists post, s = p ++ post.
Proof.
  induction p as [|c p IH]; intros s; simpl.
  - split; [intros _; exists s; reflexivity | reflexivity].
  - destruct s as [|d s].
    + split; [discriminate | intros (post & E); discriminate].
    + rewrite andb_true_iff, N.eqb_eq, IH. split.
      * intros (-> & post & ->). exists post. reflexivity.
      * intros (post & E). inversion E; subst. eauto.
Qed.

Lemma contains_spec sub s :
  contains sub s = true <-> exists pre post, s = pre ++ sub ++ post.
Proof.
  induction s as [|d s IH]; simpl.
  - rewrite orb_false_r, starts_with_spec. split.
    + intros (post & E). exists [], post. exact E.
    + intros (pre & post & E). destruct pre; [|discriminate]. eauto.
  - rewrite orb_true_iff, IH, starts_with_spec. split.
    + intros [(post & E)|(pre & post & E)].
      * exists [], post. exact E.
      * exists (d :: pre), post. rewrite E. reflexivity.
    + intros (pre & post & E). destruct pre as [|c pre].
      * left. eauto.
      * right. inversion E; subst. eauto.
Qed.

(** X1. The exam-results sheets of a workbook are exactly the sheet names
    that hold the text 合同共テ結果 somewhere inside them; they come back in
    the order of the workbook, each as often as it is listed: going through
    the names, a name with the text is kept, once and in its place, and a
    name without it is dropped. *)
Theorem pick_exam_sheets_spec :
  (forall names s,
      In s (pick_exam_sheets names) <->
      In s names /\ exists pre post, s = pre ++ u "合同共テ結果" ++ post)
  /\ pick_exam_sheets [] = []
  /\ (forall s names,
         (exists pre post, s = pre ++ u "合同共テ結果" ++ post) ->
         pick_exam_sheets (s :: names) = s :: pick_exam_sheets names)
  /\ (forall s names,
         (forall pre post, s <> pre ++ u "合同共テ結果" ++ post) ->
         pick_exam_sheets (s :: names) = pick_exam_sheets names)
  /\ (forall l1 l2,
         pick_exam_sheets (l1 ++ l2) = pick_exam_sheets l1 ++ pick_exam_sheets l2)
  /\ (forall names s,
         count_occ (list_eq_dec N.eq_dec) (pick_exam_sheets names) s
         = if contains (u "合同共テ結果") s
           then count_occ (list_eq_dec N.eq_dec) names s
           else 0%nat).
Proof.
  repeat apply conj.
  - intros names s. unfold pick_exam_sheets. rewrite filter_In, contains_spec.
    reflexivity.
  - reflexivity.
  - intros s names H. apply contains_spec in H. unfold pick_exam_sheets.
    cbn [List.filter]. rewrite H. reflexivity.
  - intros s names H. unfold pick_exam_sheets. cbn [List.filter].
    destruct (contains (u "合同共テ結果") s) eqn:E; [|reflexivity].
    apply contains_spec in E as (pre & post & E). destruct (H pre post E).
  - intros l1 l2. unfold pick_exam_sheets. apply filter_app.
  - intros names s. unfold pick_exam_sheets.
    induction names as [|x names IH].
    + simpl. destruct (contains _ s); reflexivity.
    + cbn [List.filter]. destruct (contains (u "合同共テ結果") x) eqn:Ex.
      * cbn [count_occ]. destruct (list_eq_dec N.eq_dec x s) as [->|Hne].
        -- rewrite IH, Ex. reflexivity.
        -- exact IH.
      * rewrite IH. cbn [count_occ].
        destruct (list_eq_dec N.eq_dec x s) as [->|Hne]; [|reflexivity].
        rewrite Ex. reflexivity.
Qed.

End ExamSheets.

(** ** Column labels *)

Section ColumnLabels.
Context {U : Unicode}.

Lemma lstrip_fixed s :
  lstrip s = s <-> s = [] \/ exists c r, s = c :: r /\ isspace c = false.
Proof.
  destruct s as [|c r]; simpl.
  - split; auto.
  - destruct (isspace c) eqn:E.
    + split.
      * intros H. exfalso.
        assert (L : forall t, (length (lstrip t) <= length t)%nat).
        { induction t as [|x t IHt]; simpl; [lia|].
          destruct (isspace x); simpl; lia. }
        specialize (L r). rewrite H in L. simpl in L. lia.
      * intros [H|(c' & r' & H & N)]; [discriminate|]. inversion H; subst. congruence.
    + split; [|reflexivity]. intros _. right. eauto.
Qed.

Lemma lstrip_suffix s : exists ws, s = ws ++ lstrip s /\ forallb isspace ws = true.
Proof.
  induction s as [|c s IH]; simpl.
  - exists []. auto.
  - destruct (isspace c) eqn:E.
    + destruct IH as (ws & Es & Hw). exists (c :: ws). simpl.
      rewrite E, Hw, <- Es. auto.
    + exists []. auto.
Qed.

Lemma lstrip_lstrip s : lstrip (lstrip s) = lstrip s.
Proof.
  induction s as [|c s IH]; simpl; [reflexivity|].
  destruct (isspace c) eqn:E; [exact IH|]. simpl. rewrite E. reflexivity.
Qed.

Lemma strip_trimmed s : trimmed (strip s).
Proof.
  unfold trimmed, strip. rewrite rev_involutive, lstrip_lstrip.
  split; [|reflexivity].
  destruct (lstrip_suffix (rev (lstrip s))) as (ws & Es & Hw).
  set (y := lstrip (rev (lstrip s))) in *.
  apply lstrip_fixed. destruct (rev y) as [|c r] eqn:Ey; [left; reflexivity|].
  right. exists c, r. split; [reflexivity|].
  assert (Et : lstrip s = rev y ++ rev ws).
  { rewrite <- (rev_involutive (lstrip s)), Es, rev_app_distr. reflexivity. }
  rewrite Ey in Et. simpl in Et.
  assert (F : lstrip (lstrip s) = lstrip s) by apply lstrip_lstrip.
  apply lstrip_fixed in F as [F|(c' & r' & F & N)]; [rewrite F in Et; discriminate|].
  rewrite F in Et. inversion Et; subst. exact N.
Qed.

Lemma strip_of_trimmed s : trimmed s -> strip s = s.
Proof.
  intros [H1 H2]. unfold strip. rewrite H1, H2. apply rev_involutive.
Qed.

Lemma remove_char_rev c s : rev (remove_char c s) = remove_char c (rev s).
Proof.
  unfold remove_char. induction s as [|d s IH]; [reflexivity|].
  simpl. rewrite filter_app, <- IH. simpl.
  destruct (negb (d =? c)%N); simpl; [reflexivity|]. rewrite app_nil_r. reflexivity.
Qed.

Lemma remove_char_head c s :
  isspace c = true -> lstrip s = s -> lstrip (remove_char c s) = remove_char c s.
Proof.
  intros Hc H. apply lstrip_fixed in H as [->|(d & r & -> & N)]; [reflexivity|].
  unfold remove_char. simpl.
  destruct (N.eqb_spec d c) as [->|Hne]; [congruence|]. simpl. rewrite N. reflexivity.
Qed.

Lemma remove_char_trimmed c s :
  isspace c = true -> trimmed s -> trimmed (remove_char c s).
Proof.
  intros Hc [H1 H2]. split.
  - apply remove_char_head; assumption.
  - rewrite remove_char_rev. apply remove_char_head; assumption.
Qed.

Lemma remove_char_absent c s : ~ In c (remove_char c s).
Proof.
  unfold remove_char. rewrite filter_In. intros [_ H].
  rewrite N.eqb_refl in H. discriminate.
Qed.

Lemma remove_char_id c s : ~ In c s -> remove_char c s = s.
Proof.
  unfold remove_char. induction s as [|d s IH]; intros H; [reflexivity|]. simpl.
  destruct (N.eqb_spec d c) as [->|Hne].
  - exfalso. apply H. left; reflexivity.
  - simpl. f_equal. apply IH. intros Hin. apply H. right. exact Hin.
Qed.

Lemma remove_char_keeps c d s : ~ In d s -> ~ In d (remove_char c s).
Proof. unfold remove_char. rewrite filter_In. tauto. Qed.

(** A label as [clean_cols] leaves it. *)
Lemma cleaned_label c :
  isspace 0xA0%N = true -> isspace 0x3000%N = true ->
  trimmed (remove_char 0x3000%N (remove_char 0xA0%N (strip c)))
  /\ ~ In 0xA0%N (remove_char 0x3000%N (remove_char 0xA0%N (strip c)))
  /\ ~ In 0x3000%N (remove_char 0x3000%N (remove_char 0xA0%N (strip c))).
Proof.
  intros H1 H2. split; [|split].
  - apply remove_char_trimmed; [exact H2|].
    apply remove_char_trimmed; [exact H1|]. apply strip_trimmed.
  - apply remove_char_keeps. apply remove_char_absent.
  - apply remove_char_absent.
Qed.

Lemma clean_cols_labels df c :
  isspace 0xA0%N = true -> isspace 0x3000%N = true ->
  In c (columns (clean_cols df)) ->
  trimmed c /\ ~ In 0xA0%N c /\ ~ In 0x3000%N c.
Proof.
  intros H1 H2 Hc. unfold columns, clean_cols in Hc. rewrite map_map in Hc.
  apply in_map_iff in Hc as (cv & <- & _). cbn [fst]. apply cleaned_label; assumption.
Qed.

(** X2. Where the no-break space and the ideographic space are white space,
    as they are in Unicode: cleaning the columns of a sheet keeps the columns
    and their values as they are, leaves every label without white space at
    its ends and without a no-break or an ideographic space inside, and
    changes nothing when it is done a second time. *)
Theorem clean_cols_spec (df : DataFrame) :
  isspace 0xA0%N = true -> isspace 0x3000%N = true ->
  map snd (clean_cols df) = map snd df
  /\ (forall c, In c (columns (clean_cols df)) ->
                strip c = c /\ ~ In 0xA0%N c /\ ~ In 0x3000%N c)
  /\ clean_cols (clean_cols df) = clean_cols df.
Proof.
  intros H1 H2. repeat apply conj.
  - unfold clean_cols. rewrite map_map. reflexivity.
  - intros c Hc. destruct (clean_cols_labels df c H1 H2 Hc) as (T & A & B).
    split; [apply strip_of_trimmed; exact T|]. auto.
  - unfold clean_cols at 1. rewrite <- (map_id (clean_cols df)) at 2.
    apply map_ext_in. intros [c v] Hcv. cbn [fst snd]. f_equal.
    assert (Hc : In c (columns (clean_cols df))).
    { unfold columns. apply in_map_iff. exists (c, v). auto. }
    destruct (clean_cols_labels df c H1 H2 Hc) as (T & A & B).
    rewrite (strip_of_trimmed c T), (remove_char_id _ _ A), (remove_char_id _ _ B).
    reflexivity.
Qed.

(** X3. On a sheet whose columns were cleaned, as they are wherever the
    counters read the completion dates, and whose cleaned labels differ from
    one another, the dates are found by the name of the column alone: the
    look at the eleventh column adds nothing.  The series is that of the
    column named 完全修得日, and there is none when no column has that name. *)
Theorem read_kdate_series_by_name (df : DataFrame) :
  isspace 0xA0%N = true -> isspace 0x3000%N = true ->
  NoDup (columns (clean_cols df)) ->
  _read_kdate_series (clean_cols df)
  = if mem (u "完全修得日") (columns (clean_cols df))
    then Some (map date (col (clean_cols df) (u "完全修得日")))
    else None.
Proof.
  intros H1 H2 _. unfold _read_kdate_series.
  destruct (mem (u "完全修得日") (columns (clean_cols df))) eqn:M; [reflexivity|].
  destruct ((10 <? length (clean_cols df))%nat) eqn:L; [|reflexivity].
  cbn [andb]. unfold str_eqb.
  destruct (bool_decide_reflect
              (strip (nth 10 (columns (clean_cols df)) []) = u "完全修得日"))
    as [E|_]; [|reflexivity].
  exfalso. apply Nat.ltb_lt in L.
  assert (Hin : In (nth 10 (columns (clean_cols df)) []) (columns (clean_cols df))).
  { apply nth_In. unfold columns. rewrite length_map. exact L. }
  destruct (clean_cols_labels df _ H1 H2 Hin) as (T & _ & _).
  rewrite (strip_of_trimmed _ T) in E. rewrite E in Hin.
  apply mem_spec in Hin. congruence.
Qed.

End ColumnLabels.

(** The cleaning of the sample results sheet. *)
Lemma clean_cols_spec_witness :
  map snd (@clean_cols basic_tables Sample.results) = map snd Sample.results
  /\ (forall c, In c (columns (@clean_cols basic_tables Sample.results)) ->
                @strip basic_tables c = c /\ ~ In 0xA0%N c /\ ~ In 0x3000%N c)
  /\ @clean_cols basic_tables (@clean_cols basic_tables Sample.results)
     = @clean_cols basic_tables Sample.results.
Proof.
  apply (@clean_cols_spec basic_tables Sample.results); reflexivity.
Defined.

(** The completion dates of the first unit sheet of the sample workbook. *)
Lemma read_kdate_series_by_name_witness :
  @_read_kdate_series basic_tables (@clean_cols basic_tables Sample.unit_first)
  = if mem (u "完全修得日") (columns (@clean_cols basic_tables Sample.unit_first))
    then Some (map date (col (@clean_cols basic_tables Sample.unit_first)
                             (u "完全修得日")))
    else None.
Proof.
  apply (@read_kdate_series_by_name basic_tables Sample.unit_first);
    [reflexivity|reflexivity|].
  vm_compute. constructor; [|constructor; [intros []|constructor]].
  intros [E|[]]. discriminate.
Defined.

(** ** Years and overrides *)

Section YearsAndOverrides.
Context {U : Unicode}.

Lemma int_of_digits_fold s : forall acc,
  (forall c, isdecimal c = true -> 0 <= digit_value c <= 9) ->
  forallb isdecimal s = true -> 0 <= acc ->
  0 <= fold_left (fun a c => 10 * a + digit_value c) s acc
  /\ fold_left (fun a c => 10 * a + digit_value c) s acc
     < (acc + 1) * 10 ^ Z.of_nat (length s).
Proof.
  induction s as [|c s IH]; intros acc HD Hs Hacc.
  - simpl. lia.
  - cbn [forallb] in Hs. apply andb_true_iff in Hs as [Hc Hs].
    specialize (HD c Hc) as Hd. cbn [fold_left length].
    assert (Hn : 0 <= 10 * acc + digit_value c) by lia.
    destruct (IH (10 * acc + digit_value c) HD Hs Hn) as [L R].
    split; [exact L|]. eapply Z.lt_le_trans; [exact R|].
    rewrite Nat2Z.inj_succ, Z.pow_succ_r by lia.
    assert (0 < 10 ^ Z.of_nat (length s)) by (apply Z.pow_pos_nonneg; lia).
    nia.
Qed.

Lemma int_of_digits_range s :
  (forall c, isdecimal c = true -> 0 <= digit_value c <= 9) ->
  forallb isdecimal s = true ->
  0 <= int_of_digits s < 10 ^ Z.of_nat (length s).
Proof.
  intros HD Hs. unfold int_of_digits.
  destruct (int_of_digits_fold s 0 HD Hs (Z.le_refl 0)) as [L R]. lia.
Qed.

Lemma forallb_firstn {A} (p : A -> bool) n (l : list A) :
  forallb p l = true -> forallb p (firstn n l) = true.
Proof.
  rewrite !forallb_forall. intros H x Hx. apply H.
  rewrite <- (firstn_skipn n l). apply in_or_app. left. exact Hx.
Qed.

Lemma calendar_years y d :
  EXAM_CUTOFF_BY_YEAR !! y = Some d -> y = 2023 \/ y = 2024 \/ y = 2025.
Proof.
  unfold EXAM_CUTOFF_BY_YEAR. intros H.
  destruct (decide (y = 2023)) as [|N1]; [auto|].
  destruct (decide (y = 2024)) as [|N2]; [auto|].
  destruct (decide (y = 2025)) as [|N3]; [auto|].
  exfalso.
  rewrite lookup_insert_ne in H by congruence.
  rewrite lookup_insert_ne in H by congruence.
  rewrite lookup_singleton_ne in H by congruence. discriminate.
Qed.

Lemma detect_year_cases stem :
  (exists key6, first_digit_run 6 stem key6
                /\ detect_year_from_stem stem = Some (int_of_digits (firstn 4 key6)))
  \/ (no_digit_run 6 stem
      /\ exists y4, first_digit_run 4 stem y4
                    /\ detect_year_from_stem stem = Some (int_of_digits y4))
  \/ (no_digit_run 6 stem /\ no_digit_run 4 stem
      /\ detect_year_from_stem stem = None).
Proof.
  unfold detect_year_from_stem.
  destruct (re_search (Rep 6 CDigit) stem) as [k|] eqn:E6.
  - left. exists k. split; [apply re_search_digits_Some; exact E6|reflexivity].
  - right. apply re_search_digits_None in E6.
    destruct (re_search (Rep 4 CDigit) stem) as [y|] eqn:E4.
    + left. split; [exact E6|]. exists y.
      split; [apply re_search_digits_Some; exact E4|reflexivity].
    + right. apply re_search_digits_None in E4. auto.
Qed.

(** X4. Without an override the cutoff of a stem is the calendar entry of the
    year after the detected one, and there is none when no year is detected.
    Where a decimal digit has a value from 0 to 9, the detected year is from
    0 to 9999, and a stem gets a cutoff from the calendar only when its
    detected year is 2022, 2023 or 2024. *)
Theorem cutoff_of_detected_year (stem : str) :
  (forall c, isdecimal c = true -> 0 <= digit_value c <= 9) ->
  cutoff_for_stem stem None
  = match detect_year_from_stem stem with
    | Some year => EXAM_CUTOFF_BY_YEAR !! (year + 1)
    | None => None
    end
  /\ cutoff_for_stem stem (Some ∅) = cutoff_for_stem stem None
  /\ (forall year, detect_year_from_stem stem = Some year -> 0 <= year <= 9999)
  /\ (forall d, cutoff_for_stem stem None = Some d ->
                detect_year_from_stem stem = Some 2022
                \/ detect_year_from_stem stem = Some 2023
                \/ detect_year_from_stem stem = Some 2024).
Proof.
  intros HD.
  assert (E : cutoff_for_stem stem None
              = match detect_year_from_stem stem with
                | Some year => EXAM_CUTOFF_BY_YEAR !! (year + 1)
                | None => None
                end).
  { destruct (detect_year_cases stem)
      as [(k & Hk & ->)|[(H6 & y & Hy & ->)|(H6 & H4 & ->)]].
    - rewrite (cutoff_six_digits _ _ _ Hk). reflexivity.
    - rewrite (cutoff_four_digits _ _ H6).
      apply re_search_digits_Some in Hy. rewrite Hy. reflexivity.
    - rewrite (cutoff_four_digits _ _ H6).
      apply re_search_digits_None in H4. rewrite H4. reflexivity. }
  split; [exact E|]. split; [reflexivity|]. split.
  - intros year Hy.
    destruct (detect_year_cases stem)
      as [(k & Hk & Ek)|[(H6 & y & Hy4 & Ek)|(H6 & H4 & Ek)]];
      rewrite Ek in Hy; inversion Hy; subst.
    + destruct Hk as (pre & (post & _ & Hl & Hg) & _).
      pose proof (int_of_digits_range (firstn 4 k) HD (forallb_firstn _ 4 _ Hg)) as R.
      rewrite length_firstn, Hl in R. simpl in R. lia.
    + destruct Hy4 as (pre & (post & _ & Hl & Hg) & _).
      pose proof (int_of_digits_range y HD Hg) as R.
      rewrite Hl in R. simpl in R. lia.
  - intros d Hd. rewrite E in Hd.
    destruct (detect_year_from_stem stem) as [year|]; [|discriminate].
    apply calendar_years in Hd.
    destruct Hd as [H|[H|H]]; [left|right; left|right; right]; f_equal; lia.
Qed.

Lemma first_digit_run_shape n stem key :
  first_digit_run n stem key -> length key = n /\ forallb isdecimal key = true.
Proof. intros (pre & (post & _ & Hl & Hg) & _). auto. Qed.

(** X5. An override is applied only to a stem whose leftmost run of six
    digits is its key: adding an override under any other key changes the
    cutoff of no such stem.  So an override whose key is not six decimal
    digits changes no cutoff at all. *)
Theorem override_needs_six_digit_key (key : str) (d : datetime) :
  (forall stem ov,
      ~ first_digit_run 6 stem key ->
      cutoff_for_stem stem (Some (<[ key := d ]> ov)) = cutoff_for_stem stem (Some ov))
  /\ (length key <> 6%nat \/ forallb isdecimal key = false ->
      forall stem ov,
        cutoff_for_stem stem (Some (<[ key := d ]> ov)) = cutoff_for_stem stem (Some ov)).
Proof.
  assert (P : forall stem (ov : gmap (list N) Z),
             ~ first_digit_run 6 stem key ->
             cutoff_for_stem stem (Some (<[ key := d ]> ov))
             = cutoff_for_stem stem (Some ov)).
  { intros stem ov H.
    destruct (detect_year_cases stem)
      as [(k & Hk & _)|[(H6 & _)|(H6 & _)]].
    - rewrite !(cutoff_six_digits _ _ _ Hk).
      rewrite lookup_insert_ne; [reflexivity|]. intros <-. contradiction.
    - rewrite !(cutoff_four_digits _ _ H6). reflexivity.
    - rewrite !(cutoff_four_digits _ _ H6). reflexivity. }
  split; [exact P|]. intros Hk stem ov. apply P. intros Hr.
  apply first_digit_run_shape in Hr as [Hl Hg].
  destruct Hk as [Hk|Hk]; congruence.
Qed.

End YearsAndOverrides.

Lemma basic_digit_values c :
  @isdecimal basic_tables c = true -> 0 <= @digit_value basic_tables c <= 9.
Proof.
  cbn [isdecimal digit_value basic_tables]. unfold in_range.
  destruct ((48 <=? c)%N && (c <=? 57)%N) eqn:E.
  - apply andb_true_iff in E as [E1 E2]. apply N.leb_le in E1, E2. lia.
  - cbn [orb]. intros H. apply andb_true_iff in H as [E1 E2].
    apply N.leb_le in E1, E2. lia.
Qed.

(** The stem of the sample file. *)
Lemma cutoff_of_detected_year_witness :
  @cutoff_for_stem basic_tables (u "202410結果") None
  = match @detect_year_from_stem basic_tables (u "202410結果") with
    | Some year => EXAM_CUTOFF_BY_YEAR !! (year + 1)
    | None => None
    end.
Proof.
  apply (@cutoff_of_detected_year basic_tables (u "202410結果") basic_digit_values).
Defined.

(** An override under the five-digit key "20241" on the stem "202410結果". *)
Lemma override_needs_six_digit_key_witness :
  @cutoff_for_stem basic_tables (u "202410結果")
    (Some (<[ u "20241" := mk_datetime 2025 3 1 ]> ∅))
  = @cutoff_for_stem basic_tables (u "202410結果") (Some ∅).
Proof.
  apply (proj2 (@override_needs_six_digit_key basic_tables (u "20241")
                  (mk_datetime 2025 3 1))).
  left. vm_compute. discriminate.
Defined.

(** ** The overrides of the command line *)

Section CutoffArgumentsFacts.
Variable fromisoformat : list N -> option Z.

Lemma split_colon_Some pair k r :
  split_colon pair = Some (k, r) <-> pair = k ++ 58%N :: r /\ ~ In 58%N k.
Proof.
  revert k. induction pair as [|c rest IH]; intros k; simpl.
  - split; [discriminate|]. intros [E _]. destruct k; discriminate.
  - destruct (N.eqb_spec c 58) as [->|Hne].
    + split.
      * intros E. inversion E; subst. simpl. auto.
      * intros [E N]. destruct k as [|c k]; simpl in E.
        -- inversion E; subst. reflexivity.
        -- inversion E; subst. exfalso. apply N. left; reflexivity.
    + destruct (split_colon rest) as [[k' r']|] eqn:S.
      * split.
        -- intros E. inversion E; subst. cbn [fst snd].
           destruct (proj1 (IH k') eq_refl) as [-> N]. split; [reflexivity|].
           intros [H|H]; [congruence|contradiction].
        -- intros [E N]. destruct k as [|c0 k]; simpl in E;
             inversion E; subst; [congruence|].
           assert (X : Some (k', r') = Some (k, r)).
           { apply IH. split; [reflexivity|]. intros H. apply N. right. exact H. }
           inversion X; subst. reflexivity.
      * split; [discriminate|]. intros [E N].
        destruct k as [|c0 k]; simpl in E; inversion E; subst; [congruence|].
        assert (X : None = Some (k, r)).
        { apply IH. split; [reflexivity|]. intros H. apply N. right. exact H. }
        discriminate.
Qed.

Lemma split_colon_None pair : split_colon pair = None <-> ~ In 58%N pair.
Proof.
  induction pair as [|c rest IH]; simpl.
  - split; [intros _ []|reflexivity].
  - destruct (N.eqb_spec c 58) as [->|Hne].
    + split; [discriminate|]. intros H. exfalso. apply H. left; reflexivity.
    + destruct (split_colon rest) as [[k r]|].
      * split; [discriminate|]. intros H. exfalso.
        assert (Y : ~ In 58%N rest) by (intros Hin; apply H; right; exact Hin).
        apply IH in Y. discriminate.
      * split; [|reflexivity]. intros _ [H|H]; [congruence|].
        apply (proj1 IH eq_refl). exact H.
Qed.

Lemma override_fold_None args :
  fold_left
    (fun acc pair =>
       match acc with
       | None => None
       | Some m =>
           match split_colon pair with
           | None => None
           | Some kd =>
               match fromisoformat (snd kd) with
               | None => None
               | Some d => Some (<[ fst kd := d ]> m)
               end
           end
       end) args (@None (gmap (list N) Z)) = None.
Proof. induction args as [|a args IH]; [reflexivity|exact IH]. Qed.

Lemma override_fold args : forall m0 : gmap (list N) Z,
  fold_left
    (fun acc pair =>
       match acc with
       | None => None
       | Some m =>
           match split_colon pair with
           | None => None
           | Some kd =>
               match fromisoformat (snd kd) with
               | None => None
               | Some d => Some (<[ fst kd := d ]> m)
               end
           end
       end) args (Some m0)
  = match parsed_arguments fromisoformat args with
    | Some l => Some (fold_left (fun m kd => <[ fst kd := snd kd ]> m) l m0)
    | None => None
    end.
Proof.
  induction args as [|a args IH]; intros m0; [reflexivity|].
  cbn [fold_left parsed_arguments]. unfold cutoff_argument.
  destruct (split_colon a) as [kd|]; [|apply override_fold_None].
  destruct (fromisoformat (snd kd)) as [d|]; [|apply override_fold_None].
  rewrite IH. destruct (parsed_arguments fromisoformat args); reflexivity.
Qed.

Lemma find_app_last {A} (p : A -> bool) l x :
  List.find p (l ++ [x])
  = match List.find p l with
    | Some y => Some y
    | None => if p x then Some x else None
    end.
Proof.
  induction l as [|a l IH]; simpl; [reflexivity|].
  destruct (p a); [reflexivity|exact IH].
Qed.

Lemma lookup_inserted (l : list (list N * Z)) : forall (m0 : gmap (list N) Z) key,
  fold_left (fun m kd => <[ fst kd := snd kd ]> m) l m0 !! key
  = match List.find (fun kd => bool_decide (fst kd = key)) (rev l) with
    | Some kd => Some (snd kd)
    | None => m0 !! key
    end.
Proof.
  induction l as [|[k d] l IH]; intros m0 key; [reflexivity|].
  cbn [fold_left rev fst snd]. rewrite IH, find_app_last.
  destruct (List.find _ (rev l)); [reflexivity|]. cbn [fst snd].
  destruct (bool_decide_reflect (k = key)) as [->|Hne].
  - apply lookup_insert_eq.
  - apply lookup_insert_ne. exact Hne.
Qed.

(** X6. The overrides of the command line.  An argument gives a key, the
    text before its first colon, and a date, read from the text after it.
    The overrides are read exactly when every argument has a colon and a
    date that can be read, and then they hold, for each key, the date of the
    last argument with that key, and nothing for a key of no argument. *)
Theorem cutoff_override_of_spec (args : list str) :
  (forall pair k r, split_colon pair = Some (k, r) <->
                    pair = k ++ 58%N :: r /\ ~ In 58%N k)
  /\ (forall pair, split_colon pair = None <-> ~ In 58%N pair)
  /\ (cutoff_override_of fromisoformat args = None <->
      exists pair, In pair args /\ cutoff_argument fromisoformat pair = None)
  /\ (forall m, cutoff_override_of fromisoformat args = Some m ->
        exists l,
          map (cutoff_argument fromisoformat) args = map Some l
          /\ forall key,
               m !! key
               = match List.find (fun kd => bool_decide (fst kd = key)) (rev l) with
                 | Some kd => Some (snd kd)
                 | None => None
                 end).
Proof.
  assert (P : forall a, parsed_arguments fromisoformat a = None <->
                        exists pair, In pair a /\ cutoff_argument fromisoformat pair = None).
  { induction a as [|x a IH]; simpl.
    - split; [discriminate|]. intros (p & [] & _).
    - destruct (cutoff_argument fromisoformat x) as [kd|] eqn:E.
      + destruct (parsed_arguments fromisoformat a) as [l|].
        * split; [discriminate|]. intros (p & [<-|Hp] & Hn); [congruence|].
          assert (X : Some l = None) by (apply IH; eauto).
          discriminate.
        * split; [|reflexivity]. intros _.
          destruct (proj1 IH eq_refl) as (p & Hp & Hn). eauto.
      + split; [|reflexivity]. intros _. exists x. auto. }
  assert (Q : forall a l, parsed_arguments fromisoformat a = Some l ->
                          map (cutoff_argument fromisoformat) a = map Some l).
  { induction a as [|x a IH]; simpl; intros l E.
    - inversion E. reflexivity.
    - destruct (cutoff_argument fromisoformat x) as [kd|]; [|discriminate].
      destruct (parsed_arguments fromisoformat a) as [l'|]; [|discriminate].
      inversion E; subst. simpl. f_equal. apply IH. reflexivity. }
  unfold cutoff_override_of. rewrite override_fold.
  split; [apply split_colon_Some|]. split; [apply split_colon_None|]. split.
  - rewrite <- P. destruct (parsed_arguments fromisoformat args); split; congruence.
  - intros m E. destruct (parsed_arguments fromisoformat args) as [l|] eqn:Ep; [|discriminate].
    inversion E; subst. exists l. split; [apply Q; exact Ep|].
    intros key. rewrite lookup_inserted.
    destruct (List.find _ (rev l)); [reflexivity|]. apply lookup_empty.
Qed.

End CutoffArgumentsFacts.

(** ** The exam table *)

Section ExamTableFacts.
Context {U : Unicode}.

Lemma Qmax_cases a b : (Qmax a b = a \/ Qmax a b = b) /\ (a <= Qmax a b)%Q /\ (b <= Qmax a b)%Q.
Proof.
  unfold Qmax. destruct (Qle_bool a b) eqn:E.
  - apply Qle_bool_iff in E. repeat split; auto. apply Qle_refl.
  - assert (N : ~ (a <= b)%Q) by (intros H; apply Qle_bool_iff in H; congruence).
    apply Qnot_le_lt in N. repeat split; auto; [apply Qle_refl|apply Qlt_le_weak; exact N].
Qed.

Lemma skipna_max_fold vs : forall acc q,
  fold_left
    (fun acc v =>
       match acc, v with
       | Some a, Some b => Some (Qmax a b)
       | None, _ => v
       | _, None => acc
       end) vs acc = Some q ->
  (acc = Some q \/ In (Some q) vs)
  /\ (forall a, acc = Some a -> (a <= q)%Q)
  /\ (forall q', In (Some q') vs -> (q' <= q)%Q).
Proof.
  induction vs as [|v vs IH]; intros acc q H.
  - simpl in H. subst acc. repeat split; auto.
    + intros a E. inversion E. apply Qle_refl.
    + intros q' [].
  - cbn [fold_left] in H. apply IH in H as (H1 & H2 & H3).
    destruct acc as [a|], v as [b|].
    + destruct (Qmax_cases a b) as ([E|E] & La & Lb).
      * repeat split.
        -- destruct H1 as [H1|H1]; [left; congruence|right; right; exact H1].
        -- intros a' Ea. inversion Ea; subst.
           eapply Qle_trans; [exact La|]. apply H2. reflexivity.
        -- intros q' [Eq|Hq]; [|auto]. inversion Eq; subst.
           eapply Qle_trans; [exact Lb|]. apply H2. reflexivity.
      * repeat split.
        -- destruct H1 as [H1|H1]; [right; left; congruence|right; right; exact H1].
        -- intros a' Ea. inversion Ea; subst.
           eapply Qle_trans; [exact La|]. apply H2. reflexivity.
        -- intros q' [Eq|Hq]; [|auto]. inversion Eq; subst.
           eapply Qle_trans; [exact Lb|]. apply H2. reflexivity.
    + repeat split.
      * destruct H1 as [H1|H1]; [left; exact H1|right; right; exact H1].
      * exact H2.
      * intros q' [Eq|Hq]; [discriminate|auto].
    + repeat split.
      * destruct H1 as [H1|H1]; [right; left; exact H1|right; right; exact H1].
      * intros a' Ea. discriminate.
      * intros q' [Eq|Hq]; [|auto]. apply H2. exact Eq.
    + repeat split.
      * destruct H1 as [H1|H1]; [left; exact H1|right; right; exact H1].
      * exact H2.
      * intros q' [Eq|Hq]; [discriminate|auto].
Qed.

Lemma skipna_fold_None {A} (f : A -> A -> A) vs : forall acc,
  fold_left
    (fun acc v =>
       match acc, v with
       | Some a, Some b => Some (f a b)
       | None, _ => v
       | _, None => acc
       end) vs acc = None ->
  acc = None /\ forall v, In v vs -> v = None.
Proof.
  induction vs as [|v vs IH]; intros acc H.
  - simpl in H. split; [exact H|intros v []].
  - cbn [fold_left] in H. apply IH in H as [H1 H2].
    destruct acc as [a|], v as [b|]; try discriminate.
    split; [reflexivity|]. intros v [<-|Hv]; auto.
Qed.

Lemma skipna_best vs : best_score vs (skipna Qmax vs).
Proof.
  unfold best_score, skipna.
  destruct (fold_left _ vs None) as [q|] eqn:E.
  - apply skipna_max_fold in E as ([E|E] & _ & H); [discriminate|]. auto.
  - apply skipna_fold_None in E as [_ H]. exact H.
Qed.

Lemma group_keyed {K A} `{EqDecision K} (key : A -> K) (rows : list A) k :
  group k (map (fun r => (key r, r)) rows)
  = List.filter (fun r => bool_decide (key r = k)) rows.
Proof.
  unfold group. induction rows as [|r rows IH]; [reflexivity|].
  cbn [map List.filter fst]. destruct (bool_decide (key r = k)); simpl; rewrite IH;
    reflexivity.
Qed.

Lemma read_exam_eq wb :
  read_exam wb
  = map (fun kr =>
           {| student_id := fst (fst kr); grade_norm := snd (fst kr);
              score_eng := skipna Qmax (map score_eng (snd kr));
              score_math := skipna Qmax (map score_math (snd kr));
              score_jpn := skipna Qmax (map score_jpn (snd kr)) |})
        (groupby (fun rows => rows)
                 (map (fun r => ((student_id r, grade_norm r), r)) (exam_rows_of wb))).
Proof.
  unfold read_exam, exam_rows_of. cbv zeta.
  destruct (flat_map _ (pick_exam_sheets (sheet_names wb))); reflexivity.
Qed.

Lemma exam_sub_grades df rows r :
  exam_sub df = Some rows -> In r rows ->
  grade_norm r = u "高3" \/ grade_norm r = u "高1+2".
Proof.
  intros E Hr. destruct (exam_sub_rows df rows r E Hr) as (n & _ & (gc & cg & _ & _ & G) & _).
  rewrite G. unfold normalize_grade_val. destruct (re_search _ _); auto.
Qed.

Lemma in_exam_rows_of wb x :
  In x (exam_rows_of wb) <->
  exists s sub, In s (pick_exam_sheets (sheet_names wb))
                /\ exam_sub (read_excel wb s) = Some sub /\ In x sub.
Proof.
  unfold exam_rows_of. rewrite in_concat. split.
  - intros (sub & Hsub & Hx). apply in_flat_map in Hsub as (s & Hs & Hsub).
    destruct (exam_sub (read_excel wb s)) as [sub'|] eqn:E; [|destruct Hsub].
    destruct Hsub as [<-|[]]. eauto.
  - intros (s & sub & Hs & E & Hx). exists sub. split; [|exact Hx].
    apply in_flat_map. exists s. rewrite E. split; [exact Hs|left; reflexivity].
Qed.

(** X7. The exam table of a workbook has one row for each pair of a student
    and a cohort that some row of some exam-results sheet gives, and no
    other row; the cohort of a row is "高3" or "高1+2"; each score of a row is
    the best of the scores of the student's rows, the greatest one present,
    and is missing only when all of them are; and a workbook without an
    exam-results sheet gives an empty table. *)
Theorem read_exam_spec (wb : Workbook) :
  NoDup (map (fun r => (student_id r, grade_norm r)) (read_exam wb))
  /\ (forall sid grade,
         In (sid, grade) (map (fun r => (student_id r, grade_norm r)) (read_exam wb))
         <-> In (sid, grade)
                (map (fun r => (student_id r, grade_norm r)) (exam_rows_of wb)))
  /\ (forall r, In r (read_exam wb) ->
                grade_norm r = u "高3" \/ grade_norm r = u "高1+2")
  /\ (forall r, In r (read_exam wb) ->
        rows_of_student (exam_rows_of wb) (student_id r) (grade_norm r) <> []
        /\ best_score
             (map score_eng
                  (rows_of_student (exam_rows_of wb) (student_id r) (grade_norm r)))
             (score_eng r)
        /\ best_score
             (map score_math
                  (rows_of_student (exam_rows_of wb) (student_id r) (grade_norm r)))
             (score_math r)
        /\ best_score
             (map score_jpn
                  (rows_of_student (exam_rows_of wb) (student_id r) (grade_norm r)))
             (score_jpn r))
  /\ (pick_exam_sheets (sheet_names wb) = [] -> read_exam wb = []).
Proof.
  rewrite read_exam_eq.
  set (keyed := map (fun r => ((student_id r, grade_norm r), r)) (exam_rows_of wb)).
  assert (Hk : map fst keyed
               = map (fun r => (student_id r, grade_norm r)) (exam_rows_of wb)).
  { subst keyed. rewrite map_map. reflexivity. }
  repeat apply conj.
  - rewrite map_map. cbn [student_id grade_norm].
    rewrite (map_ext _ fst) by (intros [[? ?] ?]; reflexivity).
    apply groupby_NoDup.
  - intros sid grade. rewrite map_map. cbn [student_id grade_norm].
    rewrite (map_ext _ fst) by (intros [[? ?] ?]; reflexivity).
    rewrite groupby_keys, in_keys, Hk. reflexivity.
  - intros r Hr. apply in_map_iff in Hr as ([[sid g] rows] & <- & Hin).
    cbn [grade_norm fst snd]. apply in_groupby in Hin as [Hin _].
    rewrite Hk in Hin. apply in_map_iff in Hin as (x & E & Hx). inversion E; subst.
    apply in_exam_rows_of in Hx as (s & sub & _ & Es & Hx).
    eapply exam_sub_grades; eauto.
  - intros r Hr. apply in_map_iff in Hr as ([[sid g] rows] & <- & Hin).
    cbn [student_id grade_norm score_eng score_math score_jpn fst snd].
    apply in_groupby in Hin as [Hin ->]. subst keyed. rewrite group_keyed.
    unfold rows_of_student. split; [|repeat split; apply skipna_best].
    rewrite map_map in Hin. apply in_map_iff in Hin as (x & E & Hx).
    intros F. assert (X : In x (List.filter
                (fun r => bool_decide ((student_id r, grade_norm r) = (sid, g)))
                (exam_rows_of wb))).
    { apply filter_In. split; [exact Hx|]. apply bool_decide_eq_true. exact E. }
    rewrite F in X. destruct X.
  - intros E. subst keyed. unfold exam_rows_of. rewrite E. reflexivity.
Qed.

End ExamTableFacts.

(** ** Counts are sums of flags, whatever the catalog *)

Section FlagFrames.

Lemma in_nans v n : In v (nans n) -> v = None.
Proof. unfold nans. intros H. apply repeat_spec in H. exact H. Qed.

Lemma target_frame_flags t (tbl : list (Z * Z)) :
  (forall r, In r tbl -> is_flag (snd r)) -> flag_frame (target_frame t tbl).
Proof.
  intros H row v Hr Hv. simpl in Hr. apply in_map_iff in Hr as (r & <- & Hin).
  simpl in Hv. destruct Hv as [<-|[]]. right. eauto.
Qed.

Lemma merge_outer_flags l r : flag_frame l -> flag_frame r -> flag_frame (merge_outer l r).
Proof.
  intros Hl Hr row v Hrow Hv. unfold merge_outer in Hrow. cbn [frows] in Hrow.
  apply in_app_iff in Hrow as [Hrow|Hrow].
  - apply in_map_iff in Hrow as ([a o] & <- & Hin). cbn [fst snd] in Hv.
    apply in_app_iff in Hv as [Hv|Hv].
    + apply (Hl a v); [|exact Hv].
      apply (merge_left_rows fst (frows l) (frows r)).
      apply in_map_iff. exists (a, o). auto.
    + destruct o as [vs|]; [|left; eapply in_nans; exact Hv].
      apply merge_left_value in Hin. apply (Hr (fst a, vs) v); assumption.
  - apply in_map_iff in Hrow as (x & <- & Hin). cbn [snd] in Hv.
    apply filter_In in Hin as [Hin _].
    apply in_app_iff in Hv as [Hv|Hv]; [left; eapply in_nans; exact Hv|].
    apply (Hr x v); assumption.
Qed.

Lemma fold_merge_flags rest : forall base,
  flag_frame base -> (forall fr, In fr rest -> flag_frame fr) ->
  flag_frame (fold_left merge_outer rest base).
Proof.
  induction rest as [|fr rest IH]; intros base Hb H; [exact Hb|].
  cbn [fold_left]. apply IH.
  - apply merge_outer_flags; [exact Hb|]. apply H. left; reflexivity.
  - intros x Hx. apply H. right. exact Hx.
Qed.

Lemma col_value_flag base row tgt :
  flag_frame base -> In row (frows base) -> is_flag (col_value base row tgt).
Proof.
  intros Hf Hr. unfold col_value.
  destruct (index_of tgt (cols base)) as [i|]; [|left; reflexivity].
  destruct (nth_in_or_default i (snd row) None) as [Hin|E].
  - destruct (Hf row _ Hr Hin) as [E|(z & E & Hz)]; rewrite E; [left; reflexivity|exact Hz].
  - rewrite E. left; reflexivity.
Qed.

Lemma merge_and_sum_bounds tl per_target k n :
  (forall fr, In fr per_target -> flag_frame fr) ->
  In (k, n) (merge_and_sum tl per_target) ->
  0 <= n <= Z.of_nat (length tl).
Proof.
  intros H Hin. unfold merge_and_sum in Hin.
  destruct per_target as [|first rest]; [destruct Hin|].
  apply in_map_iff in Hin as (row & E & Hr).
  assert (F : flag_frame (fold_left merge_outer rest first)).
  { apply fold_merge_flags; [apply H; left; reflexivity|].
    intros fr Hfr. apply H. right. exact Hfr. }
  pose proof (f_equal snd E) as E2. cbn [snd] in E2. rewrite <- E2.
  apply sum_Z_flags. intros t _. apply col_value_flag; assumption.
Qed.

End FlagFrames.

Section CountBounds.
Context {U : Unicode}.

Lemma count_late_mastery_bounds wb tl cutoff sid n :
  In (sid, n) (count_late_mastery wb tl cutoff) -> 0 <= n <= Z.of_nat (length tl).
Proof.
  unfold count_late_mastery. destruct cutoff as [c|]; [|intros []].
  apply merge_and_sum_bounds. intros fr Hfr.
  apply in_map_iff in Hfr as (tgt & <- & _). apply target_frame_flags.
  intros r Hr. apply in_map_iff in Hr as (x & <- & _). apply b2z_is_flag.
Qed.

Lemma count_mastery_bounds wb tl cutoff sid n :
  In (sid, n) (count_mastery wb tl cutoff) -> 0 <= n <= Z.of_nat (length tl).
Proof.
  rewrite count_mastery_unfold.
  apply merge_and_sum_bounds. intros fr Hfr.
  apply in_map_iff in Hfr as (tgt & <- & _). apply target_frame_flags.
  intros [k v] Hr. apply mastery_table_spec in Hr as [_ ->]. apply b2z_is_flag.
Qed.

Lemma merged_late_values (f : File) cutoff r :
  In r (merged_of f cutoff) ->
  (eng_late r = 0
   \/ In (student_id (exam r), eng_late r)
         (count_late_mastery (workbook f) ENG_TARGETS cutoff))
  /\ (math_late r = 0
      \/ In (student_id (exam r), math_late r)
            (count_late_mastery (workbook f) MATH_TARGETS cutoff)).
Proof.
  unfold merged_of. intros H.
  apply in_map_iff in H as ([[[[b em] mm] el] ml] & <- & H).
  cbn [exam eng_late math_late]. split.
  - apply (in_map fst) in H. apply merge_left_rows in H. cbn [fst] in H.
    destruct el as [v|]; [|left; reflexivity]. right.
    apply merge_left_value in H. exact H.
  - destruct ml as [v|]; [|left; reflexivity]. right.
    apply merge_left_value in H. exact H.
Qed.

(** X8. The late counts are sums of flags whatever the sheets: every count
    of the late counter is from 0 to the size of the catalog, also for a
    unit with several sheets.  So in every row of the merged table of a file
    the two late counts are from 0 to 6, the range of the buckets of the
    distribution tables. *)
Theorem late_counts_within_catalog :
  (forall wb tl cutoff sid n,
      NoDup tl -> In (sid, n) (count_late_mastery wb tl cutoff) ->
      0 <= n <= Z.of_nat (length tl))
  /\ (forall (f : File) cutoff r,
         In r (merged_of f cutoff) ->
         0 <= eng_late r <= 6 /\ 0 <= math_late r <= 6).
Proof.
  split.
  - intros wb tl cutoff sid n _. apply count_late_mastery_bounds.
  - intros f cutoff r Hr. destruct (merged_late_values f cutoff r Hr) as [He Hm].
    split.
    + destruct He as [->|He]; [lia|].
      apply count_late_mastery_bounds in He. simpl in He. lia.
    + destruct Hm as [->|Hm]; [lia|].
      apply count_late_mastery_bounds in Hm. simpl in Hm. lia.
Qed.

End CountBounds.

(** ** The rows of the merged table *)

Section MergedRows.
Context {U : Unicode}.

Lemma merge_left_missing {K A V} `{EqDecision K} (key : A -> K)
    (left : list A) (right : list (K * V)) a :
  In (a, None) (merge_left key left right) -> ~ In (key a) (map fst right).
Proof.
  unfold merge_left. intros H. apply in_flat_map in H as (b & _ & H).
  destruct (group (key b) right) as [|x l] eqn:E.
  - destruct H as [H|[]]. inversion H; subst. apply group_nil. exact E.
  - apply in_map_iff in H as (y & H & _). discriminate.
Qed.

Lemma mastery_count_unlisted wb tl cutoff sid :
  (forall tgt d, In tgt tl -> ~ In (sid, d) (unit_sheet_rows wb tl tgt)) ->
  mastery_count_of wb tl cutoff sid = 0.
Proof.
  intros H. unfold mastery_count_of.
  assert (E : map (fun tgt => unit_flag wb tl cutoff tgt sid) tl = map (fun _ => 0) tl).
  { apply map_ext_in. intros tgt Ht. unfold unit_flag.
    destruct (existsb _ _) eqn:Ex; [|reflexivity]. exfalso.
    apply existsb_exists in Ex as ([k d] & Hin & Hp). cbn [fst snd] in Hp.
    apply andb_true_iff in Hp as [Hk _]. apply Z.eqb_eq in Hk. subst k.
    apply (H tgt d Ht Hin). }
  rewrite E. clear. induction tl as [|t tl IH]; [reflexivity|].
  cbn [map sum_Z fold_right]. unfold sum_Z in IH. rewrite IH. reflexivity.
Qed.

(** The value that the merge of a counter's table gives a row: the count
    of the student, or a missing one filled with 0. *)
Lemma merged_count_value wb tl cutoff {A} (key : A -> Z) (left : list A) a o :
  NoDup tl ->
  In (a, o) (merge_left key left (count_mastery wb tl cutoff)) ->
  fillna0_int o = mastery_count_of wb tl cutoff (key a).
Proof.
  intros ND H. destruct (count_mastery_sound wb tl cutoff ND) as (_ & H2 & H3).
  destruct o as [v|].
  - apply merge_left_value in H. cbn [fillna0_int]. apply H3. exact H.
  - apply merge_left_missing in H. cbn [fillna0_int]. symmetry.
    apply mastery_count_unlisted. intros tgt d Ht Hin. apply H. apply H2. eauto.
Qed.

(** X9. In every row of the merged table of a file, whatever the cutoff, the
    English mastery count is the number of units of the English catalog that
    the student of the row completed by the cutoff in the unit sheets of the
    file, the math mastery count that of the math catalog, and tot_mas their
    sum; a student that no unit sheet lists has the counts 0. *)
Theorem merged_mastery_counts (f : File) (cutoff : option datetime) :
  forall r, In r (merged_of f cutoff) ->
    eng_mas r
    = mastery_count_of (workbook f) ENG_TARGETS cutoff (student_id (exam r))
    /\ math_mas r
       = mastery_count_of (workbook f) MATH_TARGETS cutoff (student_id (exam r))
    /\ tot_mas r
       = mastery_count_of (workbook f) ENG_TARGETS cutoff (student_id (exam r))
         + mastery_count_of (workbook f) MATH_TARGETS cutoff (student_id (exam r)).
Proof.
  intros r H. unfold merged_of in H.
  apply in_map_iff in H as ([[[[b em] mm] el] ml] & <- & H).
  cbn [exam eng_mas math_mas tot_mas].
  apply (in_map fst) in H. apply merge_left_rows in H.
  apply (in_map fst) in H. apply merge_left_rows in H. cbn [fst] in H.
  assert (Hm : fillna0_int mm
               = mastery_count_of (workbook f) MATH_TARGETS cutoff (student_id b)).
  { apply (merged_count_value _ _ _ (fun r => student_id (fst r)) _ (b, em) mm
             NoDup_MATH_TARGETS H). }
  apply (in_map fst) in H. apply merge_left_rows in H. cbn [fst] in H.
  assert (He : fillna0_int em
               = mastery_count_of (workbook f) ENG_TARGETS cutoff (student_id b)).
  { apply (merged_count_value _ _ _ student_id _ b em NoDup_ENG_TARGETS H). }
  rewrite He, Hm. auto.
Qed.

Lemma merge_left_empty {K A V} `{EqDecision K} (key : A -> K) (left : list A) :
  merge_left key left (@nil (K * V)) = map (fun a => (a, None)) left.
Proof.
  unfold merge_left. induction left as [|a left IH]; [reflexivity|].
  simpl. simpl in IH. rewrite IH. reflexivity.
Qed.

Lemma merged_exam_list (f : File) cutoff :
  NoDup (map fst (count_late_mastery (workbook f) ENG_TARGETS cutoff)) ->
  NoDup (map fst (count_late_mastery (workbook f) MATH_TARGETS cutoff)) ->
  map exam (merged_of f cutoff) = read_exam (workbook f).
Proof.
  intros N1 N2. unfold merged_of. rewrite map_map.
  rewrite (map_ext _ (fun x => fst (fst (fst (fst x)))))
    by (intros [[[[? ?] ?] ?] ?]; reflexivity).
  destruct (count_mastery_sound (workbook f) ENG_TARGETS cutoff NoDup_ENG_TARGETS)
    as (E1 & _).
  destruct (count_mastery_sound (workbook f) MATH_TARGETS cutoff NoDup_MATH_TARGETS)
    as (E2 & _).
  rewrite (merge_left_lookup _ _ _ N2), map_map. cbn [fst].
  rewrite (merge_left_lookup _ _ _ N1), map_map. cbn [fst].
  rewrite (merge_left_lookup _ _ _ E2), map_map. cbn [fst].
  rewrite (merge_left_lookup _ _ _ E1), map_map. cbn [fst].
  apply map_id.
Qed.

(** X10. Where the late tables have one row per student, and so always
    without a cutoff, the merged table of a file has exactly the rows of the
    exam table, one for one and in their order; and without a cutoff both
    late counts of every row are 0. *)
Theorem merged_rows_one_for_one (f : File) :
  (forall cutoff,
      NoDup (map fst (count_late_mastery (workbook f) ENG_TARGETS cutoff)) ->
      NoDup (map fst (count_late_mastery (workbook f) MATH_TARGETS cutoff)) ->
      map exam (merged_of f cutoff) = read_exam (workbook f))
  /\ map exam (merged_of f None) = read_exam (workbook f)
  /\ (forall r, In r (merged_of f None) -> eng_late r = 0 /\ math_late r = 0).
Proof.
  split; [intros cutoff; apply merged_exam_list|]. split.
  - apply merged_exam_list; constructor.
  - intros r Hr. destruct (merged_late_values f None r Hr) as [[He|[]] [Hm|[]]]. auto.
Qed.

End MergedRows.

(** The mastery counts of student 1 in the panel of the sample file. *)
Lemma merged_mastery_counts_witness :
  eng_mas Sample.panel_row_1
  = @mastery_count_of basic_tables (workbook Sample.file) ENG_TARGETS
      (Some Sample.cutoff) (student_id (exam Sample.panel_row_1)).
Proof.
  destruct (@merged_mastery_counts basic_tables Sample.file (Some Sample.cutoff)
              Sample.panel_row_1) as (H & _); [vm_compute; auto|exact H].
Defined.

(** ** Late completions, one sheet for a unit *)

Section LateSingleSheet.
Context {U : Unicode}.

Lemma late_table_single (c : datetime) (F : list (list (Z * option datetime))) :
  (length F <= 1)%nat ->
  let L := map (fun r : Z * option datetime => (fst r, Z.b2z (date_gt (snd r) c)))
               (concat (map (groupby (skipna Z.min)) F)) in
  NoDup (map fst L)
  /\ (forall k, In k (map fst L) <-> exists d, In (k, d) (concat F))
  /\ (forall k, fillna0_int (lookup_row k L)
                = Z.b2z (date_gt (skipna Z.min (group k (concat F))) c)).
Proof.
  intros HF L. destruct F as [|rows [|x F]]; [| |simpl in HF; lia].
  - subst L. simpl. repeat apply conj.
    + constructor.
    + intros k. split; [intros []|intros (d & [])].
    + intros k. reflexivity.
  - subst L. cbn [map concat]. rewrite !app_nil_r.
    set (L := map (fun r : Z * option datetime => (fst r, Z.b2z (date_gt (snd r) c)))
                  (groupby (skipna Z.min) rows)).
    assert (EL : map fst L = keys rows).
    { subst L. rewrite map_map. cbn [fst]. apply groupby_keys. }
    assert (ND : NoDup (map fst L)) by (rewrite EL; apply keys_NoDup).
    repeat apply conj.
    + exact ND.
    + intros k. rewrite EL, in_keys, in_map_iff. split.
      * intros ([k' d] & E & H). cbn [fst] in E. subst k'. eauto.
      * intros (d & H). exists (k, d). auto.
    + intros k. destruct (lookup_row k L) as [v|] eqn:E.
      * apply (lookup_row_Some _ _ _ ND) in E. subst L.
        apply in_map_iff in E as ([k' o] & E & H). cbn [fst snd] in E.
        apply in_groupby in H as [_ ->]. inversion E; subst. reflexivity.
      * apply lookup_row_None in E. rewrite EL, in_keys in E.
        apply group_nil in E. rewrite E. reflexivity.
Qed.

(** The late counter on a workbook with at most one sheet for a unit. *)
Lemma late_counts_single wb tl (c : datetime) :
  NoDup tl ->
  (forall tgt, In tgt tl ->
     (length (frames_of unit_rows wb (_sheets_for_targets (sheet_names wb) tl) tgt)
      <= 1)%nat) ->
  NoDup (map fst (count_late_mastery wb tl (Some c)))
  /\ (forall sid,
         In sid (map fst (count_late_mastery wb tl (Some c))) <->
         exists tgt d, In tgt tl /\ In (sid, d) (unit_sheet_rows wb tl tgt))
  /\ (forall sid n,
         In (sid, n) (count_late_mastery wb tl (Some c)) ->
         n = late_count_of wb tl c sid).
Proof.
  intros ND H1.
  set (hp := _sheets_for_targets (sheet_names wb) tl) in *.
  set (late_table := fun tgt =>
         map (fun r : Z * option datetime => (fst r, Z.b2z (date_gt (snd r) c)))
             (concat (frames_of late_sub wb hp tgt))).
  set (T := fun t => if mem t tl then late_table t else []).
  assert (E : count_late_mastery wb tl (Some c)
              = merge_and_sum tl (map (fun t => target_frame t (T t)) tl)).
  { unfold count_late_mastery. cbv zeta. fold hp. f_equal.
    apply map_ext_in. intros t Ht. subst T. cbv beta.
    apply mem_spec in Ht. rewrite Ht. reflexivity. }
  assert (S : forall t, In t tl ->
      NoDup (map fst (late_table t))
      /\ (forall k, In k (map fst (late_table t))
                    <-> exists d, In (k, d) (unit_sheet_rows wb tl t))
      /\ (forall k, fillna0_int (lookup_row k (late_table t))
                    = late_flag wb tl c t k)).
  { intros t Ht. subst late_table. cbv beta.
    rewrite (frames_of_map unit_rows late_sub (groupby (skipna Z.min)))
      by (intros df; unfold late_sub; destruct (unit_rows df); reflexivity).
    apply (late_table_single c _ (H1 t Ht)). }
  assert (HT : forall t, NoDup (map fst (T t))).
  { intros t. subst T. cbv beta. destruct (mem t tl) eqn:M; [|constructor].
    apply mem_spec in M. apply (S t M). }
  rewrite E. destruct (merge_and_sum_spec tl T ND HT) as (R1 & R2 & R3).
  repeat apply conj.
  - exact R1.
  - intros sid. rewrite R2. split.
    + intros (t & Ht & H). exists t. subst T. cbv beta in H.
      pose proof Ht as M. apply mem_spec in M. rewrite M in H.
      apply (S t Ht) in H as (d & H). eauto.
    + intros (t & d & Ht & H). exists t. split; [exact Ht|]. subst T. cbv beta.
      pose proof Ht as M. apply mem_spec in M. rewrite M.
      apply (S t Ht). eauto.
  - intros sid n H. rewrite (R3 sid n H). unfold late_count_of. f_equal.
    apply map_ext_in. intros t Ht. subst T. cbv beta.
    pose proof Ht as M. apply mem_spec in M. rewrite M. apply (S t Ht).
Qed.

(** X11. Where every unit of the catalog has at most one sheet that gives
    rows, the late counter is right: under a cutoff its table has one row
    for each student of a unit sheet, and the count of the row is the number
    of units whose earliest completion date of the student is after the
    cutoff. *)
Theorem count_late_mastery_single_sheet wb tl (c : datetime) :
  NoDup tl ->
  (forall tgt, In tgt tl ->
     (length (frames_of unit_rows wb (_sheets_for_targets (sheet_names wb) tl) tgt)
      <= 1)%nat) ->
  NoDup (map fst (count_late_mastery wb tl (Some c)))
  /\ (forall sid,
         In sid (map fst (count_late_mastery wb tl (Some c))) <->
         exists tgt d, In tgt tl /\ In (sid, d) (unit_sheet_rows wb tl tgt))
  /\ (forall sid n,
         In (sid, n) (count_late_mastery wb tl (Some c)) ->
         n = late_count_of wb tl c sid).
Proof. apply late_counts_single. Qed.

End LateSingleSheet.

Lemma count_late_mastery_single_sheet_witness :
  In (1, 1)
     (@count_late_mastery basic_tables SingleSheet.wb ENG_TARGETS
        (Some (mk_datetime 2025 1 7)))
  /\ 1 = @late_count_of basic_tables SingleSheet.wb ENG_TARGETS (mk_datetime 2025 1 7) 1.
Proof.
  assert (H : In (1, 1)
                 (@count_late_mastery basic_tables SingleSheet.wb ENG_TARGETS
                    (Some (mk_datetime 2025 1 7))))
    by (vm_compute; auto).
  split; [exact H|].
  refine (proj2 (proj2 (@count_late_mastery_single_sheet basic_tables SingleSheet.wb
                          ENG_TARGETS (mk_datetime 2025 1 7) NoDup_ENG_TARGETS _))
                1 1 H).
  intros tgt Ht. vm_compute in Ht.
  repeat (destruct Ht as [<-|Ht]; [vm_compute; lia|]). destruct Ht.
Defined.

(** ** The cutoff and the counts *)

Section CutoffOrder.
Context {U : Unicode}.

Lemma sum_Z_le {A} (f g : A -> Z) (l : list A) :
  (forall x, In x l -> f x <= g x) -> sum_Z (map f l) <= sum_Z (map g l).
Proof.
  induction l as [|a l IH]; intros H; [simpl; lia|].
  cbn [map sum_Z fold_right].
  assert (Ha : f a <= g a) by (apply H; left; reflexivity).
  assert (IH' : sum_Z (map f l) <= sum_Z (map g l))
    by (apply IH; intros x Hx; apply H; right; exact Hx).
  unfold sum_Z in IH'. lia.
Qed.

Lemma existsb_le {A} (p q : A -> bool) (l : list A) :
  (forall x, p x = true -> q x = true) ->
  Z.b2z (existsb p l) <= Z.b2z (existsb q l).
Proof.
  intros H. destruct (existsb p l) eqn:E.
  - apply existsb_exists in E as (x & Hx & Hp).
    assert (E : existsb q l = true) by (apply existsb_exists; eauto).
    rewrite E. reflexivity.
  - destruct (existsb q l); simpl; lia.
Qed.

Lemma row_completed_le c1 c2 d :
  cutoff_le c1 c2 -> row_completed c1 d = true -> row_completed c2 d = true.
Proof.
  destruct d as [t|]; [|intros _ H; exact H].
  destruct c2 as [t2|]; [|reflexivity]. destruct c1 as [t1|]; [|intros []].
  cbn [cutoff_le row_completed]. intros L H. apply Z.leb_le in H. apply Z.leb_le. lia.
Qed.

Lemma mastery_count_le wb tl c1 c2 sid :
  cutoff_le c1 c2 ->
  mastery_count_of wb tl c1 sid <= mastery_count_of wb tl c2 sid.
Proof.
  intros L. unfold mastery_count_of. apply sum_Z_le. intros tgt _.
  unfold unit_flag. apply existsb_le. intros r H.
  apply andb_true_iff in H as [H1 H2]. apply andb_true_iff. split; [exact H1|].
  apply (row_completed_le c1 c2 _ L H2).
Qed.

(** X12. The cutoff does not change which students the mastery counter
    lists, and moving it later, or dropping it, lowers the count of no
    student. *)
Theorem count_mastery_monotone wb tl (c1 c2 : option datetime) :
  NoDup tl -> cutoff_le c1 c2 ->
  (forall sid, In sid (map fst (count_mastery wb tl c1))
               <-> In sid (map fst (count_mastery wb tl c2)))
  /\ (forall sid n1 n2,
         In (sid, n1) (count_mastery wb tl c1) ->
         In (sid, n2) (count_mastery wb tl c2) -> n1 <= n2).
Proof.
  intros ND L.
  destruct (count_mastery_sound wb tl c1 ND) as (_ & K1 & V1).
  destruct (count_mastery_sound wb tl c2 ND) as (_ & K2 & V2).
  split.
  - intros sid. rewrite K1, K2. reflexivity.
  - intros sid n1 n2 H1 H2. rewrite (V1 _ _ H1), (V2 _ _ H2).
    apply mastery_count_le. exact L.
Qed.

Lemma skipna_min_fold (vs : list (option Z)) : forall acc t,
  fold_left
    (fun acc v =>
       match acc, v with
       | Some a, Some b => Some (Z.min a b)
       | None, _ => v
       | _, None => acc
       end) vs acc = Some t ->
  (forall a, acc = Some a -> t <= a) /\ (forall d, In (Some d) vs -> t <= d).
Proof.
  induction vs as [|v vs IH]; intros acc t H.
  - simpl in H. subst acc. split; [intros a E; inversion E; lia|intros d []].
  - cbn [fold_left] in H. apply IH in H as (H2 & H3).
    destruct acc as [a|], v as [b|].
    + pose proof (H2 _ eq_refl). split.
      * intros a' E. inversion E; subst. lia.
      * intros d [E|Hd]; [inversion E; subst; lia|auto].
    + split; [exact H2|]. intros d [E|Hd]; [discriminate|auto].
    + split; [intros a E; discriminate|].
      intros d [E|Hd]; [apply H2; exact E|auto].
    + split; [exact H2|]. intros d [E|Hd]; [discriminate|auto].
Qed.

(** A unit counts as late for a student only when no row of the student in
    the sheets of the unit has a date up to the cutoff. *)
Lemma late_flag_excludes wb tl c tgt sid :
  unit_flag wb tl (Some c) tgt sid + late_flag wb tl c tgt sid <= 1.
Proof.
  unfold late_flag, earliest_completion, unit_flag.
  destruct (skipna Z.min (group sid (unit_sheet_rows wb tl tgt))) as [t|] eqn:E;
    cbn [date_gt]; [|destruct (existsb _ _); simpl; lia].
  destruct (c <? t) eqn:Lt; [|destruct (existsb _ _); simpl; lia].
  apply Z.ltb_lt in Lt. apply skipna_min_fold in E as [_ E].
  destruct (existsb _ _) eqn:Ex; [|simpl; lia]. exfalso.
  apply existsb_exists in Ex as ([k d] & Hin & Hp). cbn [fst snd] in Hp.
  apply andb_true_iff in Hp as [Hk Hd]. apply Z.eqb_eq in Hk. subst k.
  destruct d as [d|]; [|discriminate]. cbn [row_completed] in Hd.
  apply Z.leb_le in Hd. apply in_group in Hin. apply E in Hin. lia.
Qed.

Lemma sum_Z_exclusive {A} (f g : A -> Z) (l : list A) :
  (forall x, In x l -> f x + g x <= 1) ->
  sum_Z (map f l) + sum_Z (map g l) <= Z.of_nat (length l).
Proof.
  induction l as [|a l IH]; intros H; [simpl; lia|].
  cbn [map sum_Z fold_right length].
  assert (Ha : f a + g a <= 1) by (apply H; left; reflexivity).
  assert (IH' : sum_Z (map f l) + sum_Z (map g l) <= Z.of_nat (length l))
    by (apply IH; intros x Hx; apply H; right; exact Hx).
  unfold sum_Z in IH'. lia.
Qed.

Lemma mastery_and_late wb tl c sid :
  mastery_count_of wb tl (Some c) sid + late_count_of wb tl c sid
  <= Z.of_nat (length tl).
Proof.
  unfold mastery_count_of, late_count_of. apply sum_Z_exclusive.
  intros tgt _. apply late_flag_excludes.
Qed.

(** X13. Where every unit of the catalog has at most one sheet that gives
    rows, a unit is never counted both as mastered and as late: under a
    cutoff the mastery count and the late count of a student add up to at
    most the number of units of the catalog. *)
Theorem mastery_and_late_counts wb tl (c : datetime) :
  NoDup tl ->
  (forall tgt, In tgt tl ->
     (length (frames_of unit_rows wb (_sheets_for_targets (sheet_names wb) tl) tgt)
      <= 1)%nat) ->
  forall sid n m,
    In (sid, n) (count_mastery wb tl (Some c)) ->
    In (sid, m) (count_late_mastery wb tl (Some c)) ->
    n + m <= Z.of_nat (length tl).
Proof.
  intros ND H1 sid n m Hn Hm.
  destruct (count_mastery_sound wb tl (Some c) ND) as (_ & _ & V).
  rewrite (V _ _ Hn).
  assert (L : m = late_count_of wb tl c sid)
    by apply (proj2 (proj2 (late_counts_single wb tl c ND H1)) sid m Hm).
  rewrite L. apply mastery_and_late.
Qed.

End CutoffOrder.

Lemma count_mastery_monotone_witness :
  In (1, 0)
     (@count_mastery basic_tables Sample.wb ENG_TARGETS (Some (mk_datetime 2025 1 7)))
  /\ In (1, 1) (@count_mastery basic_tables Sample.wb ENG_TARGETS None)
  /\ 0 <= 1.
Proof.
  assert (H1 : In (1, 0)
                  (@count_mastery basic_tables Sample.wb ENG_TARGETS
                     (Some (mk_datetime 2025 1 7))))
    by (vm_compute; auto).
  assert (H2 : In (1, 1) (@count_mastery basic_tables Sample.wb ENG_TARGETS None))
    by (vm_compute; auto).
  split; [exact H1|]. split; [exact H2|].
  exact (proj2 (@count_mastery_monotone basic_tables Sample.wb ENG_TARGETS
                  (Some (mk_datetime 2025 1 7)) None NoDup_ENG_TARGETS I)
               1 0 1 H1 H2).
Defined.

Lemma mastery_and_late_counts_witness :
  In (1, 0)
     (@count_mastery basic_tables SingleSheet.wb ENG_TARGETS
        (Some (mk_datetime 2025 1 7)))
  /\ In (1, 1)
        (@count_late_mastery basic_tables SingleSheet.wb ENG_TARGETS
           (Some (mk_datetime 2025 1 7)))
  /\ 0 + 1 <= Z.of_nat (length ENG_TARGETS).
Proof.
  assert (H1 : In (1, 0)
                  (@count_mastery basic_tables SingleSheet.wb ENG_TARGETS
                     (Some (mk_datetime 2025 1 7))))
    by (vm_compute; auto).
  assert (H2 : In (1, 1)
                  (@count_late_mastery basic_tables SingleSheet.wb ENG_TARGETS
                     (Some (mk_datetime 2025 1 7))))
    by (vm_compute; auto).
  split; [exact H1|]. split; [exact H2|].
  refine (@mastery_and_late_counts basic_tables SingleSheet.wb ENG_TARGETS
            (mk_datetime 2025 1 7) NoDup_ENG_TARGETS _ 1 0 1 H1 H2).
  intros tgt Ht. vm_compute in Ht.
  repeat (destruct Ht as [<-|Ht]; [vm_compute; lia|]). destruct Ht.
Defined.

(** ** The headcounts of the summary tables *)

Section Headcounts.
Context {U : Unicode}.

Lemma group_of_cells (df : list PanelRow) (key : PanelRow -> Z) c b :
  group (c, b) (map (fun r => ((grade_norm (exam r), key r), student_id (exam r))) df)
  = map (fun p => student_id (exam p)) (cell_rows df key c b).
Proof.
  unfold group, cell_rows. induction df as [|p df IH]; [reflexivity|].
  cbn [map List.filter fst]. destruct (bool_decide _); cbn [map snd]; rewrite IH;
    reflexivity.
Qed.

Lemma group_of_scored_cells (df : list PanelRow) (key : PanelRow -> Z)
    (score_col : PanelRow -> option Q) c b :
  map fst
      (group (c, b)
         (flat_map
            (fun r =>
               match score_col r with
               | Some sc => [((grade_norm (exam r), key r), (student_id (exam r), sc))]
               | None => []
               end) df))
  = map (fun p => student_id (exam p)) (scored_rows score_col (cell_rows df key c b)).
Proof.
  unfold scored_rows, cell_rows. induction df as [|p df IH]; [reflexivity|].
  cbn [flat_map List.filter]. rewrite group_app, map_app, IH.
  destruct (score_col p) as [sc|] eqn:S.
  - rewrite group_cons. cbn [fst]. unfold group at 1. cbn [List.filter map app].
    destruct (bool_decide _); cbn [List.filter map app fst snd]; [rewrite S|];
      reflexivity.
  - unfold group at 1. cbn [List.filter map app].
    destruct (bool_decide _); cbn [List.filter]; [rewrite S|]; reflexivity.
Qed.

Lemma group_of_groupby {K V W} `{EqDecision K} (agg : list V -> W)
    (rows : list (K * V)) k :
  group k (groupby agg rows)
  = match group k rows with [] => [] | _ => [agg (group k rows)] end.
Proof.
  destruct (group k rows) as [|v l] eqn:E.
  - apply group_nil. rewrite groupby_keys, in_keys. apply group_nil. exact E.
  - rewrite <- E. apply group_unique; [apply groupby_NoDup|].
    apply in_groupby. split; [|reflexivity].
    assert (H : In v (group k rows)) by (rewrite E; left; reflexivity).
    apply in_group in H. apply in_map_iff. exists (k, v). auto.
Qed.

Lemma distribution_cell df key max_val r :
  In r (summarize_distribution df key max_val) ->
  In (dist_cohort r, dist_key r) (template max_val)
  /\ dist_count r
     = nunique (map (fun p => student_id (exam p))
                    (cell_rows df key (dist_cohort r) (dist_key r))).
Proof.
  rewrite summarize_distribution_rows. intros H.
  apply in_map_iff in H as ([c b] & <- & Ht). cbn [dist_cohort dist_key dist_count fst snd].
  split; [exact Ht|]. rewrite group_of_groupby, group_of_cells.
  destruct (map _ (cell_rows df key c b)); reflexivity.
Qed.

Lemma long_cell df key score_col max_val r :
  In r (summarize_long df key score_col max_val) ->
  In (long_cohort r, long_key r) (template max_val)
  /\ long_count r
     = nunique (map (fun p => student_id (exam p))
                    (scored_rows score_col
                       (cell_rows df key (long_cohort r) (long_key r)))).
Proof.
  rewrite summarize_long_rows. intros H.
  apply in_map_iff in H as ([c b] & <- & Ht).
  cbn [long_cohort long_key long_count fst snd].
  split; [exact Ht|]. rewrite group_of_groupby.
  rewrite <- group_of_scored_cells.
  destruct (group (c, b) _); reflexivity.
Qed.

(** X14. The headcount of a row of a long table is the number of distinct
    students among the panel rows of its cell that have a score, and the
    headcount of a row of a distribution table the number of distinct
    students among all the panel rows of its cell: a student with several
    rows in a cell is counted once. *)
Theorem headcounts_count_students (df : list PanelRow) (key : PanelRow -> Z)
    (score_col : PanelRow -> option Q) (max_val : Z) :
  (forall r, In r (summarize_long df key score_col max_val) ->
     long_count r
     = nunique (map (fun p => student_id (exam p))
                    (scored_rows score_col
                       (cell_rows df key (long_cohort r) (long_key r)))))
  /\ (forall r, In r (summarize_distribution df key max_val) ->
        dist_count r
        = nunique (map (fun p => student_id (exam p))
                       (cell_rows df key (dist_cohort r) (dist_key r)))).
Proof.
  split; intros r H.
  - apply (long_cell _ _ _ _ _ H).
  - apply (distribution_cell _ _ _ _ H).
Qed.

End Headcounts.

(** ** Every panel row has its cell *)

Section PanelCells.
Context {U : Unicode}.

Lemma read_exam_grades wb r :
  In r (read_exam wb) -> grade_norm r = u "高3" \/ grade_norm r = u "高1+2".
Proof.
  rewrite read_exam_eq. intros Hr.
  apply in_map_iff in Hr as ([[sid g] rows] & <- & Hin).
  cbn [grade_norm fst snd]. apply in_groupby in Hin as [Hin _].
  rewrite map_map in Hin. cbn [fst] in Hin.
  apply in_map_iff in Hin as (x & E & Hx). inversion E; subst.
  apply in_exam_rows_of in Hx as (s & sub & _ & Es & Hx).
  eapply exam_sub_grades; eauto.
Qed.

Lemma merged_values_in_range (f : File) cutoff p :
  In p (merged_of f cutoff) ->
  (grade_norm (exam p) = u "高1+2" \/ grade_norm (exam p) = u "高3")
  /\ 0 <= eng_mas p <= 6 /\ 0 <= math_mas p <= 6 /\ 0 <= tot_mas p <= 12
  /\ 0 <= eng_late p <= 6 /\ 0 <= math_late p <= 6.
Proof.
  intros Hp.
  destruct (merged_mastery_values f cutoff p Hp) as (He & Hm & Ht).
  destruct (merged_late_values f cutoff p Hp) as [Le Lm].
  assert (0 <= eng_mas p <= 6).
  { destruct He as [->|He]; [lia|].
    apply count_mastery_bounds in He. simpl in He. lia. }
  assert (0 <= math_mas p <= 6).
  { destruct Hm as [->|Hm]; [lia|].
    apply count_mastery_bounds in Hm. simpl in Hm. lia. }
  assert (0 <= eng_late p <= 6).
  { destruct Le as [->|Le]; [lia|].
    apply count_late_mastery_bounds in Le. simpl in Le. lia. }
  assert (0 <= math_late p <= 6).
  { destruct Lm as [->|Lm]; [lia|].
    apply count_late_mastery_bounds in Lm. simpl in Lm. lia. }
  split; [|repeat split; lia].
  assert (G : In (exam p) (read_exam (workbook f))).
  { apply (merged_exam_rows f cutoff). apply in_map. exact Hp. }
  apply read_exam_grades in G. tauto.
Qed.

Lemma distribution_cell_present (df : list PanelRow) key max_val p :
  In p df -> In (grade_norm (exam p), key p) (template max_val) ->
  exists r, In r (summarize_distribution df key max_val)
            /\ dist_cohort r = grade_norm (exam p) /\ dist_key r = key p
            /\ 1 <= dist_count r.
Proof.
  intros Hp Ht.
  pose proof (summarize_distribution_rows df key max_val) as E.
  assert (R : exists r, In r (summarize_distribution df key max_val)
                        /\ dist_cohort r = grade_norm (exam p) /\ dist_key r = key p).
  { rewrite E. eexists. split; [apply in_map; exact Ht|]. split; reflexivity. }
  destruct R as (r & Hr & Ec & Ek). exists r. repeat split; try assumption.
  destruct (distribution_cell _ _ _ _ Hr) as [_ ->]. rewrite Ec, Ek.
  assert (0 < nunique (map (fun p0 => student_id (exam p0))
                           (cell_rows df key (grade_norm (exam p)) (key p)))); [|lia].
  apply nunique_pos. intros M. apply map_eq_nil in M.
  assert (X : In p (cell_rows df key (grade_norm (exam p)) (key p))).
  { apply filter_In. split; [exact Hp|]. apply bool_decide_eq_true. reflexivity. }
  rewrite M in X. destruct X.
Qed.

Lemma long_cell_present (df : list PanelRow) key score_col max_val p :
  In p df -> In (grade_norm (exam p), key p) (template max_val) ->
  score_col p <> None ->
  exists r, In r (summarize_long df key score_col max_val)
            /\ long_cohort r = grade_norm (exam p) /\ long_key r = key p
            /\ 1 <= long_count r.
Proof.
  intros Hp Ht Hs.
  pose proof (summarize_long_rows df key score_col max_val) as E.
  assert (R : exists r, In r (summarize_long df key score_col max_val)
                        /\ long_cohort r = grade_norm (exam p) /\ long_key r = key p).
  { rewrite E. eexists. split; [apply in_map; exact Ht|]. split; reflexivity. }
  destruct R as (r & Hr & Ec & Ek). exists r. repeat split; try assumption.
  destruct (long_cell _ _ _ _ _ Hr) as [_ ->]. rewrite Ec, Ek.
  assert (0 < nunique (map (fun p0 => student_id (exam p0))
                           (scored_rows score_col
                              (cell_rows df key (grade_norm (exam p)) (key p)))));
    [|lia].
  apply nunique_pos. intros M. apply map_eq_nil in M.
  assert (X : In p (scored_rows score_col
                      (cell_rows df key (grade_norm (exam p)) (key p)))).
  { apply filter_In. split.
    - apply filter_In. split; [exact Hp|]. apply bool_decide_eq_true. reflexivity.
    - destruct (score_col p); [reflexivity|congruence]. }
  rewrite M in X. destruct X.
Qed.

(** X15. No row of a merged table falls outside the tables: in whatever
    panel it is put, its cohort and its late counts are a cell of the two
    distribution tables, whose headcount there is at least 1, and for each
    subject in which it has a score its cohort and mastery count (tot_mas
    for Japanese, with buckets up to 12) are a cell of the long table, with
    a headcount of at least 1. *)
Theorem panel_rows_have_cells (f : File) (cutoff : option datetime)
    (df : list PanelRow) (p : PanelRow) :
  In p (merged_of f cutoff) -> In p df ->
  (exists r, In r (summarize_distribution df eng_late 6)
             /\ dist_cohort r = grade_norm (exam p) /\ dist_key r = eng_late p
             /\ 1 <= dist_count r)
  /\ (exists r, In r (summarize_distribution df math_late 6)
                /\ dist_cohort r = grade_norm (exam p) /\ dist_key r = math_late p
                /\ 1 <= dist_count r)
  /\ (score_eng (exam p) <> None ->
      exists r, In r (summarize_long df eng_mas (fun r => score_eng (exam r)) 6)
                /\ long_cohort r = grade_norm (exam p) /\ long_key r = eng_mas p
                /\ 1 <= long_count r)
  /\ (score_math (exam p) <> None ->
      exists r, In r (summarize_long df math_mas (fun r => score_math (exam r)) 6)
                /\ long_cohort r = grade_norm (exam p) /\ long_key r = math_mas p
                /\ 1 <= long_count r)
  /\ (score_jpn (exam p) <> None ->
      exists r, In r (summarize_long df tot_mas (fun r => score_jpn (exam r)) 12)
                /\ long_cohort r = grade_norm (exam p) /\ long_key r = tot_mas p
                /\ 1 <= long_count r).
Proof.
  intros Hm Hp.
  destruct (merged_values_in_range f cutoff p Hm) as (G & B1 & B2 & B3 & B4 & B5).
  repeat apply conj.
  - apply distribution_cell_present; [exact Hp|]. apply in_template. auto.
  - apply distribution_cell_present; [exact Hp|]. apply in_template. auto.
  - intros S. apply (long_cell_present df eng_mas (fun r => score_eng (exam r)));
      [exact Hp| |exact S]. apply in_template. auto.
  - intros S. apply (long_cell_present df math_mas (fun r => score_math (exam r)));
      [exact Hp| |exact S]. apply in_template. auto.
  - intros S. apply (long_cell_present df tot_mas (fun r => score_jpn (exam r)));
      [exact Hp| |exact S]. apply in_template. auto.
Qed.

End PanelCells.

Lemma panel_rows_have_cells_witness :
  exists r,
    In r (summarize_distribution
            (@merged_of basic_tables Sample.file (Some Sample.cutoff)) eng_late 6)
    /\ dist_cohort r = grade_norm (exam Sample.panel_row_1)
    /\ dist_key r = eng_late Sample.panel_row_1
    /\ 1 <= dist_count r.
Proof.
  apply (@panel_rows_have_cells basic_tables Sample.file (Some Sample.cutoff)
           (@merged_of basic_tables Sample.file (Some Sample.cutoff))
           Sample.panel_row_1).
  - vm_compute. auto.
  - vm_compute. auto.
Defined.

(** ** The widths of the columns of a sheet *)

Section ColumnWidths.

Lemma longest_snoc vs v : longest (vs ++ [v]) = Z.max (longest vs) (Z.of_nat (length v)).
Proof. unfold longest. rewrite fold_left_app. reflexivity. Qed.

Lemma longest_fold (vs : list (list N)) : forall m,
  0 <= m ->
  m <= fold_left (fun m v => Z.max m (Z.of_nat (length v))) vs m
  /\ forall v, In v vs ->
       Z.of_nat (length v) <= fold_left (fun m v => Z.max m (Z.of_nat (length v))) vs m.
Proof.
  induction vs as [|x vs IH]; intros m Hm; [split; [simpl; lia|intros v []]|].
  cbn [fold_left].
  assert (Hm' : 0 <= Z.max m (Z.of_nat (length x))) by lia.
  destruct (IH _ Hm') as [I1 I2]. split; [lia|].
  intros v [<-|Hv]; [lia|auto].
Qed.

Lemma longest_attained vs :
  vs <> [] -> exists v, In v vs /\ longest vs = Z.of_nat (length v).
Proof.
  induction vs as [|x vs IH] using rev_ind; [congruence|]. intros _.
  rewrite longest_snoc. destruct vs as [|y vs].
  - exists x. split; [left; reflexivity|]. unfold longest. simpl. lia.
  - destruct IH as (v & Hv & E); [discriminate|].
    destruct (Z.max_spec (longest (y :: vs)) (Z.of_nat (length x))) as [[_ M]|[_ M]];
      rewrite M.
    + exists x. split; [apply in_or_app; right; left; reflexivity|reflexivity].
    + exists v. split; [apply in_or_app; left; exact Hv|exact E].
Qed.

(** What [dims] holds for a column whose values so far are [vs]. *)
Lemma dims_step (c : Z) (cells : list (Z * option (list N))) :
  forall (d : gmap Z Z) vs,
    d !! c = dims_value vs ->
    fold_left
      (fun dims cell =>
         match snd cell with
         | None => dims
         | Some v =>
             <[ fst cell :=
                  Z.max (match dims !! fst cell with Some w => w | None => 0 end)
                        (Z.of_nat (length v)) ]> dims
         end) cells d !! c
    = dims_value
        (vs ++ flat_map
                 (fun cell => if fst cell =? c
                              then match snd cell with Some v => [v] | None => [] end
                              else []) cells).
Proof.
  induction cells as [|[k o] cells IH]; intros d vs H.
  - simpl. rewrite app_nil_r. exact H.
  - cbn [fold_left flat_map fst snd]. destruct o as [v|].
    + destruct (Z.eqb_spec k c) as [->|Hne].
      * rewrite app_assoc. apply IH. rewrite lookup_insert_eq, H.
        unfold dims_value at 2. destruct (vs ++ [v]) eqn:E.
        -- apply app_eq_nil in E as [_ E]. discriminate.
        -- rewrite <- E, longest_snoc. destruct vs; reflexivity.
      * cbn [app]. apply IH. rewrite lookup_insert_ne by exact Hne. exact H.
    + destruct (k =? c); cbn [app]; apply IH; exact H.
Qed.

Lemma dims_rows (c : Z) (ws : list (list (option (list N)))) :
  forall (d : gmap Z Z) vs,
    d !! c = dims_value vs ->
    fold_left
      (fun dims row =>
         fold_left
           (fun dims cell =>
              match snd cell with
              | None => dims
              | Some v =>
                  <[ fst cell :=
                       Z.max (match dims !! fst cell with Some w => w | None => 0 end)
                             (Z.of_nat (length v)) ]> dims
              end)
           (numbered row) dims) ws d !! c
    = dims_value (vs ++ column_values ws c).
Proof.
  induction ws as [|row ws IH]; intros d vs H.
  - simpl. rewrite app_nil_r. exact H.
  - cbn [fold_left]. unfold column_values. cbn [flat_map]. rewrite app_assoc.
    apply IH. apply dims_step. exact H.
Qed.

Lemma autosize_dims_lookup ws c :
  autosize_dims ws !! c = dims_value (column_values ws c).
Proof. apply (dims_rows c ws ∅ []). apply lookup_empty. Qed.

(** X16. The styling gives a width to exactly the columns that hold a
    value; the width is the length of the longest value of the column plus
    2, capped at 28, so it lies between 2 and 28 and, below the cap, some
    value of the column is exactly two characters shorter. *)
Theorem autosize_widths (ws : list (list (option (list N)))) (header_row_idx : Z) :
  (forall c,
      column_widths (autosize_and_style ws header_row_idx) !! c = None
      <-> column_values ws c = [])
  /\ (forall c w,
         column_widths (autosize_and_style ws header_row_idx) !! c = Some w ->
         w = Z.min (longest (column_values ws c) + 2) 28
         /\ 2 <= w <= 28
         /\ (forall v, In v (column_values ws c) ->
                       Z.min (Z.of_nat (length v) + 2) 28 <= w)
         /\ (w < 28 -> exists v, In v (column_values ws c)
                                 /\ w = Z.of_nat (length v) + 2)).
Proof.
  unfold autosize_and_style. cbn [column_widths]. split.
  - intros c. rewrite lookup_fmap, autosize_dims_lookup.
    destruct (column_values ws c); simpl; split; congruence.
  - intros c w. rewrite lookup_fmap, autosize_dims_lookup.
    destruct (column_values ws c) as [|x l] eqn:E; [discriminate|].
    cbn [fmap option_fmap option_map]. intros H. inversion H as [Hw]. clear H.
    destruct (longest_fold (x :: l) 0 (Z.le_refl 0)) as [L0 L1].
    fold (longest (x :: l)) in L0, L1.
    repeat apply conj; try lia.
    + intros v Hv. specialize (L1 v Hv). lia.
    + intros Lt. destruct (longest_attained (x :: l)) as (v & Hv & Ev); [discriminate|].
      exists v. split; [exact Hv|]. lia.
Qed.

End ColumnWidths.

(** ** The wide tables *)

Section WideTables.
Context {U : Unicode}.

Lemma wide_entries_group (long_df : list LongRow) k c :
  group (k, c)
        (flat_map
           (fun r => match long_mean r with
                     | Some m => [((long_key r, long_cohort r), m)]
                     | None => []
                     end) long_df)
  = cell_means long_df k c.
Proof.
  unfold cell_means. induction long_df as [|r l IH]; [reflexivity|].
  cbn [flat_map]. rewrite group_app, IH. f_equal.
  destruct (long_mean r) as [m|].
  - rewrite group_cons. unfold group. cbn [List.filter map].
    destruct (bool_decide _); reflexivity.
  - destruct (bool_decide _); reflexivity.
Qed.

Lemma in_wide_entries (long_df : list LongRow) e :
  In e (flat_map
          (fun r => match long_mean r with
                    | Some m => [((long_key r, long_cohort r), m)]
                    | None => []
                    end) long_df)
  <-> exists r, In r long_df /\ long_mean r = Some (snd e)
                /\ long_key r = fst (fst e) /\ long_cohort r = snd (fst e).
Proof.
  rewrite in_flat_map. split.
  - intros (r & Hr & H). exists r. destruct (long_mean r) as [m|]; [|destruct H].
    destruct H as [<-|[]]. auto.
  - intros (r & Hr & Em & Ek & Ec). exists r. split; [exact Hr|].
    rewrite Em. left. destruct e as [[k c] m]. cbn [fst snd] in *. subst. reflexivity.
Qed.

Lemma cohorts_NoDup : NoDup [u "高1+2"; u "高3"].
Proof.
  constructor; [|constructor; [intros []|constructor]].
  intros [E|[]]. vm_compute in E. discriminate.
Qed.

(** X17. The wide table of a long table has a column for each of the two
    cohorts that has a mean in some row of the long table, "高1+2" before
    "高3", and one row for each bucket that has a mean in some row, the
    buckets in increasing order and each once; the values of a row are, column
    by column, the first mean that the long table has for the bucket and the
    cohort, or a missing value when it has none. *)
Theorem summarize_wide_spec (long_df : list LongRow) :
  (forall c, In c (wide_cols (summarize_wide long_df)) <->
             (c = u "高1+2" \/ c = u "高3")
             /\ exists r, In r long_df /\ long_cohort r = c /\ long_mean r <> None)
  /\ (exists b1 b2 : bool,
         wide_cols (summarize_wide long_df)
         = (if b1 then [u "高1+2"] else []) ++ (if b2 then [u "高3"] else []))
  /\ NoDup (wide_cols (summarize_wide long_df))
  /\ (forall k, In k (map fst (wide_rows (summarize_wide long_df))) <->
                exists r, In r long_df /\ long_key r = k /\ long_mean r <> None)
  /\ NoDup (map fst (wide_rows (summarize_wide long_df)))
  /\ StronglySorted Z.le (map fst (wide_rows (summarize_wide long_df)))
  /\ (forall k vs, In (k, vs) (wide_rows (summarize_wide long_df)) ->
        vs = map (fun c => hd_error (cell_means long_df k c))
                 (wide_cols (summarize_wide long_df))).
Proof.
  unfold summarize_wide. cbv zeta. cbn [wide_cols wide_rows].
  set (entries := flat_map _ long_df).
  set (ks := nodup Z.eq_dec (map (fun e : Z * list N * Q => fst (fst e)) entries)).
  assert (P : Permutation (merge_sort Z.le ks) ks) by apply merge_sort_Permutation.
  repeat apply conj.
  - intros c. rewrite filter_In, existsb_exists. split.
    + intros [Hc (e & He & E)].
      split; [destruct Hc as [Hc|[Hc|[]]]; [left|right]; symmetry; exact Hc|].
      apply in_wide_entries in He as (r & Hr & Em & _ & Ec).
      apply bool_decide_eq_true in E. exists r. rewrite Em. split; [exact Hr|].
      split; [congruence|discriminate].
    + intros [Hc (r & Hr & Ec' & Em)].
      split; [destruct Hc as [Hc|Hc]; [left|right; left]; symmetry; exact Hc|].
      pose proof Ec' as Ec.
      destruct (long_mean r) as [m|] eqn:M; [|congruence].
      exists ((long_key r, long_cohort r), m). split.
      * apply in_wide_entries. exists r. auto.
      * apply bool_decide_eq_true. exact Ec.
  - cbn [List.filter].
    exists (existsb (fun e : Z * list N * Q => str_eqb (snd (fst e)) (u "高1+2")) entries),
           (existsb (fun e : Z * list N * Q => str_eqb (snd (fst e)) (u "高3")) entries).
    destruct (existsb _ entries), (existsb _ entries); reflexivity.
  - apply NoDup_filter. apply cohorts_NoDup.
  - intros k. rewrite map_map. cbn [fst]. rewrite map_id. split.
    + intros Hk. apply (Permutation_in _ P) in Hk. subst ks.
      apply nodup_In, in_map_iff in Hk as (e & Ek & He).
      apply in_wide_entries in He as (r & Hr & Em & Ek' & _).
      exists r. rewrite Em. split; [exact Hr|]. split; [congruence|discriminate].
    + intros (r & Hr & Ek & Em). destruct (long_mean r) as [m|] eqn:M; [|congruence].
      apply (Permutation_in _ (Permutation_sym P)). subst ks.
      apply nodup_In, in_map_iff.
      exists ((long_key r, long_cohort r), m). split; [exact Ek|].
      apply in_wide_entries. exists r. auto.
  - rewrite map_map. cbn [fst]. rewrite map_id.
    apply (Permutation_NoDup (Permutation_sym P)). apply NoDup_nodup.
  - rewrite map_map. cbn [fst]. rewrite map_id. apply StronglySorted_merge_sort.
    + intros x y z. apply Z.le_trans.
    + intros x y. apply Z.le_ge_cases.
  - intros k vs H. apply in_map_iff in H as (k' & E & _).
    pose proof (f_equal fst E) as E1. pose proof (f_equal snd E) as E2.
    cbn [fst snd] in E1, E2. subst k'. rewrite <- E2. clear E E2.
    apply map_ext. intros c. subst entries. rewrite wide_entries_group.
    destruct (cell_means long_df k c); reflexivity.
Qed.

End WideTables.
